(** * testmynet-cli: a shallow embedding of the bandwidth tester

    The program is a sequential script: parse the flags, issue one HTTP GET,
    time the transfer, consult a one-line state file under the home directory
    (the rate limiter), print a result line.

    The embedding follows the two source files:
    - [flags.go]  : [cmdLineOpts], [serverLocation], [multiLevelInt],
                    [parseFlags], [locationList];
    - the main file: [download], [homeDir], [overloadProtection], [main].

    [parseFlags] is embedded from the point where [flag.Parse] has stored
    the values of the command line in the options; the diagnostic messages
    of [log.Verbosef], which depend on the verbosity level and change
    nothing else, are left out; [log.Fatalf] writes its message to the
    standard error and ends the process with status 1.

    The Go library calls the program makes are embedded in modules named
    after their packages ([time], [filepath], [os], [ioutil], [http], [fmt]),
    each definition named after the library function it stands for.  The
    outside world (environment variables, file system, clock, time zone
    database, network) is an explicit [World] value threaded through the
    program by a small state-and-error monad. *)

From Stdlib Require Import ZArith String Ascii List Bool Lia.
From Stdlib Require Import Sorting.Sorted Sorting.Permutation.
From Stdlib Require SpecFloat.
From stdpp Require Import base gmap strings.

Open Scope string_scope.
Open Scope Z_scope.

(** ** Machine integers *)

(** Go's [int64] and [uint64] as [Z] with the wrap-around written out. *)
Definition wrap64 (z : Z) : Z := (z + 2 ^ 63) mod 2 ^ 64 - 2 ^ 63.
Definition wrapU64 (z : Z) : Z := z mod 2 ^ 64.

Definition MaxInt64 : Z := 2 ^ 63 - 1.
Definition MinInt64 : Z := - 2 ^ 63.

(** ** Bytes and strings *)

Definition byte_of (c : ascii) : Z := Z.of_N (N_of_ascii c).
Definition char_of (z : Z) : ascii := ascii_of_N (Z.to_N z).

Definition is_digit (c : ascii) : bool :=
  (48 <=? byte_of c) && (byte_of c <=? 57).
Definition is_upper (c : ascii) : bool :=
  (65 <=? byte_of c) && (byte_of c <=? 90).
Definition is_space (c : ascii) : bool := byte_of c =? 32.
Definition digit_val (c : ascii) : Z := byte_of c - 48.
Definition digit_char (d : Z) : ascii := char_of (48 + d).

(** [s[n:]] and [s[:n]] for [n <= len(s)]. *)
Fixpoint drop_str (n : nat) (s : string) : string :=
  match n, s with
  | S n', String _ r => drop_str n' r
  | _, _ => s
  end.
Fixpoint take_str (n : nat) (s : string) : string :=
  match n, s with
  | S n', String c r => String c (take_str n' r)
  | _, _ => ""
  end.

Fixpoint repeat_char (c : ascii) (n : nat) : string :=
  match n with
  | O => ""
  | S n' => String c (repeat_char c n')
  end.

Definition len (s : string) : Z := Z.of_nat (String.length s).

(** Decimal digits of a non-negative integer, most significant first. *)
Fixpoint utoa_aux (fuel : nat) (u : Z) (acc : string) : string :=
  match fuel with
  | O => acc
  | S f =>
      let acc' := String (digit_char (u mod 10)) acc in
      if u / 10 =? 0 then acc' else utoa_aux f (u / 10) acc'
  end.
Definition utoa (u : Z) : string :=
  utoa_aux (S (Z.to_nat (Z.log2 u))) u "".

(** The double quote character, for the formats that contain one. *)
Definition dquote : string := String (char_of 34) "".

(** ** [float64]

    IEEE 754 binary64 through the Standard Library's executable
    specification ([SpecFloat], precision 53, infinite exponent 1024),
    rounding to nearest, ties to even. *)
Module float64.

Definition t : Type := SpecFloat.spec_float.

Definition prec : Z := 53.
Definition emax : Z := 1024.

(** The conversion [float64(n)] of an integer. *)
Definition of_int (n : Z) : t := SpecFloat.binary_normalize prec emax n 0 false.

Definition add (x y : t) : t := SpecFloat.SFadd prec emax x y.
Definition mul (x y : t) : t := SpecFloat.SFmul prec emax x y.
Definition div (x y : t) : t := SpecFloat.SFdiv prec emax x y.

(** [n / d] rounded to the nearest integer, ties to even ([d > 0]). *)
Definition div_half_even (n d : Z) : Z :=
  let q := n / d in
  let r := n mod d in
  if (2 * r >? d) || ((2 * r =? d) && Z.odd q) then q + 1 else q.

(** The digits of [strconv.FormatFloat(x, 'f', p, 64)] for a finite
    magnitude [m * 2^e]: the exact decimal expansion rounded to [p] places,
    ties to even. *)
Definition format_magnitude (m e : Z) (p : Z) : string :=
  let scaled :=
    if e >=? 0 then m * 2 ^ e * 10 ^ p
    else div_half_even (m * 10 ^ p) (2 ^ (- e)) in
  let ip := utoa (scaled / 10 ^ p) in
  if p =? 0 then ip
  else
    let fp := utoa (scaled mod 10 ^ p) in
    ip ++ "." ++ repeat_char "0" (Z.to_nat (p - len fp)) ++ fp.

(** The verb [%.<p>f] of [fmt] applied to a [float64]. *)
Definition format_f (p : Z) (x : t) : string :=
  match x with
  | SpecFloat.S754_nan => "NaN"
  | SpecFloat.S754_infinity s => if s then "-Inf" else "+Inf"
  | SpecFloat.S754_zero s =>
      (if s then "-" else "") ++ format_magnitude 0 0 p
  | SpecFloat.S754_finite s m e =>
      (if s then "-" else "") ++ format_magnitude (Z.pos m) e p
  end.

End float64.

(** ** Package [time]

    The parts of Go's [time] package the program calls: [Duration],
    [Time], [Time.Sub], and [Time.Format] and [Parse] on the [UnixDate]
    layout.  Each definition follows the library function of the same
    name (the calendar code is the cycle-based [absDate] and
    [daysSinceEpoch]). *)
Module time.

Definition Duration : Type := Z.

Definition Nanosecond : Duration := 1.
Definition Microsecond : Duration := 1000 * Nanosecond.
Definition Millisecond : Duration := 1000 * Microsecond.
Definition Second : Duration := 1000 * Millisecond.
Definition Minute : Duration := 60 * Second.
Definition Hour : Duration := 60 * Minute.

Definition minDuration : Duration := MinInt64.
Definition maxDuration : Duration := MaxInt64.

(** A [*Location] is used through two methods only: [lookup], which gives
    the zone abbreviation and offset in force at an instant, and
    [lookupName], which gives the offset of a named zone. *)
Record Location : Type := {
  lookup : Z -> string * Z;
  lookupName : string -> Z -> option Z
}.

Definition UTC : Location :=
  {| lookup := fun _ => ("UTC", 0);
     lookupName := fun _ _ => None |}.

Definition FixedZone (name : string) (offset : Z) : Location :=
  {| lookup := fun _ => (name, offset);
     lookupName := fun n _ => if String.eqb n name then Some offset else None |}.

(** An instant: seconds and nanoseconds since the Unix epoch, the optional
    monotonic clock reading, and the location. *)
Record Time : Type := {
  unixSec : Z;
  nsec : Z;
  mono : option Z;
  loc : Location
}.

Definition secondsPerMinute : Z := 60.
Definition secondsPerHour : Z := 60 * secondsPerMinute.
Definition secondsPerDay : Z := 24 * secondsPerHour.
Definition secondsPerWeek : Z := 7 * secondsPerDay.
Definition daysPer400Years : Z := 365 * 400 + 97.
Definition daysPer100Years : Z := 365 * 100 + 24.
Definition daysPer4Years : Z := 365 * 4 + 1.

Definition absoluteZeroYear : Z := -292277022399.
Definition internalYear : Z := 1.
(** [(absoluteZeroYear - internalYear) * 365.2425 * secondsPerDay] *)
Definition absoluteToInternal : Z :=
  (absoluteZeroYear - internalYear) * 3652425 * secondsPerDay / 10000.
Definition internalToAbsolute : Z := - absoluteToInternal.
Definition unixToInternal : Z :=
  (1969 * 365 + 1969 / 4 - 1969 / 100 + 1969 / 400) * secondsPerDay.
Definition internalToUnix : Z := - unixToInternal.

Definition isLeap (year : Z) : bool :=
  (Z.rem year 4 =? 0) && (negb (Z.rem year 100 =? 0) || (Z.rem year 400 =? 0)).

Definition daysBefore : list Z :=
  [0; 31; 59; 90; 120; 151; 181; 212; 243; 273; 304; 334; 365].
Definition daysBefore_at (i : Z) : Z := nth (Z.to_nat i) daysBefore 0.

Definition January : Z := 1.
Definition February : Z := 2.
Definition March : Z := 3.

Definition daysIn (m year : Z) : Z :=
  if (m =? February) && isLeap year then 29
  else daysBefore_at m - daysBefore_at (m - 1).

(** [t.abs()]: seconds since the absolute zero year, in the zone of [t],
    as a [uint64]; with the zone abbreviation ([t.locabs()]). *)
Definition locabs (t : Time) : string * Z * Z :=
  let '(name, offset) := lookup (loc t) (unixSec t) in
  (name, offset,
   wrapU64 (unixSec t + offset + (unixToInternal + internalToAbsolute))).

(** [absDate(abs, true)]: year, month, day of the month, day of the year.
    All intermediate values are [uint64]s below [2^64]; [y] stays below
    [2^40], so [int64(y) + absoluteZeroYear] does not wrap. *)
Definition absDate (abs : Z) : Z * Z * Z * Z :=
  let d := abs / secondsPerDay in
  let n := d / daysPer400Years in
  let y := 400 * n in
  let d := d - daysPer400Years * n in
  let n := d / daysPer100Years in
  let n := n - Z.shiftr n 2 in
  let y := y + 100 * n in
  let d := d - daysPer100Years * n in
  let n := d / daysPer4Years in
  let y := y + 4 * n in
  let d := d - daysPer4Years * n in
  let n := d / 365 in
  let n := n - Z.shiftr n 2 in
  let y := y + n in
  let d := d - 365 * n in
  let year := y + absoluteZeroYear in
  let yday := d in
  let day := yday in
  if isLeap year && (day =? 31 + 29 - 1) then (year, February, 29, yday)
  else
    let day := if isLeap year && (day >? 31 + 29 - 1) then day - 1 else day in
    let month := day / 31 in
    let end_ := daysBefore_at (month + 1) in
    let '(month, begin) :=
      if day >=? end_ then (month + 1, end_) else (month, daysBefore_at month) in
    (year, month + 1, day - begin + 1, yday).

Definition absClock (abs : Z) : Z * Z * Z :=
  let sec := abs mod secondsPerDay in
  let hour := sec / secondsPerHour in
  let sec := sec - hour * secondsPerHour in
  let min := sec / secondsPerMinute in
  let sec := sec - min * secondsPerMinute in
  (hour, min, sec).

Definition Monday : Z := 1.

Definition absWeekday (abs : Z) : Z :=
  let sec := wrapU64 (abs + Monday * secondsPerDay) mod secondsPerWeek in
  sec / secondsPerDay.

Definition longDayNames : list string :=
  ["Sunday"; "Monday"; "Tuesday"; "Wednesday"; "Thursday"; "Friday"; "Saturday"].
Definition shortDayNames : list string :=
  ["Sun"; "Mon"; "Tue"; "Wed"; "Thu"; "Fri"; "Sat"].
Definition longMonthNames : list string :=
  ["January"; "February"; "March"; "April"; "May"; "June"; "July"; "August";
   "September"; "October"; "November"; "December"].
Definition shortMonthNames : list string :=
  ["Jan"; "Feb"; "Mar"; "Apr"; "May"; "Jun"; "Jul"; "Aug"; "Sep"; "Oct";
   "Nov"; "Dec"].

(** [Weekday.String] and [Month.String] for values in range. *)
Definition Weekday_String (d : Z) : string := nth (Z.to_nat d) longDayNames "".
Definition Month_String (m : Z) : string := nth (Z.to_nat (m - 1)) longMonthNames "".

(** [appendInt]: the decimal form of [x], zero-padded to [width]. *)
Definition appendInt (b : string) (x : Z) (width : Z) : string :=
  let b := if x <? 0 then b ++ "-" else b in
  let digits := utoa (Z.abs x) in
  b ++ repeat_char "0" (Z.to_nat (width - len digits)) ++ digits.

(** The layout elements [nextStdChunk] recognises in [UnixDate]. *)
Inductive std : Type :=
  | stdWeekDay      (* "Mon" *)
  | stdMonth        (* "Jan" *)
  | stdUnderDay     (* "_2" *)
  | stdHour         (* "15" *)
  | stdZeroMinute   (* "04" *)
  | stdZeroSecond   (* "05" *)
  | stdTZ           (* "MST" *)
  | stdLongYear.    (* "2006" *)

Definition std_text (s : std) : string :=
  match s with
  | stdWeekDay => "Mon" | stdMonth => "Jan" | stdUnderDay => "_2"
  | stdHour => "15" | stdZeroMinute => "04" | stdZeroSecond => "05"
  | stdTZ => "MST" | stdLongYear => "2006"
  end.

(** A layout, cut by [nextStdChunk] into (literal prefix, element) pairs;
    nothing follows the last element of the layouts used here. *)
Definition Layout : Type := list (string * std).

(** ["Mon Jan _2 15:04:05 MST 2006"] *)
Definition UnixDate : Layout :=
  [("", stdWeekDay); (" ", stdMonth); (" ", stdUnderDay); (" ", stdHour);
   (":", stdZeroMinute); (":", stdZeroSecond); (" ", stdTZ);
   (" ", stdLongYear)].

Definition layout_text (l : Layout) : string :=
  fold_left (fun acc '(p, s) => acc ++ p ++ std_text s) l "".

(** One element of [Time.appendFormat]. *)
Definition appendStd (b : string) (s : std)
    (name : string) (offset abs year month day hour min sec : Z) : string :=
  match s with
  | stdWeekDay => b ++ take_str 3 (Weekday_String (absWeekday abs))
  | stdMonth => b ++ take_str 3 (Month_String month)
  | stdUnderDay =>
      let b := if day <? 10 then b ++ " " else b in
      appendInt b day 0
  | stdHour => appendInt b hour 2
  | stdZeroMinute => appendInt b min 2
  | stdZeroSecond => appendInt b sec 2
  | stdTZ =>
      if negb (String.eqb name "") then b ++ name
      else
        let zone := Z.quot offset 60 in
        let '(b, zone) :=
          if zone <? 0 then (b ++ "-", - zone) else (b ++ "+", zone) in
        let b := appendInt b (Z.quot zone 60) 2 in
        appendInt b (Z.rem zone 60) 2
  | stdLongYear => appendInt b year 4
  end.

(** [Time.Format(layout)] *)
Definition Format (t : Time) (layout : Layout) : string :=
  let '(name, offset, abs) := locabs t in
  let '(year, month, day, _) := absDate abs in
  let '(hour, min, sec) := absClock abs in
  fold_left
    (fun b '(prefix, s) =>
       appendStd (b ++ prefix) s name offset abs year month day hour min sec)
    layout "".

(** *** Parsing *)

Inductive parse_msg : Type :=
  | MsgNone
  | MsgOutOfRange (what : string)     (* ": <what> out of range" *)
  | MsgExtraText (text : string)      (* ": extra text: <text>" *)
  | MsgDayOutOfRange.                 (* ": day out of range" *)

(** [*ParseError]; its [Layout] and [Value] fields are the arguments of
    [Parse] and are left out. *)
Record ParseError : Type := {
  LayoutElem : string;
  ValueElem : string;
  Message : parse_msg
}.

(** [match]: equality of two strings of the same length up to ASCII case. *)
Fixpoint match_fold (s1 s2 : string) : bool :=
  match s1, s2 with
  | String c1 r1, String c2 r2 =>
      (if Ascii.eqb c1 c2 then true
       else
         let c1' := Z.lor (byte_of c1) 32 in
         let c2' := Z.lor (byte_of c2) 32 in
         negb (negb (c1' =? c2') || (c1' <? 97) || (c1' >? 122)))
      && match_fold r1 r2
  | _, _ => true
  end.

(** [lookup(tab, val)]: index of the first entry of [tab] that [val] starts
    with, and the rest of [val]; [None] is [errBad]. *)
Fixpoint lookup_tab (i : Z) (tab : list string) (val : string) : option (Z * string) :=
  match tab with
  | [] => None
  | v :: tab' =>
      if (String.length v <=? String.length val)%nat
         && match_fold (take_str (String.length v) val) v
      then Some (i, drop_str (String.length v) val)
      else lookup_tab (i + 1) tab' val
  end.

Fixpoint cutspace (s : string) : string :=
  match s with
  | String c r => if is_space c then cutspace r else s
  | EmptyString => s
  end.

(** [skip(value, prefix)]: a space of the layout matches any run of spaces
    of the value, any other byte matches itself.  [inr] carries the rest of
    the value, [inl] the value where the match failed ([errBad]). *)
Fixpoint skip_fuel (fuel : nat) (value prefix : string) : string + string :=
  match prefix with
  | EmptyString => inr value
  | String p prefix' =>
      match fuel with
      | O => inl value
      | S fuel' =>
          if is_space p then
            match value with
            | String v _ =>
                if negb (is_space v) then inl value
                else skip_fuel fuel' (cutspace value) (cutspace prefix)
            | EmptyString => skip_fuel fuel' (cutspace value) (cutspace prefix)
            end
          else
            match value with
            | String v value' =>
                if Ascii.eqb v p then skip_fuel fuel' value' prefix' else inl value
            | EmptyString => inl value
            end
      end
  end.
Definition skip (value prefix : string) : string + string :=
  skip_fuel (String.length prefix) value prefix.

(** [getnum(s, fixed)]: one or two digits, exactly two when [fixed]. *)
Definition getnum (s : string) (fixed : bool) : option (Z * string) :=
  match s with
  | String c0 r0 =>
      if negb (is_digit c0) then None
      else
        match r0 with
        | String c1 r1 =>
            if is_digit c1 then Some (digit_val c0 * 10 + digit_val c1, r1)
            else if fixed then None else Some (digit_val c0, r0)
        | EmptyString => if fixed then None else Some (digit_val c0, r0)
        end
  | EmptyString => None
  end.

(** [leadingInt(s)]: the leading digits of [s] as a [uint64], and the rest;
    [None] is [errLeadingInt] (overflow). *)
Fixpoint leadingInt_from (x : Z) (s : string) : option (Z * string) :=
  match s with
  | String c r =>
      if negb (is_digit c) then Some (x, s)
      else if x >? 2 ^ 63 / 10 then None
      else
        let x := x * 10 + digit_val c in
        if x >? 2 ^ 63 then None else leadingInt_from x r
  | EmptyString => Some (x, s)
  end.
Definition leadingInt (s : string) : option (Z * string) := leadingInt_from 0 s.

(** [atoi(s)]: an optionally signed decimal with nothing after it. *)
Definition atoi (s : string) : option Z :=
  let '(neg, s) :=
    match s with
    | String c r =>
        if Ascii.eqb c "-" then (true, r)
        else if Ascii.eqb c "+" then (false, r) else (false, s)
    | EmptyString => (false, s)
    end in
  match leadingInt s with
  | Some (q, EmptyString) => Some (if neg then - q else q)
  | _ => None
  end.

(** [parseSignedOffset(value)]: length of a signed hour offset of at most
    23 at the head of [value], or 0. *)
Definition parseSignedOffset (value : string) : Z :=
  match value with
  | String sign value1 =>
      if negb (Ascii.eqb sign "-") && negb (Ascii.eqb sign "+") then 0
      else
        match leadingInt value1 with
        | None => 0
        | Some (x, rem) =>
            if String.eqb value1 rem then 0
            else if x >? 23 then 0
            else len value - len rem
        end
  | EmptyString => 0
  end.

(** [parseGMT(value)], for a [value] that starts with "GMT". *)
Definition parseGMT (value : string) : Z :=
  let value := drop_str 3 value in
  if len value =? 0 then 3 else 3 + parseSignedOffset value.

(** The number of upper-case letters at the head of [value], up to 6. *)
Fixpoint count_upper (fuel : nat) (value : string) : Z :=
  match fuel, value with
  | S fuel', String c r => if is_upper c then 1 + count_upper fuel' r else 0
  | _, _ => 0
  end.

Definition byte_at (s : string) (i : nat) : ascii :=
  match String.get i s with Some c => c | None => zero end.

(** [parseTimeZone(value)]: the length of the zone abbreviation at the head
    of [value]; [None] when there is none. *)
Definition parseTimeZone (value : string) : option Z :=
  if len value <? 3 then None
  else if (len value >=? 4)
          && (String.eqb (take_str 4 value) "ChST"
              || String.eqb (take_str 4 value) "MeST") then Some 4
  else if String.eqb (take_str 3 value) "GMT" then Some (parseGMT value)
  else if Ascii.eqb (byte_at value 0) "+" || Ascii.eqb (byte_at value 0) "-" then
    let length := parseSignedOffset value in
    if length >? 0 then Some length else None
  else
    let nUpper := count_upper 6 value in
    if nUpper =? 5 then
      if Ascii.eqb (byte_at value 4) "T" then Some 5 else None
    else if nUpper =? 4 then
      if Ascii.eqb (byte_at value 3) "T" || String.eqb (take_str 4 value) "WITA"
      then Some 4 else None
    else if nUpper =? 3 then Some 3
    else None.

Definition commaOrPeriod (c : ascii) : bool :=
  Ascii.eqb c "." || Ascii.eqb c ",".

(** The index of the first non-digit of [value] at or after [n]. *)
Fixpoint digits_end (fuel : nat) (value : string) (n : nat) : nat :=
  match fuel with
  | O => n
  | S fuel' =>
      match String.get n value with
      | Some c => if is_digit c then digits_end fuel' value (S n) else n
      | None => n
      end
  end.

(** [parseNanoseconds(value, nbytes)] for a [value] that starts with a
    comma or period followed by [nbytes - 1] digits. *)
Definition parseNanoseconds (value : string) (nbytes : Z) : option Z :=
  if negb (commaOrPeriod (byte_at value 0)) then None
  else
    let '(value, nbytes) :=
      if nbytes >? 10 then (take_str 10 value, 10) else (value, nbytes) in
    match atoi (take_str (Z.to_nat (nbytes - 1)) (drop_str 1 value)) with
    | None => None
    | Some ns => Some (ns * 10 ^ (10 - nbytes))
    end.

(** The variables [Parse] fills in while it walks the layout. *)
Record fields : Type := {
  f_year : Z; f_month : Z; f_day : Z;
  f_hour : Z; f_min : Z; f_sec : Z; f_nsec : Z;
  f_zoneName : string;
  f_z : option Location
}.

Definition fields_init : fields :=
  {| f_year := 0; f_month := -1; f_day := -1;
     f_hour := 0; f_min := 0; f_sec := 0; f_nsec := 0;
     f_zoneName := ""; f_z := None |}.

Definition set_year (y : Z) (f : fields) : fields :=
  {| f_year := y; f_month := f_month f; f_day := f_day f; f_hour := f_hour f;
     f_min := f_min f; f_sec := f_sec f; f_nsec := f_nsec f;
     f_zoneName := f_zoneName f; f_z := f_z f |}.
Definition set_month (m : Z) (f : fields) : fields :=
  {| f_year := f_year f; f_month := m; f_day := f_day f; f_hour := f_hour f;
     f_min := f_min f; f_sec := f_sec f; f_nsec := f_nsec f;
     f_zoneName := f_zoneName f; f_z := f_z f |}.
Definition set_day (d : Z) (f : fields) : fields :=
  {| f_year := f_year f; f_month := f_month f; f_day := d; f_hour := f_hour f;
     f_min := f_min f; f_sec := f_sec f; f_nsec := f_nsec f;
     f_zoneName := f_zoneName f; f_z := f_z f |}.
Definition set_hour (h : Z) (f : fields) : fields :=
  {| f_year := f_year f; f_month := f_month f; f_day := f_day f; f_hour := h;
     f_min := f_min f; f_sec := f_sec f; f_nsec := f_nsec f;
     f_zoneName := f_zoneName f; f_z := f_z f |}.
Definition set_min (m : Z) (f : fields) : fields :=
  {| f_year := f_year f; f_month := f_month f; f_day := f_day f; f_hour := f_hour f;
     f_min := m; f_sec := f_sec f; f_nsec := f_nsec f;
     f_zoneName := f_zoneName f; f_z := f_z f |}.
Definition set_sec (x : Z) (f : fields) : fields :=
  {| f_year := f_year f; f_month := f_month f; f_day := f_day f; f_hour := f_hour f;
     f_min := f_min f; f_sec := x; f_nsec := f_nsec f;
     f_zoneName := f_zoneName f; f_z := f_z f |}.
Definition set_nsec (x : Z) (f : fields) : fields :=
  {| f_year := f_year f; f_month := f_month f; f_day := f_day f; f_hour := f_hour f;
     f_min := f_min f; f_sec := f_sec f; f_nsec := x;
     f_zoneName := f_zoneName f; f_z := f_z f |}.
Definition set_zoneName (n : string) (f : fields) : fields :=
  {| f_year := f_year f; f_month := f_month f; f_day := f_day f; f_hour := f_hour f;
     f_min := f_min f; f_sec := f_sec f; f_nsec := f_nsec f;
     f_zoneName := n; f_z := f_z f |}.
Definition set_z (z : Location) (f : fields) : fields :=
  {| f_year := f_year f; f_month := f_month f; f_day := f_day f; f_hour := f_hour f;
     f_min := f_min f; f_sec := f_sec f; f_nsec := f_nsec f;
     f_zoneName := f_zoneName f; f_z := Some z |}.

(** The outcome of one layout element: the rest of the value and the
    updated variables, a range error (with the value after the number), or
    [errBad]. *)
Inductive step_res : Type :=
  | StepOk (value : string) (f : fields)
  | StepRange (what : string) (value : string)
  | StepBad.

(** A ranged two-digit field: [getnum], then the range check. *)
Definition parse_ranged (value : string) (fixed : bool) (bound : Z)
    (what : string) (set : Z -> fields -> fields) (f : fields) : step_res :=
  match getnum value fixed with
  | None => StepBad
  | Some (n, value) =>
      if (n <? 0) || (bound <=? n) then StepRange what value
      else StepOk value (set n f)
  end.

(** One case of the [switch std & stdMask] of [Parse].  No layout used here
    has a fractional-second element, so a fraction after the seconds is
    always read by the special case of [stdZeroSecond]. *)
Definition parse_std (s : std) (value : string) (f : fields) : step_res :=
  match s with
  | stdWeekDay =>
      match lookup_tab 0 shortDayNames value with
      | Some (_, value) => StepOk value f
      | None => StepBad
      end
  | stdMonth =>
      match lookup_tab 0 shortMonthNames value with
      | Some (m, value) => StepOk value (set_month (m + 1) f)
      | None => StepBad
      end
  | stdUnderDay =>
      let value :=
        match value with
        | String c r => if is_space c then r else value
        | EmptyString => value
        end in
      match getnum value false with
      | Some (d, value) => StepOk value (set_day d f)
      | None => StepBad
      end
  | stdHour => parse_ranged value false 24 "hour" set_hour f
  | stdZeroMinute => parse_ranged value true 60 "minute" set_min f
  | stdZeroSecond =>
      match parse_ranged value true 60 "second" set_sec f with
      | StepOk value f =>
          if (len value >=? 2) && commaOrPeriod (byte_at value 0)
             && is_digit (byte_at value 1)
          then
            let n := digits_end (String.length value) value 2 in
            match parseNanoseconds value (Z.of_nat n) with
            | Some ns => StepOk (drop_str n value) (set_nsec ns f)
            | None => StepBad
            end
          else StepOk value f
      | r => r
      end
  | stdTZ =>
      if (len value >=? 3) && String.eqb (take_str 3 value) "UTC"
      then StepOk (drop_str 3 value) (set_z UTC f)
      else
        match parseTimeZone value with
        | None => StepBad
        | Some n =>
            StepOk (drop_str (Z.to_nat n) value)
                   (set_zoneName (take_str (Z.to_nat n) value) f)
        end
  | stdLongYear =>
      if (len value <? 4) || negb (is_digit (byte_at value 0)) then StepBad
      else
        match atoi (take_str 4 value) with
        | Some y => StepOk (drop_str 4 value) (set_year y f)
        | None => StepBad
        end
  end.

(** The loop of [Parse] over the layout. *)
Fixpoint parse_chunks (layout : Layout) (value : string) (f : fields)
  : ParseError + fields :=
  match layout with
  | [] =>
      if negb (len value =? 0)
      then inl {| LayoutElem := ""; ValueElem := value;
                  Message := MsgExtraText value |}
      else inr f
  | (prefix, s) :: layout' =>
      match skip value prefix with
      | inl value =>
          inl {| LayoutElem := prefix; ValueElem := value; Message := MsgNone |}
      | inr value =>
          match parse_std s value f with
          | StepOk value' f' => parse_chunks layout' value' f'
          | StepRange what value' =>
              inl {| LayoutElem := std_text s; ValueElem := value';
                     Message := MsgOutOfRange what |}
          | StepBad =>
              inl {| LayoutElem := std_text s; ValueElem := value;
                     Message := MsgNone |}
          end
      end
  end.

(** [norm(hi, lo, base)] *)
Definition norm (hi lo base : Z) : Z * Z :=
  let '(hi, lo) :=
    if lo <? 0 then
      let n := Z.quot (- lo - 1) base + 1 in (hi - n, lo + n * base)
    else (hi, lo) in
  if lo >=? base then
    let n := Z.quot lo base in (hi + n, lo - n * base)
  else (hi, lo).

(** [daysSinceEpoch(year)] *)
Definition daysSinceEpoch (year : Z) : Z :=
  let y := wrapU64 (year - absoluteZeroYear) in
  let n := y / 400 in
  let y := y - 400 * n in
  let d := daysPer400Years * n in
  let n := y / 100 in
  let y := y - 100 * n in
  let d := d + daysPer100Years * n in
  let n := y / 4 in
  let y := y - 4 * n in
  let d := d + daysPer4Years * n in
  let n := y in
  d + 365 * n.

(** [Date(year, month, day, hour, min, sec, nsec, UTC)]; [Parse] calls
    [Date] with no other location. *)
Definition Date_UTC (year month day hour min sec nsec : Z) : Time :=
  let m := month - 1 in
  let '(year, m) := norm year m 12 in
  let month := m + 1 in
  let '(sec, nsec) := norm sec nsec 1000000000 in
  let '(min, sec) := norm min sec 60 in
  let '(hour, min) := norm hour min 60 in
  let '(day, hour) := norm day hour 24 in
  let d := daysSinceEpoch year in
  let d := d + daysBefore_at (month - 1) in
  let d := if isLeap year && (month >=? March) then d + 1 else d in
  let d := wrapU64 (d + (day - 1)) in
  let abs := wrapU64 (d * secondsPerDay) in
  let abs :=
    wrapU64 (abs + (hour * secondsPerHour + min * secondsPerMinute + sec)) in
  let unix := wrap64 (abs + (absoluteToInternal + internalToUnix)) in
  {| unixSec := unix; nsec := nsec; mono := None; loc := UTC |}.

(** [Parse(layout, value)].  [local] is the package variable [Local], which
    [Parse] consults for the offset of a zone abbreviation. *)
Definition Parse (local : Location) (layout : Layout) (value : string)
  : ParseError + Time :=
  match parse_chunks layout value fields_init with
  | inl e => inl e
  | inr f =>
      let month := if f_month f <? 0 then January else f_month f in
      let day := if f_day f <? 0 then 1 else f_day f in
      if (day <? 1) || (day >? daysIn month (f_year f))
      then inl {| LayoutElem := ""; ValueElem := "";
                  Message := MsgDayOutOfRange |}
      else
        let t := Date_UTC (f_year f) month day
                          (f_hour f) (f_min f) (f_sec f) (f_nsec f) in
        match f_z f with
        | Some z =>
            inr {| unixSec := unixSec t; nsec := nsec t; mono := None; loc := z |}
        | None =>
            let zoneName := f_zoneName f in
            if negb (String.eqb zoneName "") then
              match lookupName local zoneName (unixSec t) with
              | Some offset =>
                  inr {| unixSec := unixSec t - offset; nsec := nsec t;
                         mono := None; loc := local |}
              | None =>
                  let offset :=
                    if (len zoneName >? 3)
                       && String.eqb (take_str 3 zoneName) "GMT"
                    then
                      match atoi (drop_str 3 zoneName) with
                      | Some o => o * 3600
                      | None => 0
                      end
                    else 0 in
                  inr {| unixSec := unixSec t; nsec := nsec t; mono := None;
                         loc := FixedZone zoneName offset |}
              end
            else inr t
        end
  end.

(** *** Arithmetic on instants *)

(** [Time.Add]: the seconds are kept as unbounded integers (Go's 64-bit
    seconds field covers every year a layout can express). *)
Definition Add (t : Time) (d : Duration) : Time :=
  let dsec := Z.quot d 1000000000 in
  let ns := nsec t + Z.rem d 1000000000 in
  let '(dsec, ns) :=
    if ns >=? 1000000000 then (dsec + 1, ns - 1000000000)
    else if ns <? 0 then (dsec - 1, ns + 1000000000)
    else (dsec, ns) in
  {| unixSec := unixSec t + dsec; nsec := ns;
     mono :=
       match mono t with
       | Some m =>
           let te := wrap64 (m + d) in
           if ((d <? 0) && (te >? m)) || ((d >? 0) && (te <? m)) then None
           else Some te
       | None => None
       end;
     loc := loc t |}.

Definition Equal (t u : Time) : bool :=
  match mono t, mono u with
  | Some mt, Some mu => mt =? mu
  | _, _ => (unixSec t =? unixSec u) && (nsec t =? nsec u)
  end.

Definition Before (t u : Time) : bool :=
  match mono t, mono u with
  | Some mt, Some mu => mt <? mu
  | _, _ =>
      (unixSec t <? unixSec u)
      || ((unixSec t =? unixSec u) && (nsec t <? nsec u))
  end.

Definition subMono (t u : Z) : Duration :=
  let d := wrap64 (t - u) in
  if (d <? 0) && (t >? u) then maxDuration
  else if (d >? 0) && (t <? u) then minDuration
  else d.

(** [Time.Sub]: the difference, saturated at the ends of [Duration]. *)
Definition Sub (t u : Time) : Duration :=
  match mono t, mono u with
  | Some mt, Some mu => subMono mt mu
  | _, _ =>
      let d := wrap64 ((unixSec t - unixSec u) * Second + (nsec t - nsec u)) in
      if Equal (Add u d) t then d
      else if Before t u then minDuration
      else maxDuration
  end.

(** *** [Duration] methods *)

(** [Duration.Seconds] *)
Definition Seconds (d : Duration) : float64.t :=
  let sec := Z.quot d Second in
  let ns := Z.rem d Second in
  float64.add (float64.of_int sec)
              (float64.div (float64.of_int ns) (float64.of_int 1000000000)).

(** [fmtFrac(buf, v, prec)]: the fraction of [v / 10^prec] without its
    trailing zeros (and without the point when it is zero), and
    [v / 10^prec]. *)
Fixpoint fmtFrac_loop (prec : nat) (v : Z) (print : bool) (acc : string)
  : string * bool * Z :=
  match prec with
  | O => (acc, print, v)
  | S prec' =>
      let digit := v mod 10 in
      let print := print || negb (digit =? 0) in
      let acc := if print then String (digit_char digit) acc else acc in
      fmtFrac_loop prec' (v / 10) print acc
  end.
Definition fmtFrac (v : Z) (prec : nat) : string * Z :=
  let '(acc, print, v) := fmtFrac_loop prec v false "" in
  (if print then "." ++ acc else acc, v).

(** [fmtInt(buf, v)] *)
Definition fmtInt (v : Z) : string := utoa v.

(** The two bytes of the micro sign in UTF-8. *)
Definition micro : string := String (char_of 194) (String (char_of 181) "").

(** [Duration.String] *)
Definition Duration_String (d : Duration) : string :=
  let neg := d <? 0 in
  let u := if neg then wrapU64 (- d) else d in
  if u =? 0 then "0s"
  else
    let body :=
      if u <? Second then
        if u <? Microsecond then fmtInt u ++ "ns"
        else if u <? Millisecond then
          let '(frac, v) := fmtFrac u 3 in fmtInt v ++ frac ++ micro ++ "s"
        else
          let '(frac, v) := fmtFrac u 6 in fmtInt v ++ frac ++ "ms"
      else
        let '(frac, v) := fmtFrac u 9 in
        let s := fmtInt (v mod 60) ++ frac ++ "s" in
        let v := v / 60 in
        if v >? 0 then
          let s := fmtInt (v mod 60) ++ "m" ++ s in
          let v := v / 60 in
          if v >? 0 then fmtInt v ++ "h" ++ s else s
        else s in
    if neg then "-" ++ body else body.

End time.

(** ** Errors and [fmt] *)

(** The error numbers a file operation can report. *)
Inductive errno : Type :=
  | ENOENT | EACCES | ENOTDIR | EISDIR | ENOSPC | EROFS | EIO.

(** An argument of a formatting call, and the error values of the program:
    [fmt.Errorf] keeps its format and arguments, a failed file operation is
    an [*os.PathError], a failed [time.Parse] a [*time.ParseError]; the
    errors of [user.Current] and of [net/http] are opaque texts. *)
Inductive arg : Type :=
  | AString (s : string)
  | AInt (n : Z)
  | AFloat (x : float64.t)
  | ADuration (d : time.Duration)
  | AError (e : error)
with error : Type :=
  | Errorf (format : string) (args : list arg)
  | PathError (op path : string) (e : errno)
  | ParseErr (e : time.ParseError)
  | OtherError (msg : string).

Definition nl : string := String (char_of 10) "".

Module fmt.

(** A format string cut into literal bytes and verbs
    [%[-][width][.precision]verb]. *)
Inductive piece : Type :=
  | Lit (c : ascii)
  | Verb (minus : bool) (width prec : option Z) (v : ascii).

Inductive scan_state : Type :=
  | Text
  | Spec (minus : bool) (width : option Z) (in_prec : bool) (prec : option Z).

Definition push_digit (o : option Z) (c : ascii) : option Z :=
  Some (match o with Some n => n * 10 | None => 0 end + digit_val c).

Fixpoint scan (st : scan_state) (format : string) : list piece :=
  match format with
  | EmptyString => []
  | String c r =>
      match st with
      | Text =>
          if Ascii.eqb c "%" then scan (Spec false None false None) r
          else Lit c :: scan Text r
      | Spec minus width in_prec prec =>
          if Ascii.eqb c "-" then scan (Spec true width in_prec prec) r
          else if Ascii.eqb c "." then scan (Spec minus width true (Some 0)) r
          else if is_digit c then
            if in_prec then scan (Spec minus width true (push_digit prec c)) r
            else scan (Spec minus (push_digit width c) false prec) r
          else if Ascii.eqb c "%" then Lit c :: scan Text r
          else Verb minus width prec c :: scan Text r
      end
  end.

(** Truncation to the precision, then padding to the width (strings are
    taken byte by byte). *)
Definition pad (minus : bool) (width prec : option Z) (s : string) : string :=
  let s := match prec with Some p => take_str (Z.to_nat p) s | None => s end in
  match width with
  | None => s
  | Some w =>
      let fill := repeat_char " " (Z.to_nat (w - len s)) in
      if minus then s ++ fill else fill ++ s
  end.

(** [%d] *)
Definition itoa (n : Z) : string :=
  if n <? 0 then "-" ++ utoa (- n) else utoa n.

(** One verb applied to one argument, for the verbs and operand types the
    program prints: [%s] of a string or of a [Duration] (its [String]
    method), [%d] of an integer, [%f] of a [float64]. *)
Definition render (minus : bool) (width prec : option Z) (v : ascii) (a : arg)
  : string :=
  if Ascii.eqb v "s" then
    match a with
    | AString s => pad minus width prec s
    | ADuration d => pad minus width prec (time.Duration_String d)
    | _ => "%!s(BADARG)"
    end
  else if Ascii.eqb v "d" then
    match a with
    | AInt n => pad minus width None (itoa n)
    | _ => "%!d(BADARG)"
    end
  else if Ascii.eqb v "f" then
    match a with
    | AFloat x =>
        pad minus width None
            (float64.format_f (match prec with Some p => p | None => 6 end) x)
    | _ => "%!f(BADARG)"
    end
  else "%!(NOVERB)".

Fixpoint format_pieces (ps : list piece) (args : list arg) : string :=
  match ps with
  | [] => ""
  | Lit c :: ps' => String c (format_pieces ps' args)
  | Verb minus width prec v :: ps' =>
      match args with
      | a :: args' => render minus width prec v a ++ format_pieces ps' args'
      | [] => "%!(MISSING)" ++ format_pieces ps' []
      end
  end.

(** [fmt.Sprintf] *)
Definition Sprintf (format : string) (args : list arg) : string :=
  format_pieces (scan Text format) args.

End fmt.

(** ** The outside world *)

Inductive node : Type :=
  | Dir (mode : Z)
  | File (mode : Z) (data : string).

(** How a write can go wrong: the file cannot be opened, or it is opened
    (created or truncated) and the write stops after [written] bytes. *)
Inductive write_fault : Type :=
  | OpenFails (e : errno)
  | WriteFails (e : errno) (written : nat).

(** What draining a response body gives: the bytes copied and the read
    error, if any. *)
Record Response : Type := {
  body_copied : Z;
  body_err : option error
}.

(** One reading of the system clock: wall seconds and nanoseconds since the
    Unix epoch and the monotonic clock. *)
Record reading : Type := {
  wall_sec : Z;
  wall_nsec : Z;
  monotonic : Z
}.

Inductive event : Type :=
  | EvStat (path : string)
  | EvReadFile (path : string)
  | EvWriteFile (path data : string) (perm : Z)
  | EvGet (uri : string).

Record World : Type := {
  (** the environment variable HOME ("" when unset) *)
  env_HOME : string;
  (** [user.Current()]: its error, or the [HomeDir] of the user *)
  current_user : error + string;
  (** the file system: the nodes by path, the failures the system imposes
      on [stat], [read] and [write] of a path, and the process umask *)
  files : gmap string node;
  stat_fault : string -> option errno;
  read_fault : string -> option errno;
  write_faults : string -> option write_fault;
  umask : Z;
  (** the clock: the reading of the [n]-th call of [time.Now], and the
      number of calls made so far *)
  clock : nat -> reading;
  ticks : nat;
  (** the time zone database entry of the local zone *)
  Local : time.Location;
  (** the network: the outcome of a GET of a URI *)
  net : string -> error + Response;
  (** what has been done so far, oldest first *)
  trace : list event;
  stdout : string;
  stderr : list (string * list arg)
}.

Definition set_files (fs : gmap string node) (w : World) : World :=
  {| env_HOME := env_HOME w; current_user := current_user w; files := fs;
     stat_fault := stat_fault w; read_fault := read_fault w;
     write_faults := write_faults w; umask := umask w; clock := clock w;
     ticks := ticks w; Local := Local w; net := net w; trace := trace w;
     stdout := stdout w; stderr := stderr w |}.
Definition set_ticks (n : nat) (w : World) : World :=
  {| env_HOME := env_HOME w; current_user := current_user w; files := files w;
     stat_fault := stat_fault w; read_fault := read_fault w;
     write_faults := write_faults w; umask := umask w; clock := clock w;
     ticks := n; Local := Local w; net := net w; trace := trace w;
     stdout := stdout w; stderr := stderr w |}.
Definition log_event (e : event) (w : World) : World :=
  {| env_HOME := env_HOME w; current_user := current_user w; files := files w;
     stat_fault := stat_fault w; read_fault := read_fault w;
     write_faults := write_faults w; umask := umask w; clock := clock w;
     ticks := ticks w; Local := Local w; net := net w;
     trace := trace w ++ [e];
     stdout := stdout w; stderr := stderr w |}.
Definition put_stdout (s : string) (w : World) : World :=
  {| env_HOME := env_HOME w; current_user := current_user w; files := files w;
     stat_fault := stat_fault w; read_fault := read_fault w;
     write_faults := write_faults w; umask := umask w; clock := clock w;
     ticks := ticks w; Local := Local w; net := net w; trace := trace w;
     stdout := stdout w ++ s; stderr := stderr w |}.
Definition put_stderr (format : string) (args : list arg) (w : World) : World :=
  {| env_HOME := env_HOME w; current_user := current_user w; files := files w;
     stat_fault := stat_fault w; read_fault := read_fault w;
     write_faults := write_faults w; umask := umask w; clock := clock w;
     ticks := ticks w; Local := Local w; net := net w; trace := trace w;
     stdout := stdout w; stderr := stderr w ++ [(format, args)] |}.

(** ** The monad of the program

    A computation runs in a world and ends with a value, with a Go error
    (the [err != nil] return), or by terminating the process. *)
Inductive result (A : Type) : Type :=
  | Ok (a : A)
  | Err (e : error)
  | Exit (code : Z).
Arguments Ok {A} a.
Arguments Err {A} e.
Arguments Exit {A} code.

Definition M (A : Type) : Type := World -> result A * World.

Definition ret {A} (a : A) : M A := fun w => (Ok a, w).
Definition fail {A} (e : error) : M A := fun w => (Err e, w).
Definition bind {A B} (c : M A) (k : A -> M B) : M B :=
  fun w =>
    match c w with
    | (Ok a, w') => k a w'
    | (Err e, w') => (Err e, w')
    | (Exit n, w') => (Exit n, w')
    end.

(** [v, err := c]: the error is handed to the caller as a value. *)
Definition try {A} (c : M A) : M (error + A) :=
  fun w =>
    match c w with
    | (Ok a, w') => (Ok (inr a), w')
    | (Err e, w') => (Ok (inl e), w')
    | (Exit n, w') => (Exit n, w')
    end.

Notation "x <- c ;; k" := (bind c (fun x => k))
  (at level 100, c at next level, right associativity).
Notation "c ;;; k" := (bind c (fun _ => k))
  (at level 100, right associativity).

(** ** Packages [os], [os/user], [io/ioutil], [path/filepath], [net/http] *)

Module os.

(** [FileMode] bits. *)
Definition ModeDir : Z := Z.shiftl 1 31.
Definition ModeSymlink : Z := Z.shiftl 1 27.
Definition ModeDevice : Z := Z.shiftl 1 26.
Definition ModeNamedPipe : Z := Z.shiftl 1 25.
Definition ModeSocket : Z := Z.shiftl 1 24.
Definition ModeCharDevice : Z := Z.shiftl 1 21.
Definition ModeIrregular : Z := Z.shiftl 1 19.

(** The mask of the type bits. *)
Definition ModeType : Z :=
  Z.lor ModeDir (Z.lor ModeSymlink (Z.lor ModeNamedPipe (Z.lor ModeSocket
    (Z.lor ModeDevice (Z.lor ModeCharDevice ModeIrregular))))).
Definition ModePerm : Z := 511.  (* 0777 *)

(** [FileMode.IsDir] *)
Definition IsDir (m : Z) : bool := negb (Z.land m ModeDir =? 0).

(** The [Mode()] of the [FileInfo] of a node. *)
Definition node_mode (n : node) : Z :=
  match n with
  | Dir mode => Z.lor ModeDir (Z.land mode ModePerm)
  | File mode _ => Z.land mode ModePerm
  end.

(** [os.Getenv("HOME")] *)
Definition Getenv_HOME : M string := fun w => (Ok (env_HOME w), w).

(** [os.Stat(name)]: the mode of the file, or a [*PathError]. *)
Definition Stat (name : string) : M Z :=
  fun w =>
    let w' := log_event (EvStat name) w in
    match stat_fault w name with
    | Some e => (Err (PathError "stat" name e), w')
    | None =>
        match files w !! name with
        | Some n => (Ok (node_mode n), w')
        | None => (Err (PathError "stat" name ENOENT), w')
        end
    end.

(** [os.IsNotExist(err)]; [None] is the [nil] error. *)
Definition IsNotExist (err : option error) : bool :=
  match err with
  | Some (PathError _ _ ENOENT) => true
  | _ => false
  end.

(** [os.Exit(code)] *)
Definition Exit {A} (code : Z) : M A := fun w => (Exit code, w).

End os.

Module user.

(** [user.Current()], of which the program reads [HomeDir] only. *)
Definition Current : M string :=
  fun w =>
    match current_user w with
    | inl e => (Err e, w)
    | inr home => (Ok home, w)
    end.

End user.

Module filepath.

Definition split_step (c : ascii) (acc : list string) : list string :=
  if Ascii.eqb c "/" then "" :: acc
  else
    match acc with
    | cur :: rest => String c cur :: rest
    | [] => [String c ""]
    end.

(** The elements of a path between its separators. *)
Fixpoint split (s : string) : list string :=
  match s with
  | EmptyString => [""]
  | String c r => split_step c (split r)
  end.

(** The elements of a cleaned path, last one first: empty and [.]
    elements go, [..] removes the element before it, or stays at the head
    of a path that is not rooted. *)
Fixpoint clean_elems (rooted : bool) (elems : list string) (out : list string)
  : list string :=
  match elems with
  | [] => out
  | e :: elems' =>
      if String.eqb e "" || String.eqb e "." then clean_elems rooted elems' out
      else if String.eqb e ".." then
        match out with
        | o :: out' =>
            if String.eqb o ".." then clean_elems rooted elems' (e :: out)
            else clean_elems rooted elems' out'
        | [] =>
            if rooted then clean_elems rooted elems' out
            else clean_elems rooted elems' [e]
        end
      else clean_elems rooted elems' (e :: out)
  end.

Fixpoint join_elems (elems : list string) : string :=
  match elems with
  | [] => ""
  | [e] => e
  | e :: elems' => e ++ "/" ++ join_elems elems'
  end.

(** [filepath.Clean(path)] on a system whose separator is [/]. *)
Definition Clean (path : string) : string :=
  if String.eqb path "" then "."
  else
    let rooted :=
      match path with String c _ => Ascii.eqb c "/" | EmptyString => false end in
    let body := join_elems (rev (clean_elems rooted (split path) [])) in
    if rooted then "/" ++ body
    else if String.eqb body "" then "." else body.

(** [filepath.Join(a, b)]: empty elements are ignored, the rest is joined
    by the separator and cleaned. *)
Definition Join (a b : string) : string :=
  if String.eqb a "" then (if String.eqb b "" then "" else Clean b)
  else if String.eqb b "" then Clean a
  else Clean (a ++ "/" ++ b).

End filepath.

Module ioutil.

(** [ioutil.ReadFile(filename)] *)
Definition ReadFile (filename : string) : M string :=
  fun w =>
    let w' := log_event (EvReadFile filename) w in
    match read_fault w filename with
    | Some e => (Err (PathError "open" filename e), w')
    | None =>
        match files w !! filename with
        | None => (Err (PathError "open" filename ENOENT), w')
        | Some (Dir _) => (Err (PathError "read" filename EISDIR), w')
        | Some (File _ data) => (Ok data, w')
        end
    end.

(** What [OpenFile(name, O_WRONLY|O_CREATE|O_TRUNC, perm)] followed by a
    write of [data] leaves at [name]: an existing file keeps its mode, a new
    one gets [perm] less the bits of the umask. *)
Definition written_node (w : World) (filename data : string) (perm : Z) : node :=
  match files w !! filename with
  | Some (File mode _) => File mode data
  | _ => File (Z.land perm (Z.lnot (umask w))) data
  end.

(** [ioutil.WriteFile(filename, data, perm)] *)
Definition WriteFile (filename data : string) (perm : Z) : M unit :=
  fun w =>
    let w' := log_event (EvWriteFile filename data perm) w in
    match write_faults w filename with
    | Some (OpenFails e) => (Err (PathError "open" filename e), w')
    | Some (WriteFails e n) =>
        match files w !! filename with
        | Some (Dir _) => (Err (PathError "open" filename EISDIR), w')
        | _ =>
            (Err (PathError "write" filename e),
             set_files
               (<[filename := written_node w filename (take_str n data) perm]>
                  (files w)) w')
        end
    | None =>
        match files w !! filename with
        | Some (Dir _) => (Err (PathError "open" filename EISDIR), w')
        | _ =>
            (Ok tt,
             set_files
               (<[filename := written_node w filename data perm]> (files w)) w')
        end
    end.

End ioutil.

Module http.

(** [http.Get(uri)] *)
Definition Get (uri : string) : M Response :=
  fun w =>
    let w' := log_event (EvGet uri) w in
    match net w uri with
    | inl e => (Err e, w')
    | inr res => (Ok res, w')
    end.

(** [io.Copy(ioutil.Discard, res.Body)] *)
Definition Copy_Discard (res : Response) : M Z :=
  fun w =>
    match body_err res with
    | Some e => (Err e, w)
    | None => (Ok (body_copied res), w)
    end.

End http.

(** The instant the next call of [time.Now] returns in a world: the next
    reading of the clock, in the local zone. *)
Definition now_of (w : World) : time.Time :=
  let r := clock w (ticks w) in
  {| time.unixSec := wall_sec r; time.nsec := wall_nsec r;
     time.mono := Some (monotonic r); time.loc := Local w |}.

(** [time.Now()] *)
Definition time_Now : M time.Time :=
  fun w => (Ok (now_of w), set_ticks (S (ticks w)) w).

(** [time.Since(t)] is [time.Now().Sub(t)]. *)
Definition time_Since (t : time.Time) : M time.Duration :=
  now <- time_Now ;;
  ret (time.Sub now t).

(** [time.Parse(layout, value)], which reads the package variable [Local]. *)
Definition time_Parse (layout : time.Layout) (value : string) : M time.Time :=
  fun w =>
    match time.Parse (Local w) layout value with
    | inl e => (Err (ParseErr e), w)
    | inr t => (Ok t, w)
    end.

(** [fmt.Print] and [fmt.Printf] to the standard output. *)
Definition fmt_Print (s : string) : M unit := fun w => (Ok tt, put_stdout s w).
Definition fmt_Printf (format : string) (args : list arg) : M unit :=
  fmt_Print (fmt.Sprintf format args).

(** [log.Fatalf]: the message goes to the standard error and the process
    exits with status 1. *)
Definition log_Fatalf {A} (format : string) (args : list arg) : M A :=
  fun w => (Exit 1, put_stderr format args w).

(** ** [flags.go] *)

Definition defaultDataSize : Z := 10240.
Definition tmnDomain : string := "testmy.net".

Definition multiLevelInt : Type := Z.

Record cmdLineOpts : Type := {
  csv : bool;
  datasize : Z;
  dryrun : bool;
  force : bool;
  location : string;
  server : string;
  verbose : multiLevelInt
}.

Definition set_server (s : string) (x : cmdLineOpts) : cmdLineOpts :=
  {| csv := csv x; datasize := datasize x; dryrun := dryrun x;
     force := force x; location := location x; server := s;
     verbose := verbose x |}.

(** TMN server locations. *)
Definition serverLocation : gmap string string :=
  list_to_map
    [("au2", "Australia >> Sydney, AU");
     ("ca", "Bay Area US >> California, CA, USA");
     ("co", "Central US >> Colorado Springs, CO, USA");
     ("de", "Europe >> Frankfurt, DE");
     ("fl", "East Coast US >> Miami, FL");
     ("in", "Asia >> Bangalore, IN");
     ("jp", "Asia >> Tokyo, JP");
     ("lax", "West Coast US >> Los Angeles, CA, USA");
     ("ny", "East Coast US >> New York, NY, USA");
     ("sf", "West Coast US >> San Francisco, CA, USA");
     ("sg", "Asia >> Singapore, SG");
     ("tx", "Central US >> Dallas, TX, USA");
     ("uk", "Europe >> London, GB")].

(** The methods of the flag type [multiLevelInt]. *)
Definition multiLevelInt_String (m : multiLevelInt) : string := fmt.itoa m.
Definition multiLevelInt_Set (m : multiLevelInt) (_ : string)
  : multiLevelInt * option error := (wrap64 (m + 1), None).
Definition multiLevelInt_IsBoolFlag (m : multiLevelInt) : bool := true.


(** [sort.Strings]: insertion into a list kept in byte order. *)
Fixpoint insert_sorted (k : string) (l : list string) : list string :=
  match l with
  | [] => [k]
  | x :: l' => if String.leb k x then k :: l else x :: insert_sorted k l'
  end.
Definition sort_Strings (l : list string) : list string :=
  fold_right insert_sorted [] l.

(** [locationList] returns a formatted list with the location codes and
    location description.  The keys are those of the global table, the
    descriptions those of the argument. *)
Definition locationList (sloc : gmap string string) : string :=
  let keys := sort_Strings (map fst (map_to_list serverLocation)) in
  fold_left
    (fun s k =>
       s ++ fmt.Sprintf ("%-4.4s %s" ++ nl)
              [AString k; AString (default "" (sloc !! k))])
    keys ("Available Locations:" ++ nl).

(** [parseFlags], from the point where [flag.Parse] has stored the values
    of the command line in [x]; it returns the options with the server
    filled in. *)
Definition parseFlags (x : cmdLineOpts) : M cmdLineOpts :=
  (if String.eqb (location x) "help" then
     fmt_Print (locationList serverLocation) ;;; os.Exit 2
   else ret tt) ;;;
  match serverLocation !! location x with
  | None =>
      fail (Errorf ("unable to find location %q. Use " ++ dquote
                    ++ "--location help" ++ dquote ++ " to see all locations")
                   [AString (location x)])
  | Some _ =>
      if String.eqb (server x) "" then
        ret (set_server
               (fmt.Sprintf "http://%s.%s" [AString (location x); AString tmnDomain])
               x)
      else ret x
  end.

(** ** The main file *)

Definition stateFile : string := ".testmynet-cli.state".
Definition minDurationMinutes : Z := 15.

(** [download] retrieves test data from test servers and returns the number
    of bytes effectively read and the time it took to read those bytes. *)
Definition download (server : string) (datasize : Z) (dryrun : bool)
  : M (Z * time.Duration) :=
  let uri := fmt.Sprintf "%s/dl-%d" [AString server; AInt datasize] in
  res <- http.Get uri ;;
  let written := 1000000 in
  let duration := 8 * time.Second in
  if negb dryrun then
    tstart <- time_Now ;;
    written <- http.Copy_Discard res ;;
    duration <- time_Since tstart ;;
    ret (written, duration)
  else ret (written, duration).

(** [homeDir] returns the user's home directory or an error if the variable
    HOME is not set, or os.user fails, or the directory cannot be found. *)
Definition homeDir : M string :=
  home <- os.Getenv_HOME ;;
  home <- (if String.eqb home "" then
             r <- try user.Current ;;
             match r with
             | inl err =>
                 fail (Errorf "unable to get information for current user: %q"
                              [AError err])
             | inr usr_HomeDir => ret usr_HomeDir
             end
           else ret home) ;;
  r <- try (os.Stat home) ;;
  let err := match r with inl e => Some e | inr _ => None end in
  if os.IsNotExist err || negb (os.IsDir os.ModeType) then
    fail (Errorf "home directory %q must exist and be a directory"
                 [AString home])
  else
    match err with
    | Some e => fail e
    | None => ret home
    end.

(** [overloadProtection] returns an error if it's been called less than
    "minDuration" ago. If not, it creates a file under the user directory
    and writes the current timestamp there for future use. *)
Definition overloadProtection (stateFile : string) (minDuration : time.Duration)
  : M unit :=
  home <- homeDir ;;
  let fname := filepath.Join home stateFile in
  r <- try (ioutil.ReadFile fname) ;;
  (match r with
   | inr buf =>
       tim <- time_Parse time.UnixDate buf ;;
       since <- time_Since tim ;;
       if since <? minDuration then
         fail (Errorf "program ran less than %s ago (%s)"
                      [ADuration minDuration; ADuration since])
       else ret tt
   | inl err =>
       if negb (os.IsNotExist (Some err)) then fail err else ret tt
   end) ;;;
  tim <- time_Now ;;
  let tformat := time.Format tim time.UnixDate in
  ioutil.WriteFile fname tformat 420 (* 0644 *).

(** The bandwidth in Mbps. *)
Definition bandwidth (bytes : Z) (duration : time.Duration) : float64.t :=
  float64.div
    (float64.div (float64.mul (float64.of_int bytes) (float64.of_int 8))
                 (time.Seconds duration))
    (float64.of_int 1000000).

(** [main], given the flag values of the command line. *)
Definition main (cmdline : cmdLineOpts) : M unit :=
  r <- try (parseFlags cmdline) ;;
  opt <- match r with
         | inl err => log_Fatalf ("Error: %s" ++ nl) [AError err]
         | inr opt => ret opt
         end ;;
  r <- try (download (server opt) (datasize opt) (dryrun opt)) ;;
  bd <- match r with
        | inl err =>
            log_Fatalf ("Error downloading data from %s: %v" ++ nl)
                       [AString (server opt); AError err]
        | inr bd => ret bd
        end ;;
  let bytes := fst bd in
  let duration := snd bd in
  (if negb (force opt) then
     r <- try (overloadProtection stateFile (minDurationMinutes * time.Minute)) ;;
     match r with
     | inl err => log_Fatalf ("Error: %s" ++ nl) [AError err]
     | inr _ => ret tt
     end
   else ret tt) ;;;
  let bw := bandwidth bytes duration in
  if csv opt then
    fmt_Printf ("%s,%d,%.2f,%.3f" ++ nl)
               [AString (server opt); AInt bytes;
                AFloat (time.Seconds duration); AFloat bw]
  else
    fmt_Printf ("Downloaded %d bytes from %s in %s. Bandwidth = %.3fMbps" ++ nl)
               [AInt bytes; AString (server opt); ADuration duration; AFloat bw].

(** ** Observations on a run *)

(** The events a run from [w] to [w'] has added to the trace. *)
Definition new_events (w w' : World) : list event :=
  drop (length (trace w)) (trace w').

Definition is_write (e : event) : bool :=
  match e with EvWriteFile _ _ _ => true | _ => false end.
Definition is_file_access (e : event) : bool :=
  match e with EvGet _ => false | _ => true end.

(** The run has called [ioutil.WriteFile]. *)
Definition wrote (w w' : World) : bool := existsb is_write (new_events w w').
(** The run has called [os.Stat], [ioutil.ReadFile] or [ioutil.WriteFile]. *)
Definition touched_files (w w' : World) : bool :=
  existsb is_file_access (new_events w w').

(** The message of the rate limiter for a run that comes too soon. *)
Definition too_soon (minDuration since : time.Duration) : error :=
  Errorf "program ran less than %s ago (%s)"
         [ADuration minDuration; ADuration since].

(** The four checks of [overloadProtection] that come before the write,
    and the error each one returns: the home directory does not resolve;
    the state file is there but cannot be read; its contents do not parse;
    the recorded run is less than the minimum interval old. *)
Inductive failed_check (stateFile : string) (minDuration : time.Duration)
    (w : World) : error -> Prop :=
  | failed_home (e : error) (w1 : World) :
      homeDir w = (Err e, w1) ->
      failed_check stateFile minDuration w e
  | failed_read (home : string) (w1 : World) (e : error) (w2 : World) :
      homeDir w = (Ok home, w1) ->
      ioutil.ReadFile (filepath.Join home stateFile) w1 = (Err e, w2) ->
      os.IsNotExist (Some e) = false ->
      failed_check stateFile minDuration w e
  | failed_parse (home : string) (w1 : World) (buf : string) (w2 : World)
      (pe : time.ParseError) :
      homeDir w = (Ok home, w1) ->
      ioutil.ReadFile (filepath.Join home stateFile) w1 = (Ok buf, w2) ->
      time.Parse (Local w) time.UnixDate buf = inl pe ->
      failed_check stateFile minDuration w (ParseErr pe)
  | failed_interval (home : string) (w1 : World) (buf : string) (w2 : World)
      (t : time.Time) :
      homeDir w = (Ok home, w1) ->
      ioutil.ReadFile (filepath.Join home stateFile) w1 = (Ok buf, w2) ->
      time.Parse (Local w) time.UnixDate buf = inr t ->
      time.Sub (now_of w) t < minDuration ->
      failed_check stateFile minDuration w
                   (too_soon minDuration (time.Sub (now_of w) t)).

(** The message of [homeDir] for a home path that is not there. *)
Definition home_error (home : string) : error :=
  Errorf "home directory %q must exist and be a directory" [AString home].

(** The last step of [overloadProtection]: "Rewrite current time". *)
Definition write_step (fname : string) : M unit :=
  tim <- time_Now ;;
  ioutil.WriteFile fname (time.Format tim time.UnixDate) 420.

(** The URI [download] requests. *)
Definition dl_uri (server : string) (datasize : Z) : string :=
  fmt.Sprintf "%s/dl-%d" [AString server; AInt datasize].

(** The line [main] prints at the end of a run. *)
Definition result_line (opt : cmdLineOpts) (bytes : Z) (duration : time.Duration)
  : string :=
  let bw := bandwidth bytes duration in
  if csv opt then
    fmt.Sprintf ("%s,%d,%.2f,%.3f" ++ nl)
                [AString (server opt); AInt bytes;
                 AFloat (time.Seconds duration); AFloat bw]
  else
    fmt.Sprintf ("Downloaded %d bytes from %s in %s. Bandwidth = %.3fMbps" ++ nl)
                [AInt bytes; AString (server opt); ADuration duration; AFloat bw].

(** A number rendered with [p] decimal places: an optional minus sign,
    digits, a point, and exactly [p] digits. *)
Fixpoint all_digits (s : string) : bool :=
  match s with
  | EmptyString => true
  | String c r => is_digit c && all_digits r
  end.

Definition has_decimals (p : nat) (s : string) : Prop :=
  exists sign ip fp,
    s = sign ++ ip ++ "." ++ fp
    /\ (sign = "" \/ sign = "-")
    /\ ip <> "" /\ all_digits ip = true
    /\ String.length fp = p /\ all_digits fp = true.

Definition is_finite (x : float64.t) : bool :=
  match x with
  | SpecFloat.S754_zero _ | SpecFloat.S754_finite _ _ _ => true
  | _ => false
  end.

(** The instant of the call of [time.Now] after the next one. *)
Definition now_after (w : World) : time.Time := now_of (set_ticks (S (ticks w)) w).

(** ** Sample worlds

    Concrete inputs on which the statements below are evaluated. *)

(** A home directory [/home/u] with nothing in it, no system failure, the
    usual umask 022, a clock that advances one second per reading from
    2025-10-31 08:00:00 UTC, a local zone [PST], a server that delivers
    10 MiB. *)
Definition sample_world : World :=
  {| env_HOME := "/home/u";
     current_user := inr "/home/u";
     files := <["/home/u" := Dir 493]> ∅;
     stat_fault := fun _ => None;
     read_fault := fun _ => None;
     write_faults := fun _ => None;
     umask := 18;
     clock := fun n =>
       {| wall_sec := 1761897600 + Z.of_nat n; wall_nsec := 0;
          monotonic := 1000000000 * Z.of_nat n |};
     ticks := 0;
     Local := time.FixedZone "PST" (-28800);
     net := fun _ => inr {| body_copied := 10485760; body_err := None |};
     trace := [];
     stdout := "";
     stderr := [] |}.

Definition sample_state_path : string := "/home/u/.testmynet-cli.state".

Definition with_file (path : string) (n : node) (w : World) : World :=
  set_files (<[path := n]> (files w)) w.

Definition with_HOME (home : string) (w : World) : World :=
  {| env_HOME := home; current_user := current_user w; files := files w;
     stat_fault := stat_fault w; read_fault := read_fault w;
     write_faults := write_faults w; umask := umask w; clock := clock w;
     ticks := ticks w; Local := Local w; net := net w; trace := trace w;
     stdout := stdout w; stderr := stderr w |}.

Definition with_write_fault (path : string) (f : write_fault) (w : World) : World :=
  {| env_HOME := env_HOME w; current_user := current_user w; files := files w;
     stat_fault := stat_fault w; read_fault := read_fault w;
     write_faults := fun p => if String.eqb p path then Some f else write_faults w p;
     umask := umask w; clock := clock w;
     ticks := ticks w; Local := Local w; net := net w; trace := trace w;
     stdout := stdout w; stderr := stderr w |}.

Definition with_read_fault (path : string) (e : errno) (w : World) : World :=
  {| env_HOME := env_HOME w; current_user := current_user w; files := files w;
     stat_fault := stat_fault w;
     read_fault := fun p => if String.eqb p path then Some e else read_fault w p;
     write_faults := write_faults w;
     umask := umask w; clock := clock w;
     ticks := ticks w; Local := Local w; net := net w; trace := trace w;
     stdout := stdout w; stderr := stderr w |}.

Definition with_Local (l : time.Location) (w : World) : World :=
  {| env_HOME := env_HOME w; current_user := current_user w; files := files w;
     stat_fault := stat_fault w; read_fault := read_fault w;
     write_faults := write_faults w; umask := umask w; clock := clock w;
     ticks := ticks w; Local := l; net := net w; trace := trace w;
     stdout := stdout w; stderr := stderr w |}.

(** The minimum interval [main] passes to the rate limiter. *)
Definition quarter_hour : time.Duration := minDurationMinutes * time.Minute.

(** The sample world after a run has just recorded the first reading of the
    clock; with a record one day old; with a state file that is not a
    timestamp. *)
Definition world_recent : World :=
  with_file sample_state_path (File 420 "Fri Oct 31 00:00:00 PST 2025") sample_world.
Definition world_old : World :=
  with_file sample_state_path (File 384 "Thu Oct 30 00:00:00 PST 2025") sample_world.
Definition world_garbage : World :=
  with_file sample_state_path (File 420 "not a timestamp") sample_world.

(** The sample world with a home directory that cannot be written to; with
    a full disk; with HOME naming a path that is not there; with a state
    file that cannot be read; with HOME naming a regular file. *)
Definition world_unwritable : World :=
  with_write_fault sample_state_path (OpenFails EACCES) sample_world.
Definition world_disk_full : World :=
  with_write_fault sample_state_path (WriteFails ENOSPC 0) world_old.
Definition world_no_home : World := with_HOME "/nonexistent" sample_world.
Definition world_unreadable : World :=
  with_read_fault sample_state_path EACCES world_garbage.
Definition world_home_is_file : World :=
  with_HOME "/etc/passwd"
    (with_file "/etc/passwd" (File 420 "root:x:0:0:root:/root:/bin/sh")
       sample_world).

(** The sample world in the zone of Kathmandu, whose abbreviation in the
    time zone database is [+0545]. *)
Definition world_kathmandu : World :=
  with_Local (time.FixedZone "+0545" 20700) sample_world.

(** The instant recorded in [world_recent]. *)
Definition recent_instant : time.Time :=
  {| time.unixSec := 1761897600; time.nsec := 0; time.mono := None;
     time.loc := time.FixedZone "PST" (-28800) |}.

(** Command lines: [--csv --dry-run --location uk], the same with the
    force flag, and [--location zz --server http://example.org]. *)
Definition cmd_csv_dry : cmdLineOpts :=
  {| csv := true; datasize := defaultDataSize; dryrun := true; force := false;
     location := "uk"; server := ""; verbose := 0 |}.
Definition cmd_csv_dry_force : cmdLineOpts :=
  {| csv := true; datasize := defaultDataSize; dryrun := true; force := true;
     location := "uk"; server := ""; verbose := 0 |}.
Definition cmd_bad_location : cmdLineOpts :=
  {| csv := false; datasize := defaultDataSize; dryrun := false; force := false;
     location := "zz"; server := "http://example.org"; verbose := 0 |}.

(** [--csv --location uk], a real run; and the sample world with a clock
    that does not advance between two readings. *)
Definition cmd_csv : cmdLineOpts :=
  {| csv := true; datasize := defaultDataSize; dryrun := false; force := false;
     location := "uk"; server := ""; verbose := 0 |}.
Definition world_frozen_clock : World :=
  {| env_HOME := env_HOME sample_world;
     current_user := current_user sample_world;
     files := files sample_world;
     stat_fault := stat_fault sample_world;
     read_fault := read_fault sample_world;
     write_faults := write_faults sample_world;
     umask := umask sample_world;
     clock := fun _ =>
       {| wall_sec := 1761897600; wall_nsec := 0; monotonic := 0 |};
     ticks := 0;
     Local := Local sample_world;
     net := net sample_world;
     trace := [];
     stdout := "";
     stderr := [] |}.

(** The message of [parseFlags] for an unknown location. *)
Definition unknown_location_format : string :=
  "unable to find location %q. Use " ++ dquote ++ "--location help" ++ dquote
  ++ " to see all locations".

(** *** [absDate] in two cuts

    The computation of [time.absDate] after the 400-year cycles are cut
    off, with the years counted so far as a parameter, and its last part,
    from the year and the day of the year to the month and the day. *)
Definition cycle_years (y d : Z) : Z * Z :=
  let n := d / time.daysPer100Years in
  let n := n - Z.shiftr n 2 in
  let y := y + 100 * n in
  let d := d - time.daysPer100Years * n in
  let n := d / time.daysPer4Years in
  let y := y + 4 * n in
  let d := d - time.daysPer4Years * n in
  let n := d / 365 in
  let n := n - Z.shiftr n 2 in
  let y := y + n in
  let d := d - 365 * n in
  (y, d).

Definition month_day (year yday : Z) : Z * Z :=
  let day := yday in
  if time.isLeap year && (day =? 31 + 29 - 1) then (time.February, 29)
  else
    let day := if time.isLeap year && (day >? 31 + 29 - 1) then day - 1 else day in
    let month := day / 31 in
    let end_ := time.daysBefore_at (month + 1) in
    let '(month, begin) :=
      if day >=? end_ then (month + 1, end_)
      else (month, time.daysBefore_at month) in
    (month + 1, day - begin + 1).

(** A month and a day of the month that [time.Parse] accepts for a year. *)
Definition valid_date (year month day : Z) : bool :=
  (1 <=? month) && (month <=? 12) && (1 <=? day)
  && (day <=? time.daysIn month year) && (day <=? 31).

(** The check made on each day of a 400-year cycle. *)
Definition cycle_day_valid (d : Z) : bool :=
  let '(y, yday) := cycle_years 0 d in
  let year := y + time.absoluteZeroYear in
  let '(m, dd) := month_day year yday in
  valid_date year m dd.

(** *** The written timestamp, element by element *)

(** The year of an instant in its zone, and the text [Time.Format] writes
    for the zone element of the layout. *)
Definition t_year (t : time.Time) : Z :=
  let '(_, _, abs) := time.locabs t in
  let '(year, _, _, _) := time.absDate abs in
  year.

Definition zone_text (t : time.Time) : string :=
  let '(name, offset, _) := time.locabs t in
  time.appendStd "" time.stdTZ name offset 0 0 0 0 0 0 0.

(** The zone element of the written timestamp is read back whole: after
    the separator, the zone step of [time.Parse] consumes the zone text and
    nothing else. *)
Definition zone_accepted (t : time.Time) : bool :=
  let year4 := time.appendInt "" (t_year t) 4 in
  match time.skip (" " ++ zone_text t ++ " " ++ year4) " " with
  | inr v =>
      match time.parse_std time.stdTZ v time.fields_init with
      | time.StepOk v' _ => String.eqb v' (" " ++ year4)
      | _ => false
      end
  | inl _ => false
  end.

(** The shapes of the numbers [appendInt] writes, and what the steps of
    [time.Parse] make of them. *)
Definition two_digit_shape (n : Z) : bool :=
  String.eqb (time.appendInt "" n 2)
             (String (digit_char (n / 10)) (String (digit_char (n mod 10)) "")).

Definition day_shape (d : Z) : bool :=
  if d <? 10 then String.eqb (time.appendInt "" d 0) (String (digit_char d) "")
  else String.eqb (time.appendInt "" d 0)
                  (String (digit_char (d / 10)) (String (digit_char (d mod 10)) "")).

Definition year_step_ok (y : Z) : bool :=
  let year4 := time.appendInt "" y 4 in
  String.eqb (time.cutspace year4) year4
  && match time.parse_std time.stdLongYear year4 time.fields_init with
     | time.StepOk EmptyString f => time.f_year f =? y
     | _ => false
     end.

(** One turn of the loop of [time.Parse]: the separator, then the
    element. *)
Definition chunk_step (prefix : string) (s : time.std) (value : string)
    (f : time.fields) : time.step_res :=
  match time.skip value prefix with
  | inr v => time.parse_std s v f
  | inl _ => time.StepBad
  end.

Definition digit_roundtrip (d : Z) : bool :=
  is_digit (digit_char d) && (digit_val (digit_char d) =? d)
  && negb (is_space (digit_char d)).

(** [check_from n z P]: [P] holds of [z], ..., [z + n - 1]. *)
Fixpoint check_from (n : nat) (z : Z) (P : Z -> bool) : bool :=
  match n with
  | O => true
  | S k => P z && check_from k (z + 1) P
  end.

(** [check_below n P]: [P] holds of 0, ..., [n - 1]. *)
Definition check_below (n : nat) (P : Z -> bool) : bool := check_from n 0 P.

(** ** Further observations and sample worlds *)

(** The home path [homeDir] settles on: HOME, or the home of the current
    user when HOME is empty or unset. *)
Definition resolved_home (w : World) : error + string :=
  if String.eqb (env_HOME w) "" then current_user w else inr (env_HOME w).

(** The message of [homeDir] when [user.Current] fails. *)
Definition no_user_error (err : error) : error :=
  Errorf "unable to get information for current user: %q" [AError err].

(** The flag package calls [Set] once for each occurrence of the flag on
    the command line, with the value of the occurrence, and stops at the
    first error. *)
Fixpoint multiLevelInt_Set_each (m : multiLevelInt) (vals : list string)
  : multiLevelInt * option error :=
  match vals with
  | [] => (m, None)
  | v :: vals' =>
      match multiLevelInt_Set m v with
      | (m', None) => multiLevelInt_Set_each m' vals'
      | (m', Some e) => (m', Some e)
      end
  end.

(** One line of the listing of [locationList]: the code in a column of
    four bytes, a space, the description. *)
Definition location_line (code desc : string) : string :=
  fmt.pad true (Some 4) (Some 4) code ++ " " ++ desc ++ nl.

(** The entries [main] leaves on the standard error before it exits. *)
Definition fatal_error (err : error) : string * list arg :=
  ("Error: %s" ++ nl, [AError err]).
Definition fatal_download (server : string) (err : error) : string * list arg :=
  ("Error downloading data from %s: %v" ++ nl, [AString server; AError err]).

(** The line [main] prints when the output is not CSV. *)
Definition prose_line (server : string) (bytes : Z) (duration : time.Duration)
  : string :=
  "Downloaded " ++ fmt.itoa bytes ++ " bytes from " ++ server ++ " in "
  ++ time.Duration_String duration ++ ". Bandwidth = "
  ++ float64.format_f 3 (bandwidth bytes duration) ++ "Mbps" ++ nl.

(** An instant as the state file keeps it: to the second, with no
    monotonic clock reading, in a given location. *)
Definition to_the_second (l : time.Location) (t : time.Time) : time.Time :=
  {| time.unixSec := time.unixSec t; time.nsec := 0; time.mono := None;
     time.loc := l |}.

(** The difference of two instants on the wall clock, in nanoseconds. *)
Definition wall_diff (t u : time.Time) : Z :=
  (time.unixSec t - time.unixSec u) * 1000000000 + (time.nsec t - time.nsec u).

Definition with_net (n : string -> error + Response) (w : World) : World :=
  {| env_HOME := env_HOME w; current_user := current_user w; files := files w;
     stat_fault := stat_fault w; read_fault := read_fault w;
     write_faults := write_faults w; umask := umask w; clock := clock w;
     ticks := ticks w; Local := Local w; net := n; trace := trace w;
     stdout := stdout w; stderr := stderr w |}.

Definition with_user (u : error + string) (w : World) : World :=
  {| env_HOME := env_HOME w; current_user := u; files := files w;
     stat_fault := stat_fault w; read_fault := read_fault w;
     write_faults := write_faults w; umask := umask w; clock := clock w;
     ticks := ticks w; Local := Local w; net := net w; trace := trace w;
     stdout := stdout w; stderr := stderr w |}.

Definition with_stat_fault (path : string) (e : errno) (w : World) : World :=
  {| env_HOME := env_HOME w; current_user := current_user w; files := files w;
     stat_fault := fun p => if String.eqb p path then Some e else stat_fault w p;
     read_fault := read_fault w; write_faults := write_faults w;
     umask := umask w; clock := clock w;
     ticks := ticks w; Local := Local w; net := net w; trace := trace w;
     stdout := stdout w; stderr := stderr w |}.


(** The sample world with no route to the server; with a response whose
    body breaks off; with HOME unset; with HOME unset and no user record;
    with a home directory that cannot be examined. *)
Definition no_route : error := OtherError "dial tcp: no route to host".
Definition broken_body : error := OtherError "unexpected EOF".
Definition no_user : error := OtherError "user: Current not implemented".
Definition world_net_down : World := with_net (fun _ => inl no_route) sample_world.
Definition world_body_breaks : World :=
  with_net (fun _ => inr {| body_copied := 4096; body_err := Some broken_body |})
           sample_world.
Definition world_HOME_unset : World := with_HOME "" sample_world.
Definition world_no_user : World := with_user (inl no_user) (with_HOME "" sample_world).
Definition world_home_denied : World := with_stat_fault "/home/u" EACCES sample_world.


(** The sample world with a state file stamped one day ahead of the
    clock. *)
Definition world_future : World :=
  with_file sample_state_path (File 420 "Sat Nov  1 00:00:00 PST 2025") sample_world.

(** [--location help --server http://example.org --csv], and a real run
    with prose output. *)
Definition cmd_help : cmdLineOpts :=
  {| csv := true; datasize := defaultDataSize; dryrun := false; force := false;
     location := "help"; server := "http://example.org"; verbose := 0 |}.
Definition cmd_dry : cmdLineOpts :=
  {| csv := false; datasize := defaultDataSize; dryrun := true; force := false;
     location := "uk"; server := ""; verbose := 0 |}.

(** *** [Date] after [absDate]

    The days [time.daysSinceEpoch] counts for the years of a 400-year cycle
    before year [y] of the cycle, and the check made on each day [d] of a
    cycle: the day number [time.Date] counts for the year, the month and
    the day that [time.absDate] computes for [d] is [d]. *)
Definition cycle_days_before (y : Z) : Z :=
  let n := y / 100 in
  let y := y - 100 * n in
  let d := time.daysPer100Years * n in
  let n := y / 4 in
  let y := y - 4 * n in
  let d := d + time.daysPer4Years * n in
  d + 365 * y.

Definition cycle_day_inverts (d : Z) : bool :=
  let '(y, yday) := cycle_years 0 d in
  let year := y + time.absoluteZeroYear in
  let '(m, dd) := month_day year yday in
  (0 <=? y) && (y <? 400)
  && (cycle_days_before y + time.daysBefore_at (m - 1)
      + (if time.isLeap year && (m >=? time.March) then 1 else 0) + (dd - 1)
      =? d).

(** What [Parse] does after the last element of the layout, by the zone
    the zone element has left: a location, a zone name, or nothing. *)
Definition parsed_instant (local : time.Location) (z : option time.Location)
    (zoneName : string) (u : Z) : time.ParseError + time.Time :=
  match z with
  | Some z =>
      inr {| time.unixSec := u; time.nsec := 0; time.mono := None; time.loc := z |}
  | None =>
      if negb (String.eqb zoneName "") then
        match time.lookupName local zoneName u with
        | Some offset =>
            inr {| time.unixSec := u - offset; time.nsec := 0;
                   time.mono := None; time.loc := local |}
        | None =>
            let offset :=
              if (len zoneName >? 3) && String.eqb (take_str 3 zoneName) "GMT"
              then match time.atoi (drop_str 3 zoneName) with
                   | Some o => o * 3600
                   | None => 0
                   end
              else 0 in
            inr {| time.unixSec := u; time.nsec := 0; time.mono := None;
                   time.loc := time.FixedZone zoneName offset |}
        end
      else
        inr {| time.unixSec := u; time.nsec := 0; time.mono := None;
               time.loc := time.UTC |}
  end.

(** The order of [sort.Strings]: byte-wise, a prefix before its
    extensions. *)
Definition str_le (a b : string) : Prop := String.leb a b = true.

(** Projections of a world out of the updates made to it. *)
Ltac world_simpl :=
  cbn [env_HOME current_user files stat_fault read_fault write_faults umask
       clock ticks Local net trace stdout stderr set_files set_ticks log_event].

(** Case analysis on an integer [d] known to lie among [n] values from
    [lo] on. *)
Ltac enum_cases d lo n :=
  lazymatch n with
  | O => exfalso; lia
  | S ?k =>
      destruct (Z.eq_dec d lo) as [->|?];
      [| let lo' := eval compute in (lo + 1) in enum_cases d lo' k]
  end.

(** * Properties *)

Lemma check_from_spec (n : nat) (P : Z -> bool) : forall z0,
  check_from n z0 P = true ->
  forall z, z0 <= z < z0 + Z.of_nat n -> P z = true.
Proof.
  induction n as [|k IH]; simpl; intros z0 H z Hz; [lia|].
  apply andb_prop in H as [Hk Hrest].
  destruct (Z.eq_dec z z0) as [->|Hne]; [exact Hk|].
  apply (IH (z0 + 1)); [exact Hrest | lia].
Qed.

Lemma check_below_spec (n : nat) (P : Z -> bool) :
  check_below n P = true ->
  forall z, 0 <= z < Z.of_nat n -> P z = true.
Proof. intros H z Hz. apply (check_from_spec n P 0 H). lia. Qed.

(** ** The monad *)

Lemma bind_Ok {A B} (c : M A) (k : A -> M B) w a w1 :
  c w = (Ok a, w1) -> bind c k w = k a w1.
Proof. intros H. unfold bind. rewrite H. reflexivity. Qed.

Lemma bind_Err {A B} (c : M A) (k : A -> M B) w e w1 :
  c w = (Err e, w1) -> bind c k w = (Err e, w1).
Proof. intros H. unfold bind. rewrite H. reflexivity. Qed.

Lemma bind_Exit {A B} (c : M A) (k : A -> M B) w n w1 :
  c w = (Exit n, w1) -> bind c k w = (Exit n, w1).
Proof. intros H. unfold bind. rewrite H. reflexivity. Qed.

Lemma try_Ok {A} (c : M A) w a w1 :
  c w = (Ok a, w1) -> try c w = (Ok (inr a), w1).
Proof. intros H. unfold try. rewrite H. reflexivity. Qed.

Lemma try_Err {A} (c : M A) w e w1 :
  c w = (Err e, w1) -> try c w = (Ok (inl e), w1).
Proof. intros H. unfold try. rewrite H. reflexivity. Qed.

(** ** [parseFlags] *)

Lemma Sprintf_server_url (l : string) :
  fmt.Sprintf "http://%s.%s" [AString l; AString tmnDomain]
  = "http://" ++ l ++ ".testmy.net".
Proof. reflexivity. Qed.

Lemma eqb_help_false (s : string) : s <> "help" -> String.eqb s "help" = false.
Proof. intros H. apply String.eqb_neq. exact H. Qed.

(** What [parseFlags] does for a location other than "help". *)
Lemma parseFlags_not_help (x : cmdLineOpts) (w : World) :
  location x <> "help" ->
  parseFlags x w =
    match serverLocation !! location x with
    | None => (Err (Errorf unknown_location_format [AString (location x)]), w)
    | Some _ =>
        if String.eqb (server x) "" then
          (Ok (set_server ("http://" ++ location x ++ ".testmy.net") x), w)
        else (Ok x, w)
    end.
Proof.
  intros Hh. unfold parseFlags.
  rewrite (eqb_help_false _ Hh).
  unfold bind, ret, fail.
  destruct (serverLocation !! location x); [|reflexivity].
  destruct (String.eqb (server x) ""); [|reflexivity].
  rewrite Sprintf_server_url. reflexivity.
Qed.

(** The help pseudo-location prints the table and exits with status 2. *)
Lemma parseFlags_help (x : cmdLineOpts) (w : World) :
  location x = "help" ->
  parseFlags x w = (Exit 2, put_stdout (locationList serverLocation) w).
Proof.
  intros Hh. unfold parseFlags. rewrite Hh. reflexivity.
Qed.

(** When [parseFlags] succeeds it has touched nothing of the world, the
    location is a key of the table, and the options differ from the flag
    values in the server at most. *)
Lemma parseFlags_Ok_inv (x x' : cmdLineOpts) (w w' : World) :
  parseFlags x w = (Ok x', w') ->
  w' = w /\ is_Some (serverLocation !! location x)
  /\ x' = (if String.eqb (server x) ""
           then set_server ("http://" ++ location x ++ ".testmy.net") x else x).
Proof.
  intros H.
  destruct (String.eqb_spec (location x) "help") as [Hh|Hh].
  - rewrite (parseFlags_help _ _ Hh) in H. discriminate.
  - rewrite (parseFlags_not_help _ _ Hh) in H.
    destruct (serverLocation !! location x) eqn:Hl; [|discriminate].
    destruct (String.eqb (server x) ""); inversion H; subst; eauto.
Qed.



(** C6. Location validation is unconditional: when the location value is
    neither "help" nor a key of the location table, [parseFlags] fails with
    the error that names the unknown location, whatever the server value. *)
Theorem parseFlags_unknown_location (x : cmdLineOpts) (w : World) :
  location x <> "help" ->
  serverLocation !! location x = None ->
  parseFlags x w
  = (Err (Errorf unknown_location_format [AString (location x)]), w).
Proof.
  intros Hh Hl. rewrite (parseFlags_not_help _ _ Hh), Hl. reflexivity.
Qed.

Lemma parseFlags_unknown_location_witness :
  server cmd_bad_location = "http://example.org"
  /\ parseFlags cmd_bad_location sample_world
     = (Err (Errorf unknown_location_format [AString "zz"]), sample_world).
Proof.
  split; [reflexivity|].
  apply (parseFlags_unknown_location cmd_bad_location sample_world).
  - discriminate.
  - reflexivity.
Defined.

(** ** [homeDir] *)

(** The type mask, asked whether it is a directory, says yes: the test
    [!os.ModeType.IsDir()] of [homeDir] is never true. *)
Lemma ModeType_IsDir : os.IsDir os.ModeType = true.
Proof. reflexivity. Qed.

(** [homeDir] once the home path is known. *)
Lemma homeDir_stat (w : World) (home : string) :
  (if String.eqb (env_HOME w) "" then current_user w else inr (env_HOME w))
  = inr home ->
  homeDir w =
    let w' := log_event (EvStat home) w in
    match stat_fault w home with
    | Some ENOENT => (Err (home_error home), w')
    | Some e => (Err (PathError "stat" home e), w')
    | None =>
        match files w !! home with
        | Some _ => (Ok home, w')
        | None => (Err (home_error home), w')
        end
    end.
Proof.
  intros H. unfold homeDir, bind, try, os.Getenv_HOME, user.Current, ret, fail.
  destruct (String.eqb (env_HOME w) "").
  - rewrite H. unfold os.Stat. rewrite ModeType_IsDir.
    destruct (stat_fault w home) as [[]|]; simpl; try reflexivity.
    destruct (files w !! home); reflexivity.
  - injection H as <-. unfold os.Stat. rewrite ModeType_IsDir.
    destruct (stat_fault w (env_HOME w)) as [[]|]; simpl; try reflexivity.
    destruct (files w !! env_HOME w); reflexivity.
Qed.

(** [homeDir] changes nothing but the trace, by one [stat] at most. *)
Lemma homeDir_frame (w : World) r w1 :
  homeDir w = (r, w1) ->
  w1 = w \/ exists home, w1 = log_event (EvStat home) w.
Proof.
  intros H.
  destruct (if String.eqb (env_HOME w) "" then current_user w else inr (env_HOME w))
    as [err|home] eqn:Hh.
  - left. unfold homeDir, bind, try, os.Getenv_HOME, user.Current, ret, fail in H.
    destruct (String.eqb (env_HOME w) ""); [|discriminate].
    rewrite Hh in H. inversion H. reflexivity.
  - right. exists home. rewrite (homeDir_stat _ _ Hh) in H. simpl in H.
    destruct (stat_fault w home) as [[]|]; try (inversion H; reflexivity).
    destruct (files w !! home); inversion H; reflexivity.
Qed.

(** ** [overloadProtection] *)

Lemma ReadFile_frame (f : string) (w : World) r w' :
  ioutil.ReadFile f w = (r, w') -> w' = log_event (EvReadFile f) w.
Proof.
  unfold ioutil.ReadFile. intros H.
  destruct (read_fault w f); [inversion H; reflexivity|].
  destruct (files w !! f) as [[]|]; inversion H; reflexivity.
Qed.

(** The function, step by step, once the home directory is resolved. *)
Lemma overloadProtection_steps (sf : string) (minD : time.Duration)
    (w w1 : World) (home : string) :
  homeDir w = (Ok home, w1) ->
  overloadProtection sf minD w =
    let fname := filepath.Join home sf in
    match ioutil.ReadFile fname w1 with
    | (Ok buf, w2) =>
        match time.Parse (Local w) time.UnixDate buf with
        | inl pe => (Err (ParseErr pe), w2)
        | inr t =>
            let since := time.Sub (now_of w) t in
            let w3 := set_ticks (S (ticks w)) w2 in
            if since <? minD then (Err (too_soon minD since), w3)
            else write_step fname w3
        end
    | (Err e, w2) =>
        if os.IsNotExist (Some e) then write_step fname w2 else (Err e, w2)
    | (Exit n, w2) => (Exit n, w2)
    end.
Proof.
  intros Hh.
  assert (HL : Local w1 = Local w /\ ticks w1 = ticks w /\ clock w1 = clock w).
  { destruct (homeDir_frame _ _ _ Hh) as [->|[h ->]]; auto. }
  destruct HL as (HL & Ht & Hc).
  unfold overloadProtection. rewrite (bind_Ok _ _ _ _ _ Hh).
  cbv zeta.
  destruct (ioutil.ReadFile (filepath.Join home sf) w1) as [[buf|e|n] w2] eqn:Hr.
  - rewrite (bind_Ok _ _ _ _ _ (try_Ok _ _ _ _ Hr)).
    pose proof (ReadFile_frame _ _ _ _ Hr) as ->.
    unfold bind at 1. unfold bind at 1. unfold time_Parse. simpl Local. rewrite HL.
    destruct (time.Parse (Local w) time.UnixDate buf) as [pe|t]; [reflexivity|].
    unfold time_Since, time_Now, bind, ret, fail. simpl.
    unfold now_of. simpl. rewrite HL, Ht, Hc.
    fold (now_of w).
    destruct (time.Sub _ t <? minD); reflexivity.
  - rewrite (bind_Ok _ _ _ _ _ (try_Err _ _ _ _ Hr)).
    unfold bind at 1.
    destruct (os.IsNotExist (Some e)); reflexivity.
  - unfold bind, try. rewrite Hr. reflexivity.
Qed.

Lemma write_step_unfold (fname : string) (w : World) :
  write_step fname w
  = ioutil.WriteFile fname (time.Format (now_of w) time.UnixDate) 420
      (set_ticks (S (ticks w)) w).
Proof. reflexivity. Qed.

(** A write that meets no failure of the system and no directory in its
    way succeeds and leaves the data in the file. *)
Lemma WriteFile_Ok (f d : string) (perm : Z) (w : World) :
  write_faults w f = None ->
  (forall m, files w !! f <> Some (Dir m)) ->
  ioutil.WriteFile f d perm w
  = (Ok tt,
     set_files (<[f := ioutil.written_node w f d perm]> (files w))
               (log_event (EvWriteFile f d perm) w)).
Proof.
  intros Hf Hd. unfold ioutil.WriteFile. rewrite Hf.
  destruct (files w !! f) as [[m|m x]|] eqn:E; try reflexivity.
  exfalso. exact (Hd m eq_refl).
Qed.

Lemma WriteFile_trace (f d : string) (perm : Z) (w : World) r w' :
  ioutil.WriteFile f d perm w = (r, w') ->
  trace w' = (trace w ++ [EvWriteFile f d perm])%list.
Proof.
  unfold ioutil.WriteFile. intros H.
  destruct (write_faults w f) as [[e|e n]|];
    destruct (files w !! f) as [[]|]; inversion H; reflexivity.
Qed.

Lemma new_events_app (w w' : World) (evs : list event) :
  trace w' = (trace w ++ evs)%list -> new_events w w' = evs.
Proof.
  intros H. unfold new_events. rewrite H. apply drop_app_length.
Qed.

(** The outcomes of [overloadProtection] when the home directory resolves
    and the system reports no failure on the state file, by what the state
    file holds. *)
Lemma overloadProtection_outcomes (sf : string) (minD : time.Duration)
    (w w1 : World) (home : string) :
  homeDir w = (Ok home, w1) ->
  read_fault w (filepath.Join home sf) = None ->
  write_faults w (filepath.Join home sf) = None ->
  let fname := filepath.Join home sf in
  (files w !! fname = None ->
   exists w',
     overloadProtection sf minD w = (Ok tt, w')
     /\ files w' =
        <[fname := File (Z.land 420 (Z.lnot (umask w)))
                        (time.Format (now_of w) time.UnixDate)]> (files w))
  /\ (forall mode buf pe,
        files w !! fname = Some (File mode buf) ->
        time.Parse (Local w) time.UnixDate buf = inl pe ->
        exists w',
          overloadProtection sf minD w = (Err (ParseErr pe), w')
          /\ files w' = files w)
  /\ (forall mode buf t,
        files w !! fname = Some (File mode buf) ->
        time.Parse (Local w) time.UnixDate buf = inr t ->
        let since := time.Sub (now_of w) t in
        (since < minD ->
         exists w',
           overloadProtection sf minD w = (Err (too_soon minD since), w')
           /\ files w' = files w)
        /\ (minD <= since ->
            exists w',
              overloadProtection sf minD w = (Ok tt, w')
              /\ files w' =
                 <[fname := File mode (time.Format (now_after w) time.UnixDate)]>
                   (files w))).
Proof.
  intros Hh Hrf Hwf fname.
  assert (Hw1 : files w1 = files w /\ read_fault w1 = read_fault w
                /\ write_faults w1 = write_faults w /\ umask w1 = umask w
                /\ ticks w1 = ticks w /\ clock w1 = clock w /\ Local w1 = Local w).
  { destruct (homeDir_frame _ _ _ Hh) as [->|[h ->]]; repeat split. }
  destruct Hw1 as (Hfs & Hrf1 & Hwf1 & Hum & Htk & Hck & Hlc).
  pose proof (overloadProtection_steps sf minD w w1 home Hh) as Hsteps.
  cbv zeta in Hsteps. fold fname in Hsteps.
  unfold ioutil.ReadFile in Hsteps.
  rewrite Hrf1, Hfs in Hsteps. fold fname in Hrf. rewrite Hrf in Hsteps.
  split; [|split].
  - intros Hnone. rewrite Hnone in Hsteps. simpl os.IsNotExist in Hsteps.
    rewrite write_step_unfold in Hsteps.
    rewrite WriteFile_Ok in Hsteps.
    + eexists. split; [exact Hsteps|]. simpl.
      unfold ioutil.written_node. simpl. rewrite Hfs, Hnone, Hum.
      unfold now_of. simpl. rewrite Htk, Hck, Hlc. reflexivity.
    + simpl. rewrite Hwf1. exact Hwf.
    + simpl. rewrite Hfs, Hnone. discriminate.
  - intros mode buf pe Hfile Hparse. rewrite Hfile, Hparse in Hsteps.
    eexists. split; [exact Hsteps|]. simpl. exact Hfs.
  - intros mode buf t Hfile Hparse since. rewrite Hfile, Hparse in Hsteps.
    fold since in Hsteps. split.
    + intros Hlt. apply Z.ltb_lt in Hlt. rewrite Hlt in Hsteps.
      eexists. split; [exact Hsteps|]. simpl. exact Hfs.
    + intros Hge. apply Z.ltb_ge in Hge. rewrite Hge in Hsteps.
      rewrite write_step_unfold in Hsteps.
      rewrite WriteFile_Ok in Hsteps.
      * eexists. split; [exact Hsteps|]. simpl.
        unfold ioutil.written_node. simpl. rewrite Hfs, Hfile.
        unfold now_after, now_of. simpl. rewrite Hck, Hlc. reflexivity.
      * simpl. rewrite Hwf1. exact Hwf.
      * simpl. rewrite Hfs, Hfile. discriminate.
Qed.

Lemma wrote_app (w w' : World) (evs : list event) :
  trace w' = (trace w ++ evs)%list -> wrote w w' = existsb is_write evs.
Proof. intros H. unfold wrote. rewrite (new_events_app _ _ _ H). reflexivity. Qed.

Lemma homeDir_no_exit (w : World) n w1 : homeDir w <> (Exit n, w1).
Proof.
  intros H.
  destruct (if String.eqb (env_HOME w) "" then current_user w else inr (env_HOME w))
    as [err|home] eqn:Hh.
  - unfold homeDir, bind, try, os.Getenv_HOME, user.Current, ret, fail in H.
    destruct (String.eqb (env_HOME w) ""); [|discriminate].
    rewrite Hh in H. discriminate.
  - rewrite (homeDir_stat _ _ Hh) in H. simpl in H.
    destruct (stat_fault w home) as [[]|]; try discriminate.
    destruct (files w !! home); discriminate.
Qed.

(** The trace of [homeDir]: at most one [stat]. *)
Lemma homeDir_trace (w : World) r w1 :
  homeDir w = (r, w1) ->
  files w1 = files w
  /\ exists evs, trace w1 = (trace w ++ evs)%list /\ existsb is_write evs = false.
Proof.
  intros H. destruct (homeDir_frame _ _ _ H) as [->|[h ->]].
  - split; [reflexivity|]. exists []. split; [|reflexivity].
    symmetry. apply app_nil_r.
  - split; [reflexivity|]. exists [EvStat h]. split; reflexivity.
Qed.

(** A run of [write_step] has called [ioutil.WriteFile]. *)
Lemma write_step_wrote (fname : string) (w0 w w' : World) r evs :
  trace w = (trace w0 ++ evs)%list ->
  write_step fname w = (r, w') ->
  wrote w0 w' = true.
Proof.
  intros Ht H. rewrite write_step_unfold in H.
  apply WriteFile_trace in H. simpl in H. rewrite Ht in H.
  rewrite <- app_assoc in H. rewrite (wrote_app _ _ _ H).
  rewrite existsb_app. simpl. apply orb_true_r.
Qed.

(** C10. Atomicity of the rate limiter on error: when one of the checks
    that precede the write fails (home directory, read, parse, minimum
    interval), [overloadProtection] returns that error, the files are
    exactly as before the call and [ioutil.WriteFile] has not been called;
    a call of [ioutil.WriteFile] happens only when no check has failed;
    and an error that is not one of the four checks can only come from the
    write itself. *)
Theorem overloadProtection_error_atomic (sf : string) (minD : time.Duration)
    (w : World) (r : result unit) (w' : World) :
  overloadProtection sf minD w = (r, w') ->
  (forall e, failed_check sf minD w e ->
     r = Err e /\ files w' = files w /\ wrote w w' = false)
  /\ (wrote w w' = true -> forall e, ~ failed_check sf minD w e)
  /\ (forall e, r = Err e -> failed_check sf minD w e \/ wrote w w' = true).
Proof.
  intros Hrun.
  assert (Hmain :
    (exists e, failed_check sf minD w e /\ r = Err e /\ files w' = files w
               /\ wrote w w' = false
               /\ forall e', failed_check sf minD w e' -> e' = e)
    \/ (wrote w w' = true /\ forall e, ~ failed_check sf minD w e)).
  { destruct (homeDir w) as [[home|e0|n] w1] eqn:Hh.
    - pose proof (homeDir_trace _ _ _ Hh) as (Hfs1 & evs1 & Htr1 & Hev1).
      rewrite (overloadProtection_steps sf minD w w1 home Hh) in Hrun.
      cbv zeta in Hrun.
      destruct (ioutil.ReadFile (filepath.Join home sf) w1) as [[buf|e|n] w2] eqn:Hr.
      + pose proof (ReadFile_frame _ _ _ _ Hr) as Hw2.
        assert (Htr2 : trace w2
                       = (trace w ++ (evs1 ++ [EvReadFile (filepath.Join home sf)]))%list).
        { rewrite Hw2. simpl. rewrite Htr1, <- app_assoc. reflexivity. }
        assert (Hfs2 : files w2 = files w) by (rewrite Hw2; exact Hfs1).
        assert (Hnw : existsb is_write (evs1 ++ [EvReadFile (filepath.Join home sf)]) = false).
        { rewrite existsb_app, Hev1. reflexivity. }
        destruct (time.Parse (Local w) time.UnixDate buf) as [pe|t] eqn:Hp.
        * left. exists (ParseErr pe). inversion Hrun; subst r w'.
          split; [eapply failed_parse; eauto|].
          split; [reflexivity|]. split; [exact Hfs2|].
          split; [rewrite (wrote_app _ _ _ Htr2); exact Hnw|].
          intros e' Hfc. inversion Hfc; subst; congruence.
        * destruct (time.Sub (now_of w) t <? minD) eqn:Hlt.
          -- left. exists (too_soon minD (time.Sub (now_of w) t)).
             inversion Hrun; subst r w'.
             split; [eapply failed_interval; eauto; apply Z.ltb_lt; exact Hlt|].
             split; [reflexivity|]. split; [exact Hfs2|].
             split; [rewrite (wrote_app _ (set_ticks _ w2) _ Htr2); exact Hnw|].
             intros e' Hfc. inversion Hfc; subst; congruence.
          -- right. split.
             ++ eapply (write_step_wrote _ w (set_ticks _ w2)); [exact Htr2|exact Hrun].
             ++ intros e' Hfc. apply Z.ltb_ge in Hlt.
                inversion Hfc; subst; try congruence.
                assert (t0 = t) by congruence. subst t0. lia.
      + pose proof (ReadFile_frame _ _ _ _ Hr) as Hw2.
        assert (Htr2 : trace w2
                       = (trace w ++ (evs1 ++ [EvReadFile (filepath.Join home sf)]))%list).
        { rewrite Hw2. simpl. rewrite Htr1, <- app_assoc. reflexivity. }
        assert (Hfs2 : files w2 = files w) by (rewrite Hw2; exact Hfs1).
        assert (Hnw : existsb is_write (evs1 ++ [EvReadFile (filepath.Join home sf)]) = false).
        { rewrite existsb_app, Hev1. reflexivity. }
        destruct (os.IsNotExist (Some e)) eqn:Hne.
        * right. split.
          -- eapply (write_step_wrote _ w w2); [exact Htr2|exact Hrun].
          -- intros e' Hfc. inversion Hfc; subst; congruence.
        * left. exists e. inversion Hrun; subst r w'.
          split; [eapply failed_read; eauto|].
          split; [reflexivity|]. split; [exact Hfs2|].
          split; [rewrite (wrote_app _ _ _ Htr2); exact Hnw|].
          intros e' Hfc. inversion Hfc; subst; congruence.
      + exfalso. unfold ioutil.ReadFile in Hr.
        destruct (read_fault w1 (filepath.Join home sf)); [discriminate|].
        destruct (files w1 !! filepath.Join home sf) as [[]|]; discriminate.
    - left. exists e0.
      unfold overloadProtection in Hrun. rewrite (bind_Err _ _ _ _ _ Hh) in Hrun.
      inversion Hrun; subst r w'.
      pose proof (homeDir_trace _ _ _ Hh) as (Hfs1 & evs1 & Htr1 & Hev1).
      split; [eapply failed_home; eauto|].
      split; [reflexivity|]. split; [exact Hfs1|].
      split; [rewrite (wrote_app _ _ _ Htr1); exact Hev1|].
      intros e' Hfc. inversion Hfc; subst; congruence.
    - exfalso. exact (homeDir_no_exit _ _ _ Hh). }
  destruct Hmain as [(e & Hfc & Hr & Hfs & Hnw & Huniq)|[Hw Hnone]].
  - split; [|split].
    + intros e' Hfc'. rewrite (Huniq e' Hfc'). auto.
    + intros Hw. congruence.
    + intros e' He'. left. rewrite Hr in He'. inversion He'; subst. exact Hfc.
  - split; [|split].
    + intros e Hfc. exfalso. exact (Hnone e Hfc).
    + intros _. exact Hnone.
    + intros e _. right. exact Hw.
Qed.


(** C1 (amended). For every call of [overloadProtection] in which the home
    directory resolves and the system reports no failure on reading or
    writing the state file: if the state file does not exist, the call
    succeeds and creates the file with the current timestamp; if it holds
    contents that do not parse, the call fails with the parse error and the
    files are as before; if it parses to [t], then, with [since] the time
    elapsed from [t] to now ([time.Since]), the call fails with the error
    that reports the minimum and [since] when [since] is less than the
    minimum, and otherwise succeeds and overwrites the file with the
    current timestamp. *)
Theorem overloadProtection_cases (sf : string) (minD : time.Duration)
    (w w1 : World) (home : string) :
  homeDir w = (Ok home, w1) ->
  read_fault w (filepath.Join home sf) = None ->
  write_faults w (filepath.Join home sf) = None ->
  let fname := filepath.Join home sf in
  (files w !! fname = None ->
   exists w',
     overloadProtection sf minD w = (Ok tt, w')
     /\ files w' =
        <[fname := File (Z.land 420 (Z.lnot (umask w)))
                        (time.Format (now_of w) time.UnixDate)]> (files w))
  /\ (forall mode buf pe,
        files w !! fname = Some (File mode buf) ->
        time.Parse (Local w) time.UnixDate buf = inl pe ->
        exists w',
          overloadProtection sf minD w = (Err (ParseErr pe), w')
          /\ files w' = files w)
  /\ (forall mode buf t,
        files w !! fname = Some (File mode buf) ->
        time.Parse (Local w) time.UnixDate buf = inr t ->
        let since := time.Sub (now_of w) t in
        (since < minD ->
         exists w',
           overloadProtection sf minD w = (Err (too_soon minD since), w')
           /\ files w' = files w)
        /\ (minD <= since ->
            exists w',
              overloadProtection sf minD w = (Ok tt, w')
              /\ files w' =
                 <[fname := File mode (time.Format (now_after w) time.UnixDate)]>
                   (files w))).
Proof. exact (overloadProtection_outcomes sf minD w w1 home). Qed.

Lemma overloadProtection_cases_witness :
  exists w',
    overloadProtection stateFile quarter_hour sample_world = (Ok tt, w')
    /\ files w' =
       <[sample_state_path := File 420 "Fri Oct 31 00:00:00 PST 2025"]>
         (files sample_world).
Proof.
  destruct (overloadProtection_cases stateFile quarter_hour sample_world
              (log_event (EvStat "/home/u") sample_world) "/home/u"
              eq_refl eq_refl eq_refl) as [H _].
  exact (H eq_refl).
Defined.

(** The claim C1 as stated fails where the system refuses the write, where
    the home directory does not resolve, and where the state file cannot be
    read: in the first two worlds there is no state file and the call fails
    without creating one; in the third the contents do not parse and the
    error is the read error. *)
Lemma overloadProtection_cases_counterexample :
  (files world_unwritable !! sample_state_path = None
   /\ fst (overloadProtection stateFile quarter_hour world_unwritable)
      = Err (PathError "open" sample_state_path EACCES)
   /\ files (snd (overloadProtection stateFile quarter_hour world_unwritable))
        !! sample_state_path = None)
  /\ (files world_no_home !! "/nonexistent/.testmynet-cli.state" = None
      /\ fst (overloadProtection stateFile quarter_hour world_no_home)
         = Err (home_error "/nonexistent")
      /\ files (snd (overloadProtection stateFile quarter_hour world_no_home))
           !! "/nonexistent/.testmynet-cli.state" = None)
  /\ (files world_unreadable !! sample_state_path
      = Some (File 420 "not a timestamp")
      /\ (exists pe, time.Parse (Local world_unreadable) time.UnixDate
                       "not a timestamp" = inl pe)
      /\ fst (overloadProtection stateFile quarter_hour world_unreadable)
         = Err (PathError "open" sample_state_path EACCES)).
Proof.
  repeat split; try (vm_compute; reflexivity).
  eexists. vm_compute. reflexivity.
Qed.

Lemma overloadProtection_error_atomic_witness :
  fst (overloadProtection stateFile quarter_hour world_recent)
  = Err (too_soon quarter_hour 0)
  /\ files (snd (overloadProtection stateFile quarter_hour world_recent))
     = files world_recent.
Proof.
  destruct (overloadProtection stateFile quarter_hour world_recent)
    as [r w'] eqn:Hrun.
  destruct (overloadProtection_error_atomic _ _ _ _ _ Hrun) as [H _].
  destruct (H (too_soon quarter_hour 0)) as (Hr & Hfs & _).
  - exact (failed_interval stateFile quarter_hour world_recent "/home/u"
             (log_event (EvStat "/home/u") world_recent)
             "Fri Oct 31 00:00:00 PST 2025"
             (log_event (EvReadFile sample_state_path)
                (log_event (EvStat "/home/u") world_recent))
             recent_instant eq_refl eq_refl eq_refl eq_refl).
  - simpl. split; assumption.
Defined.

(** C7 (the code at the failing input). [homeDir] does not fail when the
    home path names a regular file: the only test made on the result of
    [os.Stat] is whether the path exists, so the path is returned. *)
Theorem homeDir_accepts_regular_file (w : World) (home : string)
    (mode : Z) (data : string) :
  env_HOME w = home ->
  home <> "" ->
  stat_fault w home = None ->
  files w !! home = Some (File mode data) ->
  homeDir w = (Ok home, log_event (EvStat home) w).
Proof.
  intros Henv Hne Hsf Hfile.
  rewrite (homeDir_stat w home).
  - cbv zeta. rewrite Hsf, Hfile. reflexivity.
  - rewrite Henv. apply String.eqb_neq in Hne. rewrite Hne. reflexivity.
Qed.

Lemma homeDir_accepts_regular_file_witness :
  files world_home_is_file !! "/etc/passwd"
  = Some (File 420 "root:x:0:0:root:/root:/bin/sh")
  /\ homeDir world_home_is_file
     = (Ok "/etc/passwd", log_event (EvStat "/etc/passwd") world_home_is_file).
Proof.
  split; [reflexivity|].
  apply (homeDir_accepts_regular_file world_home_is_file "/etc/passwd" 420
           "root:x:0:0:root:/root:/bin/sh").
  - reflexivity.
  - discriminate.
  - reflexivity.
  - reflexivity.
Defined.

(** ** The effect of the rate limiter on the files *)

Lemma written_node_ext (w1 w2 : World) (f d : string) (perm : Z) :
  files w1 = files w2 -> umask w1 = umask w2 ->
  ioutil.written_node w1 f d perm = ioutil.written_node w2 f d perm.
Proof. intros Hf Hu. unfold ioutil.written_node. rewrite Hf, Hu. reflexivity. Qed.

Lemma WriteFile_files (f d : string) (perm : Z) (w : World) r w' :
  ioutil.WriteFile f d perm w = (r, w') ->
  (stdout w' = stdout w /\ stderr w' = stderr w)
  /\ (files w' = files w
      \/ exists d', files w' = <[f := ioutil.written_node w f d' perm]> (files w)).
Proof.
  unfold ioutil.WriteFile. intros H.
  destruct (write_faults w f) as [[e|e n]|];
    destruct (files w !! f) as [[]|]; inversion H; subst; simpl;
    (split; [split; reflexivity|]);
    try (left; reflexivity); right; eexists; reflexivity.
Qed.

(** Every run of [overloadProtection] adds to the trace only, writes with
    permission 0644 only, and leaves the files as they were or with one
    file written. *)
Lemma overloadProtection_effect (sf : string) (minD : time.Duration)
    (w : World) r w' :
  overloadProtection sf minD w = (r, w') ->
  (exists evs, trace w' = (trace w ++ evs)%list
               /\ forall p d perm, In (EvWriteFile p d perm) evs -> perm = 420)
  /\ (files w' = files w
      \/ exists f d, files w' = <[f := ioutil.written_node w f d 420]> (files w))
  /\ stdout w' = stdout w /\ stderr w' = stderr w.
Proof.
  intros Hrun.
  assert (Hws : forall f w0 evs r0 w0',
            trace w0 = (trace w ++ evs)%list ->
            (forall p d perm, In (EvWriteFile p d perm) evs -> perm = 420) ->
            files w0 = files w -> umask w0 = umask w ->
            stdout w0 = stdout w -> stderr w0 = stderr w ->
            write_step f w0 = (r0, w0') ->
            (exists evs', trace w0' = (trace w ++ evs')%list
               /\ forall p d perm, In (EvWriteFile p d perm) evs' -> perm = 420)
            /\ (files w0' = files w
                \/ exists f d, files w0' = <[f := ioutil.written_node w f d 420]> (files w))
            /\ stdout w0' = stdout w /\ stderr w0' = stderr w).
  { intros f w0 evs r0 w0' Ht Hev Hf Hu Hso Hse Hw.
    rewrite write_step_unfold in Hw.
    pose proof (WriteFile_trace _ _ _ _ _ _ Hw) as Ht'.
    pose proof (WriteFile_files _ _ _ _ _ _ Hw) as [[Hso' Hse'] Hf'].
    simpl in Ht', Hf', Hso', Hse'. split; [|split].
    - eexists. split.
      + rewrite Ht', Ht, <- app_assoc. reflexivity.
      + intros p d perm Hin. apply in_app_or in Hin as [Hin|Hin]; [eauto|].
        destruct Hin as [Hin|[]]. inversion Hin. reflexivity.
    - destruct Hf' as [Hf'|[d' Hf']]; [left; congruence|].
      right. exists f, d'. rewrite Hf', Hf.
      f_equal. apply written_node_ext; simpl; assumption.
    - split; congruence. }
  assert (Hnone : forall w0 evs,
            trace w0 = (trace w ++ evs)%list -> existsb is_write evs = false ->
            exists evs', trace w0 = (trace w ++ evs')%list
               /\ forall p d perm, In (EvWriteFile p d perm) evs' -> perm = 420).
  { intros w0 evs Ht Hev. exists evs. split; [exact Ht|].
    intros p d perm Hin. exfalso.
    assert (existsb is_write evs = true); [|congruence].
    apply existsb_exists. eexists. split; [exact Hin|reflexivity]. }
  assert (Hin_nw : forall evs, existsb is_write evs = false ->
            forall p d perm, In (EvWriteFile p d perm) evs -> perm = 420).
  { intros evs Hev p d perm Hin. exfalso.
    assert (existsb is_write evs = true); [|congruence].
    apply existsb_exists. eexists. split; [exact Hin|reflexivity]. }
  destruct (homeDir w) as [[home|e0|n] w1] eqn:Hh.
  - pose proof (homeDir_trace _ _ _ Hh) as (Hfs1 & evs1 & Htr1 & Hev1).
    assert (Hrest : umask w1 = umask w /\ stdout w1 = stdout w /\ stderr w1 = stderr w).
    { destruct (homeDir_frame _ _ _ Hh) as [->|[h ->]]; auto. }
    destruct Hrest as (Hu1 & Hso1 & Hse1).
    rewrite (overloadProtection_steps sf minD w w1 home Hh) in Hrun.
    cbv zeta in Hrun.
    destruct (ioutil.ReadFile (filepath.Join home sf) w1) as [[buf|e|n] w2] eqn:Hr;
      pose proof (ReadFile_frame _ _ _ _ Hr) as Hw2.
    + assert (Htr2 : trace w2
                     = (trace w ++ (evs1 ++ [EvReadFile (filepath.Join home sf)]))%list).
      { rewrite Hw2. simpl. rewrite Htr1, <- app_assoc. reflexivity. }
      assert (Hnw : existsb is_write (evs1 ++ [EvReadFile (filepath.Join home sf)]) = false).
      { rewrite existsb_app, Hev1. reflexivity. }
      destruct (time.Parse (Local w) time.UnixDate buf) as [pe|t].
      * inversion Hrun; subst r w'. split; [eapply Hnone; eauto|].
        rewrite Hw2. simpl. auto.
      * destruct (time.Sub (now_of w) t <? minD).
        -- inversion Hrun; subst r w'. split; [eapply (Hnone (set_ticks _ w2)); eauto|].
           rewrite Hw2. simpl. auto.
        -- eapply (Hws _ (set_ticks _ w2)); [exact Htr2| | | | | |exact Hrun];
             try (rewrite Hw2; simpl; assumption).
           apply Hin_nw. exact Hnw.
    + assert (Htr2 : trace w2
                     = (trace w ++ (evs1 ++ [EvReadFile (filepath.Join home sf)]))%list).
      { rewrite Hw2. simpl. rewrite Htr1, <- app_assoc. reflexivity. }
      assert (Hnw : existsb is_write (evs1 ++ [EvReadFile (filepath.Join home sf)]) = false).
      { rewrite existsb_app, Hev1. reflexivity. }
      destruct (os.IsNotExist (Some e)).
      * eapply (Hws _ w2); [exact Htr2| | | | | |exact Hrun];
          try (rewrite Hw2; simpl; assumption).
        apply Hin_nw. exact Hnw.
      * inversion Hrun; subst r w'. split; [eapply Hnone; eauto|].
        rewrite Hw2. simpl. auto.
    + inversion Hrun; subst r w'.
      assert (Htr2 : trace w2
                     = (trace w ++ (evs1 ++ [EvReadFile (filepath.Join home sf)]))%list).
      { rewrite Hw2. simpl. rewrite Htr1, <- app_assoc. reflexivity. }
      assert (Hnw : existsb is_write (evs1 ++ [EvReadFile (filepath.Join home sf)]) = false).
      { rewrite existsb_app, Hev1. reflexivity. }
      split; [eapply Hnone; eauto|]. rewrite Hw2. simpl. auto.
  - unfold overloadProtection in Hrun. rewrite (bind_Err _ _ _ _ _ Hh) in Hrun.
    inversion Hrun; subst r w'.
    pose proof (homeDir_trace _ _ _ Hh) as (Hfs1 & evs1 & Htr1 & Hev1).
    split; [eapply Hnone; eauto|].
    destruct (homeDir_frame _ _ _ Hh) as [->|[h ->]]; auto.
  - exfalso. exact (homeDir_no_exit _ _ _ Hh).
Qed.

(** C8 (amended). Every write of the state file asks for permission 0644
    (read/write for the owner, read for group and others): a state file the
    call creates has mode 0644 less the bits of the umask, and a file that
    was there keeps the mode it had. *)
Theorem overloadProtection_write_mode (sf : string) (minD : time.Duration)
    (w : World) (r : result unit) (w' : World) :
  overloadProtection sf minD w = (r, w') ->
  (forall p d perm, In (EvWriteFile p d perm) (new_events w w') -> perm = 420)
  /\ (forall p mode data,
        files w !! p = None -> files w' !! p = Some (File mode data) ->
        mode = Z.land 420 (Z.lnot (umask w)))
  /\ (forall p mode data mode' data',
        files w !! p = Some (File mode data) ->
        files w' !! p = Some (File mode' data') ->
        mode' = mode).
Proof.
  intros Hrun.
  destruct (overloadProtection_effect _ _ _ _ _ Hrun)
    as ((evs & Htr & Hperm) & Hfiles & _).
  split; [|split].
  - rewrite (new_events_app _ _ _ Htr). exact Hperm.
  - intros p mode data Hnone Hsome.
    destruct Hfiles as [Hf|(f & d & Hf)]; rewrite Hf in Hsome; [congruence|].
    destruct (decide (f = p)) as [->|Hne].
    + rewrite lookup_insert_eq in Hsome. unfold ioutil.written_node in Hsome.
      rewrite Hnone in Hsome. congruence.
    + rewrite lookup_insert_ne in Hsome by exact Hne. congruence.
  - intros p mode data mode' data' Hold Hnew.
    destruct Hfiles as [Hf|(f & d & Hf)]; rewrite Hf in Hnew; [congruence|].
    destruct (decide (f = p)) as [->|Hne].
    + rewrite lookup_insert_eq in Hnew. unfold ioutil.written_node in Hnew.
      rewrite Hold in Hnew. congruence.
    + rewrite lookup_insert_ne in Hnew by exact Hne. congruence.
Qed.

Lemma overloadProtection_write_mode_witness :
  files (snd (overloadProtection stateFile quarter_hour sample_world))
    !! sample_state_path
  = Some (File 420 "Fri Oct 31 00:00:00 PST 2025")
  /\ 420 = Z.land 420 (Z.lnot (umask sample_world)).
Proof.
  assert (Hfile :
    files (snd (overloadProtection stateFile quarter_hour sample_world))
      !! sample_state_path
    = Some (File 420 "Fri Oct 31 00:00:00 PST 2025"))
    by (vm_compute; reflexivity).
  split; [exact Hfile|].
  destruct (overloadProtection stateFile quarter_hour sample_world)
    as [r w'] eqn:Hrun.
  destruct (overloadProtection_write_mode _ _ _ _ _ Hrun) as (_ & H & _).
  exact (H sample_state_path 420 "Fri Oct 31 00:00:00 PST 2025" eq_refl Hfile).
Defined.

(** The claim C8 as stated fails in the sample world: the state file the
    call creates has mode 0644, in which the read bits of group and others
    (044) are set. *)
Lemma overloadProtection_write_mode_counterexample :
  files (snd (overloadProtection stateFile quarter_hour sample_world))
    !! sample_state_path
  = Some (File 420 "Fri Oct 31 00:00:00 PST 2025")
  /\ Z.land 420 63 = 36.
Proof. split; vm_compute; reflexivity. Qed.

(** ** [download] and [main] *)

(** [download] leaves everything but the trace and the clock as it was, and
    does not end the process. *)
Lemma download_frame (s : string) (n : Z) (dry : bool) (w : World) r w' :
  download s n dry w = (r, w') ->
  files w' = files w /\ env_HOME w' = env_HOME w
  /\ current_user w' = current_user w /\ stat_fault w' = stat_fault w
  /\ read_fault w' = read_fault w /\ write_faults w' = write_faults w
  /\ umask w' = umask w /\ Local w' = Local w /\ clock w' = clock w
  /\ stdout w' = stdout w /\ stderr w' = stderr w
  /\ trace w' = (trace w ++ [EvGet (dl_uri s n)])%list
  /\ (forall c, r <> Exit c)
  /\ (dry = true -> ticks w' = ticks w).
Proof.
  unfold download, bind, http.Get, http.Copy_Discard, time_Since, time_Now,
    ret, bind.
  fold (dl_uri s n). intros H.
  destruct (net w (dl_uri s n)) as [e|res].
  - inversion H; subst. simpl. repeat split; discriminate.
  - destruct dry; simpl in H.
    + inversion H; subst. simpl. repeat split; discriminate.
    + destruct (body_err res); inversion H; subst; simpl;
        repeat split; discriminate.
Qed.

(** [main], once the flags are resolved and the download has succeeded. *)
Lemma main_steps (cmdline opt : cmdLineOpts) (w w1 : World)
    (bd : Z * time.Duration) (w2 : World) :
  parseFlags cmdline w = (Ok opt, w1) ->
  download (server opt) (datasize opt) (dryrun opt) w1 = (Ok bd, w2) ->
  main cmdline w =
    if force opt then (Ok tt, put_stdout (result_line opt (fst bd) (snd bd)) w2)
    else
      match overloadProtection stateFile quarter_hour w2 with
      | (Ok _, w3) => (Ok tt, put_stdout (result_line opt (fst bd) (snd bd)) w3)
      | (Err err, w3) => (Exit 1, put_stderr ("Error: %s" ++ nl) [AError err] w3)
      | (Exit n, w3) => (Exit n, w3)
      end.
Proof.
  intros Hp Hd. unfold main.
  rewrite (bind_Ok _ _ _ _ _ (try_Ok _ _ _ _ Hp)).
  unfold bind at 1. unfold ret at 1.
  rewrite (bind_Ok _ _ _ _ _ (try_Ok _ _ _ _ Hd)).
  unfold bind at 1. unfold ret at 1.
  unfold result_line, fmt_Printf, fmt_Print.
  destruct (force opt); simpl negb; cbv iota.
  - unfold bind, ret. destruct (csv opt); reflexivity.
  - fold quarter_hour. unfold bind at 1. unfold bind at 1. unfold try.
    destruct (overloadProtection stateFile quarter_hour w2) as [[[]|e|n] w3];
      try reflexivity.
    unfold ret. destruct (csv opt); reflexivity.
Qed.

(** C4. For every run with the force flag set, the rate limiter is not
    consulted: given a successful download the run succeeds, the files are
    as before, and no [os.Stat], [ioutil.ReadFile] or [ioutil.WriteFile] has
    been called (the request of the download is the only event), whatever
    the state file holds. *)
Theorem main_force_bypasses_limiter (cmdline opt : cmdLineOpts) (w w1 : World)
    (bd : Z * time.Duration) (w2 : World) :
  parseFlags cmdline w = (Ok opt, w1) ->
  force opt = true ->
  download (server opt) (datasize opt) (dryrun opt) w1 = (Ok bd, w2) ->
  exists w',
    main cmdline w = (Ok tt, w')
    /\ files w' = files w
    /\ new_events w w' = [EvGet (dl_uri (server opt) (datasize opt))]
    /\ touched_files w w' = false.
Proof.
  intros Hp Hf Hd.
  rewrite (main_steps _ _ _ _ _ _ Hp Hd), Hf.
  apply parseFlags_Ok_inv in Hp as [-> _].
  destruct (download_frame _ _ _ _ _ _ Hd)
    as (Hfs & _ & _ & _ & _ & _ & _ & _ & _ & _ & _ & Htr & _).
  eexists. split; [reflexivity|]. simpl.
  assert (Hev : new_events w (put_stdout (result_line opt (fst bd) (snd bd)) w2)
                = [EvGet (dl_uri (server opt) (datasize opt))]).
  { apply new_events_app. exact Htr. }
  split; [exact Hfs|]. split; [exact Hev|].
  unfold touched_files. rewrite Hev. reflexivity.
Qed.

Lemma main_force_bypasses_limiter_witness :
  (exists w',
     main cmd_csv_dry_force world_recent = (Ok tt, w')
     /\ files w' = files world_recent
     /\ new_events world_recent w' = [EvGet "http://uk.testmy.net/dl-10240"]
     /\ touched_files world_recent w' = false)
  /\ fst (main cmd_csv_dry world_recent) = Exit 1.
Proof.
  split; [|vm_compute; reflexivity].
  apply (main_force_bypasses_limiter cmd_csv_dry_force
           (set_server "http://uk.testmy.net" cmd_csv_dry_force)
           world_recent world_recent (1000000, 8 * time.Second)
           (log_event (EvGet "http://uk.testmy.net/dl-10240") world_recent));
    reflexivity.
Defined.

(** C3 (amended). The dry-run flag does not exempt a run from the rate
    limiter: for every run with the force flag unset, in dry-run mode as in
    a real run, once the download has succeeded (and where the home
    directory resolves and the system reports no failure on the state
    file) the state file is created if it does not exist, is overwritten
    if the run it records is at least the minimum interval old, and is
    left as it is, the run failing, if that run is more recent. *)
Theorem main_unforced_runs_limiter (cmdline opt : cmdLineOpts) (w w1 : World)
    (bd : Z * time.Duration) (w2 wh : World) (home : string) :
  parseFlags cmdline w = (Ok opt, w1) ->
  force opt = false ->
  download (server opt) (datasize opt) (dryrun opt) w1 = (Ok bd, w2) ->
  homeDir w2 = (Ok home, wh) ->
  read_fault w (filepath.Join home stateFile) = None ->
  write_faults w (filepath.Join home stateFile) = None ->
  let fname := filepath.Join home stateFile in
  (files w !! fname = None ->
   exists w',
     main cmdline w = (Ok tt, w')
     /\ files w' =
        <[fname := File (Z.land 420 (Z.lnot (umask w)))
                        (time.Format (now_of w2) time.UnixDate)]> (files w))
  /\ (forall mode buf t,
        files w !! fname = Some (File mode buf) ->
        time.Parse (Local w) time.UnixDate buf = inr t ->
        (time.Sub (now_of w2) t < quarter_hour ->
         exists w', main cmdline w = (Exit 1, w') /\ files w' = files w)
        /\ (quarter_hour <= time.Sub (now_of w2) t ->
            exists w',
              main cmdline w = (Ok tt, w')
              /\ files w' =
                 <[fname := File mode (time.Format (now_after w2) time.UnixDate)]>
                   (files w))).
Proof.
  intros Hp Hf Hd Hh Hrf Hwf fname.
  rewrite (main_steps _ _ _ _ _ _ Hp Hd), Hf.
  apply parseFlags_Ok_inv in Hp as [-> _].
  destruct (download_frame _ _ _ _ _ _ Hd)
    as (Hfs & _ & _ & _ & Hrf2 & Hwf2 & Hum & Hlc & _).
  assert (Hrf' : read_fault w2 (filepath.Join home stateFile) = None)
    by (rewrite Hrf2; exact Hrf).
  assert (Hwf' : write_faults w2 (filepath.Join home stateFile) = None)
    by (rewrite Hwf2; exact Hwf).
  pose proof (overloadProtection_outcomes stateFile quarter_hour w2 wh home
                Hh Hrf' Hwf') as Hout.
  cbv zeta in Hout. fold fname in Hout.
  rewrite Hfs, Hum, Hlc in Hout.
  destruct Hout as (Hcreate & _ & Hparsed).
  split.
  - intros Hnone. destruct (Hcreate Hnone) as (w3 & Hrun & Hfiles).
    rewrite Hrun. eexists. split; [reflexivity|]. exact Hfiles.
  - intros mode buf t Hfile Hparse.
    destruct (Hparsed mode buf t Hfile Hparse) as [Hsoon Hlate]. split.
    + intros Hlt. destruct (Hsoon Hlt) as (w3 & Hrun & Hfiles).
      rewrite Hrun. eexists. split; [reflexivity|]. exact Hfiles.
    + intros Hge. destruct (Hlate Hge) as (w3 & Hrun & Hfiles).
      rewrite Hrun. eexists. split; [reflexivity|]. exact Hfiles.
Qed.

Lemma main_unforced_runs_limiter_witness :
  dryrun cmd_csv_dry = true
  /\ exists w',
       main cmd_csv_dry sample_world = (Ok tt, w')
       /\ files w' =
          <[sample_state_path := File 420 "Fri Oct 31 00:00:00 PST 2025"]>
            (files sample_world).
Proof.
  split; [reflexivity|].
  destruct (main_unforced_runs_limiter cmd_csv_dry
              (set_server "http://uk.testmy.net" cmd_csv_dry)
              sample_world sample_world (1000000, 8 * time.Second)
              (log_event (EvGet "http://uk.testmy.net/dl-10240") sample_world)
              (log_event (EvStat "/home/u")
                 (log_event (EvGet "http://uk.testmy.net/dl-10240") sample_world))
              "/home/u" eq_refl eq_refl eq_refl eq_refl eq_refl eq_refl)
    as [H _].
  exact (H eq_refl).
Defined.

(** The claim C3 as stated fails in the sample world: a dry run with the
    force flag unset creates the state file, and one that finds a record a
    day old overwrites it. *)
Lemma main_dry_run_counterexample :
  dryrun cmd_csv_dry = true /\ force cmd_csv_dry = false
  /\ (files sample_world !! sample_state_path = None
      /\ files (snd (main cmd_csv_dry sample_world)) !! sample_state_path
         = Some (File 420 "Fri Oct 31 00:00:00 PST 2025"))
  /\ (files world_old !! sample_state_path
      = Some (File 384 "Thu Oct 30 00:00:00 PST 2025")
      /\ files (snd (main cmd_csv_dry world_old)) !! sample_state_path
         = Some (File 384 "Fri Oct 31 00:00:01 PST 2025")).
Proof. repeat split; vm_compute; reflexivity. Qed.

(** ** Decimal rendering *)

Lemma digit_char_is_digit (d : Z) : 0 <= d < 10 -> is_digit (digit_char d) = true.
Proof.
  intros H.
  apply (check_below_spec 10 (fun d => is_digit (digit_char d))); [reflexivity|].
  exact H.
Qed.

Lemma utoa_aux_digits (fuel : nat) : forall v acc,
  0 <= v -> all_digits acc = true -> all_digits (utoa_aux fuel v acc) = true.
Proof.
  induction fuel as [|f IH]; intros v acc Hv Hacc; simpl; [exact Hacc|].
  assert (Hd : all_digits (String (digit_char (v mod 10)) acc) = true).
  { simpl. rewrite digit_char_is_digit by (apply Z.mod_pos_bound; lia). exact Hacc. }
  destruct (v / 10 =? 0); [exact Hd|].
  apply IH; [apply Z.div_pos; lia | exact Hd].
Qed.

Lemma utoa_aux_nonempty (fuel : nat) (v : Z) (acc : string) :
  utoa_aux (S fuel) v acc <> "".
Proof.
  revert v acc. induction fuel as [|f IH]; intros v acc; simpl.
  - destruct (v / 10 =? 0); discriminate.
  - destruct (v / 10 =? 0); [discriminate|]. apply IH.
Qed.

Lemma utoa_aux_length (fuel : nat) : forall (k : nat) v acc,
  0 <= v < 10 ^ Z.of_nat (S k) ->
  (String.length (utoa_aux fuel v acc) <= S k + String.length acc)%nat.
Proof.
  induction fuel as [|f IH]; intros k v acc Hv; simpl; [lia|].
  destruct (v / 10 =? 0) eqn:E; [simpl; lia|].
  apply Z.eqb_neq in E.
  destruct k as [|k'].
  - exfalso. apply E. apply Z.div_small. simpl in Hv. lia.
  - specialize (IH k' (v / 10) (String (digit_char (v mod 10)) acc)).
    simpl String.length in IH.
    assert (Hb : 0 <= v / 10 < 10 ^ Z.of_nat (S k')).
    { split; [apply Z.div_pos; lia|].
      apply Z.div_lt_upper_bound; [lia|].
      replace (Z.of_nat (S (S k'))) with (Z.of_nat (S k') + 1) in Hv by lia.
      rewrite Z.pow_add_r in Hv by lia. lia. }
    specialize (IH Hb). lia.
Qed.

Lemma utoa_digits (v : Z) : 0 <= v -> all_digits (utoa v) = true.
Proof. intros H. apply utoa_aux_digits; [exact H|reflexivity]. Qed.

Lemma utoa_nonempty (v : Z) : utoa v <> "".
Proof. apply utoa_aux_nonempty. Qed.

Lemma utoa_length (k : nat) (v : Z) :
  0 <= v < 10 ^ Z.of_nat (S k) -> (String.length (utoa v) <= S k)%nat.
Proof.
  intros H. unfold utoa.
  pose proof (utoa_aux_length (S (Z.to_nat (Z.log2 v))) k v "" H) as Hl.
  change (String.length "") with 0%nat in Hl. lia.
Qed.

Lemma length_append (a b : string) :
  String.length (a ++ b) = (String.length a + String.length b)%nat.
Proof. induction a as [|c a IH]; simpl; [reflexivity|]. rewrite IH. reflexivity. Qed.

Lemma all_digits_append (a b : string) :
  all_digits (a ++ b) = all_digits a && all_digits b.
Proof.
  induction a as [|c a IH]; simpl; [reflexivity|].
  rewrite IH. apply andb_assoc.
Qed.

Lemma repeat_zero_length (n : nat) : String.length (repeat_char "0" n) = n.
Proof. induction n; simpl; congruence. Qed.

Lemma repeat_zero_digits (n : nat) : all_digits (repeat_char "0" n) = true.
Proof. induction n; simpl; [reflexivity|assumption]. Qed.

Lemma div_half_even_nonneg (n d : Z) : 0 <= n -> 0 < d -> 0 <= float64.div_half_even n d.
Proof.
  intros Hn Hd. unfold float64.div_half_even.
  assert (0 <= n / d) by (apply Z.div_pos; lia).
  destruct (_ || _); lia.
Qed.

(** The magnitude is rendered with exactly [p] decimal places. *)
Lemma format_magnitude_decimals (m e : Z) (k : nat) :
  0 <= m ->
  exists ip fp,
    float64.format_magnitude m e (Z.of_nat (S k)) = ip ++ "." ++ fp
    /\ ip <> "" /\ all_digits ip = true
    /\ String.length fp = S k /\ all_digits fp = true.
Proof.
  intros Hm. unfold float64.format_magnitude.
  set (p := Z.of_nat (S k)).
  set (scaled := if e >=? 0 then m * 2 ^ e * 10 ^ p
                 else float64.div_half_even (m * 10 ^ p) (2 ^ (- e))).
  assert (Hp10 : 0 < 10 ^ p) by (apply Z.pow_pos_nonneg; lia).
  assert (Hs : 0 <= scaled).
  { unfold scaled. destruct (e >=? 0) eqn:E.
    - apply Z.mul_nonneg_nonneg; [|lia].
      apply Z.mul_nonneg_nonneg; [lia|]. apply Z.pow_nonneg. lia.
    - apply div_half_even_nonneg; [apply Z.mul_nonneg_nonneg; lia|].
      apply Z.pow_pos_nonneg; lia. }
  assert (Hpz : (p =? 0) = false) by (apply Z.eqb_neq; unfold p; lia).
  rewrite Hpz.
  set (fpd := utoa (scaled mod 10 ^ p)).
  assert (Hfr : 0 <= scaled mod 10 ^ p < 10 ^ p) by (apply Z.mod_pos_bound; lia).
  assert (Hlen : (String.length fpd <= S k)%nat) by (apply utoa_length; exact Hfr).
  exists (utoa (scaled / 10 ^ p)),
         (repeat_char "0" (Z.to_nat (p - len fpd)) ++ fpd).
  split; [reflexivity|].
  split; [apply utoa_nonempty|].
  split; [apply utoa_digits; apply Z.div_pos; lia|].
  split.
  - rewrite length_append, repeat_zero_length. unfold len, p. lia.
  - rewrite all_digits_append, repeat_zero_digits. simpl.
    apply utoa_digits. lia.
Qed.

(** [%.<p>f] of a finite number has exactly [p] decimal places. *)
Lemma format_f_decimals (k : nat) (x : float64.t) :
  is_finite x = true ->
  has_decimals (S k) (float64.format_f (Z.of_nat (S k)) x).
Proof.
  intros Hfin. unfold has_decimals.
  destruct x as [s|s| |s m e]; try discriminate; unfold float64.format_f.
  - destruct (format_magnitude_decimals 0 0 k) as (ip & fp & -> & H); [lia|].
    exists (if s then "-" else ""), ip, fp.
    split; [reflexivity|]. split; [destruct s; auto|]. exact H.
  - destruct (format_magnitude_decimals (Z.pos m) e k) as (ip & fp & -> & H); [lia|].
    exists (if s then "-" else ""), ip, fp.
    split; [reflexivity|]. split; [destruct s; auto|]. exact H.
Qed.

Lemma Sprintf_csv (s : string) (b : Z) (x y : float64.t) :
  fmt.Sprintf ("%s,%d,%.2f,%.3f" ++ nl) [AString s; AInt b; AFloat x; AFloat y]
  = s ++ "," ++ fmt.itoa b ++ "," ++ float64.format_f 2 x ++ ","
      ++ float64.format_f 3 y ++ nl.
Proof. reflexivity. Qed.

(** C2 (amended). For every successful run in CSV mode the printed line is
    [server,bytes,seconds,mbps] with the seconds rendered by [%.2f] and the
    mbps by [%.3f]: a finite value at 2 decimal places for the seconds and
    at 3 for the mbps; for 1,000,000 bytes in 8 seconds the line is
    [<server>,1000000,8.00,1.000]. *)
Theorem main_csv_line (cmdline opt : cmdLineOpts) (w w1 : World)
    (bytes : Z) (duration : time.Duration) (w2 w' : World) :
  parseFlags cmdline w = (Ok opt, w1) ->
  csv opt = true ->
  download (server opt) (datasize opt) (dryrun opt) w1 = (Ok (bytes, duration), w2) ->
  main cmdline w = (Ok tt, w') ->
  let secs := time.Seconds duration in
  let mbps := bandwidth bytes duration in
  stdout w' = stdout w ++ server opt ++ "," ++ fmt.itoa bytes ++ ","
                ++ float64.format_f 2 secs ++ "," ++ float64.format_f 3 mbps ++ nl
  /\ (is_finite secs = true -> has_decimals 2 (float64.format_f 2 secs))
  /\ (is_finite mbps = true -> has_decimals 3 (float64.format_f 3 mbps))
  /\ (bytes = 1000000 -> duration = 8 * time.Second ->
      stdout w' = stdout w ++ server opt ++ ",1000000,8.00,1.000" ++ nl).
Proof.
  intros Hp Hcsv Hd Hmain secs mbps.
  assert (Hout : stdout w' = stdout w ++ result_line opt bytes duration).
  { rewrite (main_steps _ _ _ _ _ _ Hp Hd) in Hmain. simpl fst in Hmain.
    simpl snd in Hmain.
    apply parseFlags_Ok_inv in Hp as [-> _].
    destruct (download_frame _ _ _ _ _ _ Hd)
      as (_ & _ & _ & _ & _ & _ & _ & _ & _ & Hso & _).
    destruct (force opt).
    - inversion Hmain; subst w'. simpl. rewrite Hso. reflexivity.
    - destruct (overloadProtection stateFile quarter_hour w2) as [[[]|e|n] w3] eqn:Hlim;
        try discriminate.
      inversion Hmain; subst w'. simpl.
      destruct (overloadProtection_effect _ _ _ _ _ Hlim) as (_ & _ & Hso3 & _).
      rewrite Hso3, Hso. reflexivity. }
  unfold result_line in Hout. rewrite Hcsv, Sprintf_csv in Hout.
  fold secs mbps in Hout.
  split; [exact Hout|].
  split; [exact (format_f_decimals 1 secs)|].
  split; [exact (format_f_decimals 2 mbps)|].
  intros Hb Hdur. rewrite Hout. unfold secs, mbps. rewrite Hb, Hdur.
  reflexivity.
Qed.

Lemma main_csv_line_witness :
  stdout (snd (main cmd_csv_dry sample_world))
  = "http://uk.testmy.net,1000000,8.00,1.000" ++ nl.
Proof.
  destruct (main cmd_csv_dry sample_world) as [r w'] eqn:Hmain.
  assert (Hr : r = Ok tt).
  { change r with (fst (r, w')). rewrite <- Hmain. vm_compute. reflexivity. }
  subst r.
  destruct (main_csv_line cmd_csv_dry
              (set_server "http://uk.testmy.net" cmd_csv_dry)
              sample_world sample_world 1000000 (8 * time.Second)
              (log_event (EvGet "http://uk.testmy.net/dl-10240") sample_world)
              w' eq_refl eq_refl eq_refl Hmain) as (_ & _ & _ & H).
  exact (H eq_refl eq_refl).
Defined.

(** The claim C2 as stated fails in the sample world: the line printed for
    1,000,000 bytes in 8 seconds has the seconds as [8.00], not [8.000].
    And where the clock does not advance during the download, the duration
    is zero and the mbps field is [+Inf], with no decimal places. *)
Lemma main_csv_line_counterexample :
  (csv cmd_csv_dry = true
   /\ fst (main cmd_csv_dry sample_world) = Ok tt
   /\ stdout (snd (main cmd_csv_dry sample_world))
      = "http://uk.testmy.net,1000000,8.00,1.000" ++ nl
   /\ stdout (snd (main cmd_csv_dry sample_world))
      <> "http://uk.testmy.net,1000000,8.000,1.000" ++ nl)
  /\ (csv cmd_csv = true
      /\ fst (main cmd_csv world_frozen_clock) = Ok tt
      /\ stdout (snd (main cmd_csv world_frozen_clock))
         = "http://uk.testmy.net,10485760,0.00,+Inf" ++ nl).
Proof.
  split.
  - split; [reflexivity|]. split; [vm_compute; reflexivity|].
    split; [vm_compute; reflexivity|]. vm_compute. discriminate.
  - split; [reflexivity|]. split; vm_compute; reflexivity.
Qed.

(** ** The state file, written and read back *)

(** C9 (the code at the failing input). In a zone whose abbreviation is a
    signed four-digit offset, the timestamp [overloadProtection] writes does
    not parse back: the first run succeeds and leaves
    [Fri Oct 31 13:45:00 +0545 2025] in the state file, and the next run
    fails on it with the parse error of the zone element. *)
Theorem state_file_rejected_in_numeric_zone :
  let first := overloadProtection stateFile quarter_hour world_kathmandu in
  let second := overloadProtection stateFile quarter_hour (snd first) in
  fst first = Ok tt
  /\ files (snd first) !! sample_state_path
     = Some (File 420 "Fri Oct 31 13:45:00 +0545 2025")
  /\ time.Format (now_of world_kathmandu) time.UnixDate
     = "Fri Oct 31 13:45:00 +0545 2025"
  /\ time.Parse (Local world_kathmandu) time.UnixDate
       "Fri Oct 31 13:45:00 +0545 2025"
     = inl {| time.LayoutElem := "MST"; time.ValueElem := "+0545 2025";
              time.Message := time.MsgNone |}
  /\ fst second
     = Err (ParseErr {| time.LayoutElem := "MST"; time.ValueElem := "+0545 2025";
                        time.Message := time.MsgNone |}).
Proof. cbv zeta. repeat split; vm_compute; reflexivity. Qed.

(** ** The calendar *)

Lemma absDate_cut (abs : Z) :
  time.absDate abs =
    let d := abs / time.secondsPerDay in
    let n := d / time.daysPer400Years in
    let '(y, yday) := cycle_years (400 * n) (d - time.daysPer400Years * n) in
    let year := y + time.absoluteZeroYear in
    let '(m, dd) := month_day year yday in
    (year, m, dd, yday).
Proof.
  unfold time.absDate, cycle_years, month_day. cbv zeta.
  repeat match goal with
         | |- context [if ?b then _ else _] => destruct b
         end; reflexivity.
Qed.

Lemma cycle_years_shift (y d : Z) :
  cycle_years y d = (y + fst (cycle_years 0 d), snd (cycle_years 0 d)).
Proof. unfold cycle_years. cbv zeta. simpl fst. simpl snd. f_equal. lia. Qed.

Lemma rem_eqb_shift (y k b : Z) :
  0 < b -> (b | k) -> (Z.rem (y + k) b =? 0) = (Z.rem y b =? 0).
Proof.
  intros Hb [q Hq]. subst k.
  destruct (Z.eqb_spec (Z.rem (y + q * b) b) 0) as [H1|H1];
    destruct (Z.eqb_spec (Z.rem y b) 0) as [H2|H2]; try reflexivity; exfalso.
  - apply H2. apply Z.rem_divide; [lia|].
    apply Z.rem_divide in H1; [|lia].
    destruct H1 as [c Hc]. exists (c - q). lia.
  - apply H1. apply Z.rem_divide; [lia|].
    apply Z.rem_divide in H2; [|lia].
    destruct H2 as [c Hc]. exists (c + q). lia.
Qed.

Lemma isLeap_shift (y n : Z) : time.isLeap (400 * n + y) = time.isLeap y.
Proof.
  unfold time.isLeap.
  replace (400 * n + y) with (y + 400 * n) by lia.
  rewrite (rem_eqb_shift y (400 * n) 4), (rem_eqb_shift y (400 * n) 100),
    (rem_eqb_shift y (400 * n) 400); try lia; try reflexivity.
  - exists n. lia.
  - exists (4 * n). lia.
  - exists (100 * n). lia.
Qed.

Lemma month_day_shift (y n yday : Z) :
  month_day (400 * n + y) yday = month_day y yday.
Proof. unfold month_day. rewrite isLeap_shift. reflexivity. Qed.

Lemma valid_date_shift (y n m d : Z) :
  valid_date (400 * n + y) m d = valid_date y m d.
Proof. unfold valid_date, time.daysIn. rewrite isLeap_shift. reflexivity. Qed.

Lemma cycle_days_valid : check_below (Z.to_nat 146097) cycle_day_valid = true.
Proof. vm_compute. reflexivity. Qed.

(** The date [absDate] computes is a date of the calendar: the month is
    1..12 and the day exists in that month of that year. *)
Lemma absDate_valid (abs : Z) :
  0 <= abs ->
  let '(year, m, dd, _) := time.absDate abs in
  valid_date year m dd = true.
Proof.
  intros Habs. rewrite absDate_cut. cbv zeta.
  set (D := abs / time.secondsPerDay).
  set (n := D / time.daysPer400Years).
  set (r := D - time.daysPer400Years * n).
  assert (HD : 0 <= D) by (apply Z.div_pos; [exact Habs|reflexivity]).
  assert (Hr : 0 <= r < 146097).
  { unfold r, n. change time.daysPer400Years with 146097.
    pose proof (Z.mod_pos_bound D 146097 ltac:(lia)) as Hm.
    rewrite Z.mod_eq in Hm by lia. lia. }
  pose proof (check_below_spec _ _ cycle_days_valid r) as Hv.
  assert (Hn : 0 <= r < Z.of_nat (Z.to_nat 146097)) by (rewrite Z2Nat.id; lia).
  specialize (Hv Hn). unfold cycle_day_valid in Hv.
  rewrite cycle_years_shift.
  destruct (cycle_years 0 r) as [y yd]. simpl fst. simpl snd.
  replace (400 * n + y + time.absoluteZeroYear)
    with (400 * n + (y + time.absoluteZeroYear)) by lia.
  rewrite month_day_shift.
  destruct (month_day (y + time.absoluteZeroYear) yd) as [m dd].
  rewrite valid_date_shift. exact Hv.
Qed.

Lemma absClock_bounds (abs : Z) :
  let '(hour, min, sec) := time.absClock abs in
  0 <= hour < 24 /\ 0 <= min < 60 /\ 0 <= sec < 60.
Proof.
  unfold time.absClock, time.secondsPerDay, time.secondsPerHour,
    time.secondsPerMinute. cbv zeta.
  change (24 * (60 * 60)) with 86400. change (60 * 60) with 3600.
  pose proof (Z.mod_pos_bound abs 86400 ltac:(lia)) as Hs.
  set (s := abs mod 86400) in *.
  pose proof (Z.div_mod s 3600 ltac:(lia)) as H1.
  pose proof (Z.mod_pos_bound s 3600 ltac:(lia)) as H2.
  set (h := s / 3600) in *.
  pose proof (Z.div_mod (s - h * 3600) 60 ltac:(lia)) as H3.
  pose proof (Z.mod_pos_bound (s - h * 3600) 60 ltac:(lia)) as H4.
  set (m := (s - h * 3600) / 60) in *.
  lia.
Qed.

Lemma absWeekday_bounds (abs : Z) : 0 <= time.absWeekday abs < 7.
Proof.
  unfold time.absWeekday, time.secondsPerWeek, time.secondsPerDay,
    time.secondsPerHour, time.secondsPerMinute. cbv zeta.
  change (7 * (24 * (60 * 60))) with 604800. change (24 * (60 * 60)) with 86400.
  set (x := wrapU64 _).
  pose proof (Z.mod_pos_bound x 604800 ltac:(lia)) as Hs.
  split; [apply Z.div_pos; lia|].
  apply Z.div_lt_upper_bound; lia.
Qed.

(** ** Writing and reading back the timestamp *)

Lemma append_cons (x : ascii) (a b : string) : String x a ++ b = String x (a ++ b).
Proof. reflexivity. Qed.

Lemma append_nil_l (b : string) : "" ++ b = b.
Proof. reflexivity. Qed.

Lemma append_assoc (a b c : string) : (a ++ b) ++ c = a ++ (b ++ c).
Proof.
  induction a as [|x a IH]; [reflexivity|].
  rewrite !append_cons. f_equal. exact IH.
Qed.

Lemma appendInt_app (b : string) (x width : Z) :
  time.appendInt b x width = b ++ time.appendInt "" x width.
Proof.
  unfold time.appendInt. destruct (x <? 0); simpl.
  - rewrite append_assoc. reflexivity.
  - reflexivity.
Qed.

Lemma appendStd_app (b : string) (s : time.std) (name : string)
    (offset abs year month day hour min sec : Z) :
  time.appendStd b s name offset abs year month day hour min sec
  = b ++ time.appendStd "" s name offset abs year month day hour min sec.
Proof.
  destruct s; unfold time.appendStd;
    try reflexivity; try apply appendInt_app.
  - destruct (day <? 10).
    + rewrite appendInt_app, (appendInt_app ("" ++ " ")), append_assoc. reflexivity.
    + apply appendInt_app.
  - destruct (negb (String.eqb name "")); [reflexivity|].
    destruct (Z.quot offset 60 <? 0).
    + rewrite appendInt_app, (appendInt_app (b ++ "-")),
        (appendInt_app (time.appendInt ("" ++ "-") _ _)),
        (appendInt_app ("" ++ "-")).
      rewrite !append_assoc. reflexivity.
    + rewrite appendInt_app, (appendInt_app (b ++ "+")),
        (appendInt_app (time.appendInt ("" ++ "+") _ _)),
        (appendInt_app ("" ++ "+")).
      rewrite !append_assoc. reflexivity.
Qed.

(** The written timestamp is its eight elements and their separators. *)
Lemma Format_UnixDate_elements (t : time.Time) (name : string)
    (offset abs year month day yday hour min sec : Z) :
  time.locabs t = (name, offset, abs) ->
  time.absDate abs = (year, month, day, yday) ->
  time.absClock abs = (hour, min, sec) ->
  let el s := time.appendStd "" s name offset abs year month day hour min sec in
  time.Format t time.UnixDate
  = el time.stdWeekDay ++ " " ++ el time.stdMonth ++ " " ++ el time.stdUnderDay
      ++ " " ++ el time.stdHour ++ ":" ++ el time.stdZeroMinute ++ ":"
      ++ el time.stdZeroSecond ++ " " ++ el time.stdTZ ++ " "
      ++ el time.stdLongYear.
Proof.
  intros Hl Hd Hc el. unfold time.Format. rewrite Hl, Hd, Hc.
  unfold time.UnixDate. cbn [fold_left].
  repeat (rewrite appendStd_app; fold (el time.stdWeekDay) (el time.stdMonth)
            (el time.stdUnderDay) (el time.stdHour) (el time.stdZeroMinute)
            (el time.stdZeroSecond) (el time.stdTZ) (el time.stdLongYear)).
  rewrite !append_assoc. reflexivity.
Qed.

Lemma digit_facts (d : Z) :
  0 <= d < 10 ->
  is_digit (digit_char d) = true /\ digit_val (digit_char d) = d
  /\ is_space (digit_char d) = false.
Proof.
  intros H.
  assert (Hc : digit_roundtrip d = true).
  { apply (check_below_spec 10 digit_roundtrip); [reflexivity|exact H]. }
  unfold digit_roundtrip in Hc.
  apply andb_prop in Hc as [Hc Hs]. apply andb_prop in Hc as [Hd Hv].
  apply Z.eqb_eq in Hv. apply negb_true_iff in Hs. auto.
Qed.

Lemma getnum_two (a b : Z) (rest : string) (fixed : bool) :
  0 <= a < 10 -> 0 <= b < 10 ->
  time.getnum (String (digit_char a) (String (digit_char b) rest)) fixed
  = Some (a * 10 + b, rest).
Proof.
  intros Ha Hb.
  destruct (digit_facts a Ha) as (Ha1 & Ha2 & _).
  destruct (digit_facts b Hb) as (Hb1 & Hb2 & _).
  unfold time.getnum. rewrite Ha1, Hb1, Ha2, Hb2. reflexivity.
Qed.

Lemma getnum_one (a : Z) (rest : string) :
  0 <= a < 10 ->
  time.getnum (String (digit_char a) (String " " rest)) false
  = Some (a, String " " rest).
Proof.
  intros Ha. destruct (digit_facts a Ha) as (Ha1 & Ha2 & _).
  unfold time.getnum. rewrite Ha1, Ha2. reflexivity.
Qed.

Lemma two_digits (n : Z) :
  0 <= n < 100 ->
  time.appendInt "" n 2
  = String (digit_char (n / 10)) (String (digit_char (n mod 10)) "").
Proof.
  intros H. apply String.eqb_eq.
  apply (check_below_spec 100 two_digit_shape); [vm_compute; reflexivity|exact H].
Qed.

Lemma skip_nil (v : string) : time.skip v "" = inr v.
Proof. reflexivity. Qed.

Lemma skip_colon (r : string) : time.skip (String ":" r) ":" = inr r.
Proof. reflexivity. Qed.

Lemma skip_space_cut (r : string) :
  time.skip (String " " r) " " = inr (time.cutspace r).
Proof. reflexivity. Qed.

Lemma cutspace_nonspace (c : ascii) (r : string) :
  is_space c = false -> time.cutspace (String c r) = String c r.
Proof. intros H. simpl. rewrite H. reflexivity. Qed.

Lemma parse_chunks_cons (prefix : string) (s : time.std) (l : time.Layout)
    (value v' : string) (f f' : time.fields) :
  chunk_step prefix s value f = time.StepOk v' f' ->
  time.parse_chunks ((prefix, s) :: l) value f = time.parse_chunks l v' f'.
Proof.
  unfold chunk_step. intros H. cbn [time.parse_chunks].
  destruct (time.skip value prefix) as [v|v]; [discriminate|].
  rewrite H. reflexivity.
Qed.


Lemma weekday_step (k : Z) (rest : string) (f : time.fields) :
  0 <= k < 7 ->
  chunk_step "" time.stdWeekDay
    (take_str 3 (time.Weekday_String k) ++ rest) f
  = time.StepOk rest f.
Proof. intros H. enum_cases k 0 7%nat; reflexivity. Qed.

Lemma month_step (m : Z) (rest : string) (f : time.fields) :
  1 <= m <= 12 ->
  chunk_step " " time.stdMonth
    (" " ++ take_str 3 (time.Month_String m) ++ rest) f
  = time.StepOk rest (time.set_month m f).
Proof. intros H. enum_cases m 1 12%nat; reflexivity. Qed.

Lemma day_step (d : Z) (rest : string) (f : time.fields)
    (name : string) (offset abs year month hour min sec : Z) :
  1 <= d <= 31 ->
  chunk_step " " time.stdUnderDay
    (" " ++ time.appendStd "" time.stdUnderDay name offset abs year month d
                           hour min sec ++ " " ++ rest) f
  = time.StepOk (" " ++ rest) (time.set_day d f).
Proof. intros H. enum_cases d 1 31%nat; reflexivity. Qed.

Lemma parse_ranged_two (n : Z) (rest : string) (fixed : bool) (bound : Z)
    (what : string) (set : Z -> time.fields -> time.fields) (f : time.fields) :
  0 <= n < bound -> bound <= 100 ->
  time.parse_ranged (time.appendInt "" n 2 ++ rest) fixed bound what set f
  = time.StepOk rest (set n f).
Proof.
  intros Hn Hb. rewrite two_digits by lia.
  rewrite !append_cons, append_nil_l.
  assert (Ha : 0 <= n / 10 < 10).
  { split; [apply Z.div_pos; lia|apply Z.div_lt_upper_bound; lia]. }
  assert (Hm : 0 <= n mod 10 < 10) by (apply Z.mod_pos_bound; lia).
  unfold time.parse_ranged. rewrite (getnum_two _ _ _ _ Ha Hm).
  replace (n / 10 * 10 + n mod 10) with n
    by (rewrite (Z.div_mod n 10) at 1 by lia; lia).
  destruct (Z.ltb_spec n 0); [lia|].
  destruct (Z.leb_spec bound n); [lia|]. reflexivity.
Qed.

Lemma hour_step (h : Z) (rest : string) (f : time.fields) :
  0 <= h < 24 ->
  chunk_step " " time.stdHour (" " ++ time.appendInt "" h 2 ++ rest) f
  = time.StepOk rest (time.set_hour h f).
Proof.
  intros H. unfold chunk_step. rewrite append_cons, append_nil_l.
  rewrite skip_space_cut. rewrite two_digits by lia.
  rewrite !append_cons, append_nil_l.
  assert (Ha : 0 <= h / 10 < 10).
  { split; [apply Z.div_pos; lia|apply Z.div_lt_upper_bound; lia]. }
  rewrite cutspace_nonspace by (apply digit_facts; exact Ha).
  pose proof (parse_ranged_two h rest false 24 "hour" time.set_hour f H
                ltac:(lia)) as Hp.
  rewrite two_digits in Hp by lia.
  rewrite !append_cons, append_nil_l in Hp. exact Hp.
Qed.

Lemma minute_step (m : Z) (rest : string) (f : time.fields) :
  0 <= m < 60 ->
  chunk_step ":" time.stdZeroMinute (":" ++ time.appendInt "" m 2 ++ rest) f
  = time.StepOk rest (time.set_min m f).
Proof.
  intros H. unfold chunk_step. rewrite append_cons, append_nil_l.
  rewrite skip_colon.
  exact (parse_ranged_two m rest true 60 "minute" time.set_min f H ltac:(lia)).
Qed.

Lemma second_step (s : Z) (rest : string) (f : time.fields) :
  0 <= s < 60 ->
  chunk_step ":" time.stdZeroSecond
    (":" ++ time.appendInt "" s 2 ++ " " ++ rest) f
  = time.StepOk (" " ++ rest) (time.set_sec s f).
Proof.
  intros H. unfold chunk_step. rewrite append_cons, append_nil_l.
  rewrite skip_colon. unfold time.parse_std.
  rewrite (parse_ranged_two s (" " ++ rest) true 60 "second" time.set_sec f H
             ltac:(lia)).
  rewrite append_cons, append_nil_l.
  change (time.commaOrPeriod (time.byte_at (String " " rest) 0)) with false.
  rewrite andb_false_r. reflexivity.
Qed.

(** The zone step reads the same text whatever the variables hold, and
    leaves the date as it is. *)
Lemma zone_step_fields (v v' : string) (f0 f : time.fields) :
  time.parse_std time.stdTZ v time.fields_init = time.StepOk v' f0 ->
  exists f',
    time.parse_std time.stdTZ v f = time.StepOk v' f'
    /\ time.f_year f' = time.f_year f /\ time.f_month f' = time.f_month f
    /\ time.f_day f' = time.f_day f.
Proof.
  unfold time.parse_std. intros H.
  destruct ((len v >=? 3) && String.eqb (take_str 3 v) "UTC").
  - inversion H; subst. eexists. split; [reflexivity|]. auto.
  - destruct (time.parseTimeZone v); [|discriminate].
    inversion H; subst. eexists. split; [reflexivity|]. auto.
Qed.

(** The year step, whatever the variables hold. *)
Lemma year_step (y : Z) (f : time.fields) :
  0 <= y <= 9999 ->
  chunk_step " " time.stdLongYear (" " ++ time.appendInt "" y 4) f
  = time.StepOk "" (time.set_year y f).
Proof.
  intros H.
  assert (Hc : year_step_ok y = true).
  { apply (check_below_spec (Z.to_nat 10000) year_step_ok);
      [vm_compute; reflexivity|rewrite Z2Nat.id; lia]. }
  unfold year_step_ok in Hc. cbv zeta in Hc.
  apply andb_prop in Hc as [Hcut Hstep]. apply String.eqb_eq in Hcut.
  unfold chunk_step. rewrite append_cons, append_nil_l, skip_space_cut, Hcut.
  unfold time.parse_std in *.
  destruct ((len (time.appendInt "" y 4) <? 4)
            || negb (is_digit (time.byte_at (time.appendInt "" y 4) 0)));
    [discriminate|].
  destruct (time.atoi (take_str 4 (time.appendInt "" y 4))) as [y'|];
    [|discriminate].
  destruct (drop_str 4 (time.appendInt "" y 4)); [|discriminate].
  simpl in Hstep. apply Z.eqb_eq in Hstep. subst y'. reflexivity.
Qed.

Lemma locabs_abs_nonneg (t : time.Time) (name : string) (offset abs : Z) :
  time.locabs t = (name, offset, abs) -> 0 <= abs.
Proof.
  unfold time.locabs. destruct (time.lookup (time.loc t) (time.unixSec t)) as [n o].
  intros H. inversion H; subst. unfold wrapU64. apply Z.mod_pos_bound. lia.
Qed.

(** For a year of four digits, a timestamp written in the [UnixDate] layout
    parses back under the same layout as soon as its zone element does:
    the weekday, the month, the day, the clock and the year always do. *)
Lemma Format_Parse_UnixDate (local : time.Location) (t : time.Time) :
  0 <= t_year t <= 9999 ->
  zone_accepted t = true ->
  exists t', time.Parse local time.UnixDate (time.Format t time.UnixDate) = inr t'.
Proof.
  intros Hyear Hzone.
  destruct (time.locabs t) as [[name offset] abs] eqn:Hl.
  destruct (time.absDate abs) as [[[year month] day] yday] eqn:Hd.
  destruct (time.absClock abs) as [[hour min] sec] eqn:Hc.
  pose proof (locabs_abs_nonneg _ _ _ _ Hl) as Habs.
  pose proof (absDate_valid abs Habs) as Hvalid. rewrite Hd in Hvalid.
  pose proof (absClock_bounds abs) as Hclock. rewrite Hc in Hclock.
  pose proof (absWeekday_bounds abs) as Hwd.
  assert (Hty : t_year t = year) by (unfold t_year; rewrite Hl, Hd; reflexivity).
  assert (Hzt : zone_text t
                = time.appendStd "" time.stdTZ name offset abs year month day
                                 hour min sec).
  { unfold zone_text. rewrite Hl. reflexivity. }
  rewrite Hty in Hyear.
  unfold zone_accepted in Hzone. rewrite Hty, Hzt in Hzone. cbv zeta in Hzone.
  unfold valid_date in Hvalid.
  repeat (apply andb_prop in Hvalid as [Hvalid ?]).
  repeat match goal with
         | H : (_ <=? _) = true |- _ => apply Z.leb_le in H
         end.
  rewrite (Format_UnixDate_elements t name offset abs year month day yday
             hour min sec Hl Hd Hc). cbv zeta.
  set (zt := time.appendStd "" time.stdTZ name offset abs year month day hour min sec) in *.
  set (dt := time.appendStd "" time.stdUnderDay name offset abs year month day hour min sec) in *.
  unfold time.appendStd. rewrite !append_nil_l.
  unfold time.Parse, time.UnixDate.
  destruct Hclock as (Hh & Hm & Hs).
  rewrite (parse_chunks_cons _ _ _ _ _ _ _ (weekday_step _ _ _ Hwd)).
  rewrite (parse_chunks_cons _ _ _ _ _ _ _
             (month_step month _ _ (conj Hvalid H2))).
  unfold dt.
  rewrite (parse_chunks_cons _ _ _ _ _ _ _
             (day_step day _ _ name offset abs year month hour min sec
                (conj H1 H))).
  rewrite (parse_chunks_cons _ _ _ _ _ _ _ (hour_step hour _ _ Hh)).
  rewrite (parse_chunks_cons _ _ _ _ _ _ _ (minute_step min _ _ Hm)).
  rewrite (parse_chunks_cons _ _ _ _ _ _ _ (second_step sec _ _ Hs)).
  set (f6 := time.set_sec sec _).
  destruct (time.skip (" " ++ zt ++ " " ++ time.appendInt "" year 4) " ")
    as [v|v] eqn:Hskip; [discriminate|].
  destruct (time.parse_std time.stdTZ v time.fields_init) as [v' f0| |] eqn:Hz;
    try discriminate.
  apply String.eqb_eq in Hzone. subst v'.
  destruct (zone_step_fields v _ f0 f6 Hz) as (fz & Hfz & Hzy & Hzm & Hzd).
  assert (Hzstep : chunk_step " " time.stdTZ
                     (" " ++ zt ++ " " ++ time.appendInt "" year 4) f6
                   = time.StepOk (" " ++ time.appendInt "" year 4) fz).
  { unfold chunk_step. rewrite Hskip. exact Hfz. }
  rewrite (parse_chunks_cons _ _ _ _ _ _ _ Hzstep).
  rewrite (parse_chunks_cons _ _ _ _ _ _ _ (year_step year fz Hyear)).
  cbn [time.parse_chunks]. change (negb (len "" =? 0)) with false. cbv iota.
  assert (Hfd : time.f_day (time.set_year year fz) = day)
    by (simpl; rewrite Hzd; reflexivity).
  assert (Hfm : time.f_month (time.set_year year fz) = month)
    by (simpl; rewrite Hzm; reflexivity).
  assert (Hfy : time.f_year (time.set_year year fz) = year) by reflexivity.
  cbv zeta. rewrite Hfd, Hfm, Hfy.
  destruct (Z.ltb_spec month 0); [lia|].
  destruct (Z.ltb_spec day 0); [lia|].
  destruct (Z.ltb_spec day 1); [lia|].
  destruct (Z.gtb_spec day (time.daysIn month year)); [lia|].
  cbv [orb].
  destruct (time.f_z (time.set_year year fz)); [eexists; reflexivity|].
  destruct (negb _); [|eexists; reflexivity].
  destruct (time.lookupName local _ _); eexists; reflexivity.
Qed.


Lemma len_cons (c : ascii) (r : string) : len (String c r) = 1 + len r.
Proof. unfold len. simpl String.length. lia. Qed.

Lemma len_nonneg (s : string) : 0 <= len s.
Proof. unfold len. lia. Qed.

Lemma upper_not_space (c : ascii) : is_upper c = true -> is_space c = false.
Proof.
  unfold is_upper, is_space. intros H. apply andb_prop in H as [H1 H2].
  apply Z.leb_le in H1. apply Z.eqb_neq. lia.
Qed.

Lemma upper_not_char (c x : ascii) :
  is_upper c = true -> is_upper x = false -> Ascii.eqb c x = false.
Proof.
  intros Hc Hx. destruct (Ascii.eqb_spec c x) as [->|]; [congruence|reflexivity].
Qed.

(** A zone abbreviation of three capital letters is read back whole. *)
Lemma three_capitals_step (a b c : ascii) (rest : string) :
  is_upper a = true -> is_upper b = true -> is_upper c = true ->
  exists f,
    chunk_step " " time.stdTZ
      (" " ++ String a (String b (String c "")) ++ " " ++ rest) time.fields_init
    = time.StepOk (" " ++ rest) f.
Proof.
  intros Ha Hb Hc. unfold chunk_step.
  rewrite !append_cons, !append_nil_l, skip_space_cut.
  rewrite cutspace_nonspace by (apply upper_not_space; exact Ha).
  set (v := String a (String b (String c (String " " rest)))).
  assert (Hlen : len v = 4 + len rest) by (unfold v; rewrite !len_cons; lia).
  pose proof (len_nonneg rest) as Hr.
  unfold time.parse_std.
  destruct ((len v >=? 3) && String.eqb (take_str 3 v) "UTC");
    [eexists; reflexivity|].
  unfold time.parseTimeZone.
  destruct (Z.ltb_spec (len v) 3); [lia|].
  assert (Hch : (String.eqb (take_str 4 v) "ChST"
                 || String.eqb (take_str 4 v) "MeST") = false).
  { unfold v. cbn [take_str String.eqb].
    rewrite (upper_not_char b "h" Hb eq_refl), (upper_not_char b "e" Hb eq_refl).
    destruct (Ascii.eqb a "C"), (Ascii.eqb a "M"); reflexivity. }
  rewrite Hch, andb_false_r.
  destruct (String.eqb (take_str 3 v) "GMT"); [eexists; reflexivity|].
  change (time.byte_at v 0) with a.
  rewrite (upper_not_char a "+" Ha eq_refl), (upper_not_char a "-" Ha eq_refl).
  cbv [orb].
  assert (Hup : time.count_upper 6 v = 3).
  { unfold v. cbn [time.count_upper]. rewrite Ha, Hb, Hc. reflexivity. }
  rewrite Hup. cbv [Z.eqb Pos.eqb]. eexists. reflexivity.
Qed.

(** In a zone whose abbreviation is three capital letters (PST, CET, UTC,
    ...), and for a year of four digits, the timestamp written in the
    [UnixDate] layout parses back under the same layout. *)
Lemma Format_Parse_three_capitals (local : time.Location) (t : time.Time)
    (a b c : ascii) (offset : Z) :
  time.lookup (time.loc t) (time.unixSec t)
  = (String a (String b (String c "")), offset) ->
  is_upper a = true -> is_upper b = true -> is_upper c = true ->
  0 <= t_year t <= 9999 ->
  exists t', time.Parse local time.UnixDate (time.Format t time.UnixDate) = inr t'.
Proof.
  intros Hlk Ha Hb Hc Hy. apply Format_Parse_UnixDate; [exact Hy|].
  unfold zone_accepted. cbv zeta.
  assert (Hzt : zone_text t = String a (String b (String c ""))).
  { unfold zone_text, time.locabs. rewrite Hlk. reflexivity. }
  rewrite Hzt.
  destruct (three_capitals_step a b c (time.appendInt "" (t_year t) 4) Ha Hb Hc)
    as [f Hf].
  unfold chunk_step in Hf.
  destruct (time.skip _ " ") as [v|v]; [discriminate|].
  rewrite Hf. apply String.eqb_refl.
Qed.

Lemma Format_Parse_three_capitals_example :
  exists t',
    time.Parse (Local sample_world) time.UnixDate
      (time.Format (now_of sample_world) time.UnixDate) = inr t'.
Proof.
  apply (Format_Parse_three_capitals _ _ "P" "S" "T" (-28800));
    try reflexivity.
  vm_compute. split; discriminate.
Qed.

(** ** The elapsed time *)

Lemma wrap64_range (z : Z) : MinInt64 <= wrap64 z <= MaxInt64.
Proof.
  unfold wrap64, MinInt64, MaxInt64.
  pose proof (Z.mod_pos_bound (z + 2 ^ 63) (2 ^ 64) ltac:(lia)). lia.
Qed.

Lemma wrap64_small (z : Z) : MinInt64 <= z <= MaxInt64 -> wrap64 z = z.
Proof.
  unfold wrap64, MinInt64, MaxInt64. intros H.
  rewrite Z.mod_small by lia. lia.
Qed.

Lemma match_mono_none {A : Type} (o : option Z) (f : Z -> Z -> A) (y : A) :
  match o with
  | Some mt => match @None Z with Some mu => f mt mu | None => y end
  | None => y
  end = y.
Proof. destruct o; reflexivity. Qed.

(** [time.Since] of a parsed instant: the difference of the two instants in
    nanoseconds, cut to the range of [Duration]. *)
Lemma Sub_saturates (t u : time.Time) :
  time.mono u = None ->
  0 <= time.nsec t < 1000000000 ->
  0 <= time.nsec u < 1000000000 ->
  let D := (time.unixSec t - time.unixSec u) * 1000000000
           + (time.nsec t - time.nsec u) in
  time.Sub t u = Z.max MinInt64 (Z.min MaxInt64 D).
Proof.
  intros Hmu Ht Hu D. unfold time.Sub. rewrite Hmu.
  rewrite (match_mono_none (time.mono t) time.subMono).
  change time.Second with 1000000000. fold D.
  set (d := wrap64 D).
  pose proof (wrap64_range D) as Hd. fold d in Hd.
  assert (Heq : time.Equal (time.Add u d) t = (d =? D)).
  { unfold time.Equal, time.Add. rewrite Hmu.
    pose proof (Z.quot_rem' d 1000000000) as Hqr.
    assert (Hrem : - 1000000000 < Z.rem d 1000000000 < 1000000000).
    { destruct (Z_le_gt_dec 0 d).
      - pose proof (Z.rem_bound_pos d 1000000000 ltac:(lia) ltac:(lia)). lia.
      - pose proof (Z.rem_bound_pos_neg d 1000000000 ltac:(lia) ltac:(lia)). lia. }
    set (q := Z.quot d 1000000000) in *. set (r := Z.rem d 1000000000) in *.
    destruct (Z.geb_spec (time.nsec u + r) 1000000000);
      [|destruct (Z.ltb_spec (time.nsec u + r) 0)];
      cbn [time.mono time.unixSec time.nsec];
      destruct (Z.eqb_spec d D);
      repeat match goal with
             | |- context [?a =? ?b] => destruct (Z.eqb_spec a b)
             end; simpl; try reflexivity; exfalso; unfold D in *; lia. }
  rewrite Heq.
  destruct (Z.eqb_spec d D) as [He|Hne].
  - rewrite He. unfold d in He.
    pose proof (wrap64_range D) as Hr. rewrite He in Hr. lia.
  - assert (Hout : D < MinInt64 \/ MaxInt64 < D).
    { destruct (Z_lt_le_dec D MinInt64); [auto|].
      destruct (Z_lt_le_dec MaxInt64 D); [auto|].
      exfalso. apply Hne. apply wrap64_small. lia. }
    unfold time.Before. rewrite Hmu.
    rewrite (match_mono_none (time.mono t) Z.ltb).
    unfold time.minDuration, time.maxDuration.
    unfold MinInt64, MaxInt64 in *.
    destruct (Z.ltb_spec (time.unixSec t) (time.unixSec u)); simpl.
    + unfold D in *. lia.
    + destruct (Z.eqb_spec (time.unixSec t) (time.unixSec u)); simpl.
      * destruct (Z.ltb_spec (time.nsec t) (time.nsec u)); unfold D in *; lia.
      * unfold D in *. lia.
Qed.

(** For a minimum interval above the least [Duration], the test the rate
    limiter makes on [time.Since] is the test on the true difference. *)
Lemma Since_lt_exact (t u : time.Time) (minD : time.Duration) :
  time.mono u = None ->
  0 <= time.nsec t < 1000000000 ->
  0 <= time.nsec u < 1000000000 ->
  MinInt64 < minD <= MaxInt64 ->
  (time.Sub t u < minD
   <-> (time.unixSec t - time.unixSec u) * 1000000000
       + (time.nsec t - time.nsec u) < minD).
Proof.
  intros Hmu Ht Hu Hmin. rewrite (Sub_saturates t u Hmu Ht Hu). cbv zeta.
  unfold MinInt64, MaxInt64 in *. lia.
Qed.

Lemma norm_lo_range (hi lo base : Z) :
  0 < base -> 0 <= snd (time.norm hi lo base) < base.
Proof.
  intros Hb. unfold time.norm.
  destruct (Z.ltb_spec lo 0) as [Hneg|Hpos].
  - pose proof (Z.quot_rem' (- lo - 1) base) as Hq.
    pose proof (Z.rem_bound_pos (- lo - 1) base ltac:(lia) Hb) as Hr.
    set (q := Z.quot (- lo - 1) base) in *.
    set (r := Z.rem (- lo - 1) base) in *.
    assert (Hlo : 0 <= lo + (q + 1) * base < base) by nia.
    destruct (Z.geb_spec (lo + (q + 1) * base) base); [lia|].
    simpl. exact Hlo.
  - destruct (Z.geb_spec lo base) as [Hge|Hlt].
    + pose proof (Z.quot_rem' lo base) as Hq.
      pose proof (Z.rem_bound_pos lo base Hpos Hb) as Hr.
      simpl. lia.
    + simpl. lia.
Qed.

(** An instant [time.Parse] returns has no monotonic clock reading and a
    nanosecond field within the second. *)
Lemma Parse_wall_only (local : time.Location) (layout : time.Layout)
    (value : string) (t : time.Time) :
  time.Parse local layout value = inr t ->
  time.mono t = None /\ 0 <= time.nsec t < 1000000000.
Proof.
  unfold time.Parse.
  destruct (time.parse_chunks layout value time.fields_init) as [e|f];
    [discriminate|].
  cbv zeta.
  set (month := if time.f_month f <? 0 then time.January else time.f_month f).
  set (day := if time.f_day f <? 0 then 1 else time.f_day f).
  destruct ((day <? 1) || _); [discriminate|].
  set (d := time.Date_UTC _ _ _ _ _ _ _).
  assert (Hd : time.mono d = None /\ 0 <= time.nsec d < 1000000000).
  { unfold d, time.Date_UTC.
    destruct (time.norm (time.f_year f) (month - 1) 12) as [y m].
    pose proof (norm_lo_range (time.f_sec f) (time.f_nsec f) 1000000000
                  ltac:(lia)) as Hn.
    destruct (time.norm (time.f_sec f) (time.f_nsec f) 1000000000) as [s ns].
    destruct (time.norm (time.f_min f) s 60) as [mi s'].
    destruct (time.norm (time.f_hour f) mi 60) as [h mi'].
    destruct (time.norm day h 24) as [dd h'].
    simpl in *. split; [reflexivity|exact Hn]. }
  destruct Hd as [Hm Hn].
  destruct (time.f_z f).
  - intros H; inversion H; subst; simpl; auto.
  - destruct (negb _).
    + destruct (time.lookupName local _ _); intros H; inversion H; subst; simpl; auto.
    + intros H; inversion H; subst; auto.
Qed.

(** The interval test of the rate limiter on a state file that parsed, in
    exact terms: for a minimum interval above the least [Duration] and a
    clock whose nanoseconds are within the second, "elapsed less than the
    minimum" is "now - t less than the minimum", in nanoseconds. *)
Lemma interval_test_exact (w : World) (buf : string) (t : time.Time)
    (minD : time.Duration) :
  time.Parse (Local w) time.UnixDate buf = inr t ->
  0 <= wall_nsec (clock w (ticks w)) < 1000000000 ->
  MinInt64 < minD <= MaxInt64 ->
  (time.Sub (now_of w) t < minD
   <-> (wall_sec (clock w (ticks w)) - time.unixSec t) * 1000000000
       + (wall_nsec (clock w (ticks w)) - time.nsec t) < minD).
Proof.
  intros Hp Hn Hmin.
  destruct (Parse_wall_only _ _ _ _ Hp) as [Hm Ht].
  exact (Since_lt_exact (now_of w) t minD Hm Hn Ht Hmin).
Qed.

(** ** Further facts *)

(** Every location code of the table resolves, with no server given, to
    [http://<code>.testmy.net]. *)
Lemma parseFlags_valid_location (x : cmdLineOpts) (w : World) :
  is_Some (serverLocation !! location x) ->
  server x = "" ->
  parseFlags x w
  = (Ok (set_server ("http://" ++ location x ++ ".testmy.net") x), w).
Proof.
  intros [d Hd] Hs.
  assert (Hh : location x <> "help").
  { intros E. rewrite E in Hd. vm_compute in Hd. discriminate. }
  rewrite (parseFlags_not_help _ _ Hh), Hd, Hs. reflexivity.
Qed.

(** The table has the thirteen locations, and the help listing shows them
    in the order of their codes. *)
Lemma serverLocation_codes :
  sort_Strings (map fst (map_to_list serverLocation))
  = ["au2"; "ca"; "co"; "de"; "fl"; "in"; "jp"; "lax"; "ny"; "sf"; "sg";
     "tx"; "uk"].
Proof. vm_compute. reflexivity. Qed.

(** A dry run fabricates 1,000,000 bytes in 8 seconds, whatever the server
    sends, once the request has succeeded. *)
Lemma download_dry_run (s : string) (n : Z) (w : World) (res : Response) :
  net w (dl_uri s n) = inr res ->
  download s n true w
  = (Ok (1000000, 8 * time.Second), log_event (EvGet (dl_uri s n)) w).
Proof.
  intros H. unfold download, bind, http.Get. fold (dl_uri s n). rewrite H.
  reflexivity.
Qed.

(** An error of the write itself is not covered by the atomicity of the
    checks: on a full disk the state file is left truncated. *)
Lemma write_failure_truncates :
  files world_disk_full !! sample_state_path
  = Some (File 384 "Thu Oct 30 00:00:00 PST 2025")
  /\ fst (overloadProtection stateFile quarter_hour world_disk_full)
     = Err (PathError "write" sample_state_path ENOSPC)
  /\ files (snd (overloadProtection stateFile quarter_hour world_disk_full))
       !! sample_state_path
     = Some (File 384 "").
Proof. repeat split; vm_compute; reflexivity. Qed.

(** * Further properties of the program *)

(** ** [download] *)

Lemma append_nil_r (a : string) : a ++ "" = a.
Proof.
  induction a as [|x a IH]; [reflexivity|]. rewrite append_cons. f_equal. exact IH.
Qed.

(** The URI of the request: the server, [/dl-], the size in decimal. *)
Lemma dl_uri_text (s : string) (n : Z) : dl_uri s n = s ++ "/dl-" ++ fmt.itoa n.
Proof.
  unfold dl_uri, fmt.Sprintf. cbv - [String.append fmt.itoa].
  rewrite append_nil_r. reflexivity.
Qed.

(** X1. A dry run fabricates its result: once the request for
    [<server>/dl-<size>] has succeeded, [download] returns 1,000,000 bytes
    and 8 seconds whatever the response holds (its body is not read, so a
    body that would break off does no harm), reads no clock, and makes that
    one request only. *)
Theorem download_dry_run_fabricates (srv : string) (size : Z) (w : World)
    (res : Response) :
  net w (srv ++ "/dl-" ++ fmt.itoa size) = inr res ->
  exists w',
    download srv size true w = (Ok (1000000, 8000000000), w')
    /\ new_events w w' = [EvGet (srv ++ "/dl-" ++ fmt.itoa size)]
    /\ ticks w' = ticks w.
Proof.
  intros H. rewrite <- dl_uri_text in *.
  unfold download, bind, http.Get. fold (dl_uri srv size). rewrite H.
  eexists. split; [reflexivity|]. split; [|reflexivity].
  apply new_events_app. reflexivity.
Qed.

Lemma download_dry_run_fabricates_witness :
  body_err {| body_copied := 4096; body_err := Some broken_body |} = Some broken_body
  /\ exists w',
       download "http://uk.testmy.net" 10240 true world_body_breaks
       = (Ok (1000000, 8000000000), w')
       /\ new_events world_body_breaks w' = [EvGet "http://uk.testmy.net/dl-10240"]
       /\ ticks w' = ticks world_body_breaks.
Proof.
  split; [reflexivity|].
  apply (download_dry_run_fabricates "http://uk.testmy.net" 10240
           world_body_breaks {| body_copied := 4096; body_err := Some broken_body |}).
  reflexivity.
Defined.

(** X2. When the request fails, [download] returns the error of the
    request, in dry-run mode as in a real run, without reading the clock. *)
Theorem download_request_error (srv : string) (size : Z) (dry : bool)
    (w : World) (e : error) :
  net w (srv ++ "/dl-" ++ fmt.itoa size) = inl e ->
  exists w',
    download srv size dry w = (Err e, w')
    /\ new_events w w' = [EvGet (srv ++ "/dl-" ++ fmt.itoa size)]
    /\ ticks w' = ticks w.
Proof.
  intros H. rewrite <- dl_uri_text in *.
  unfold download, bind, http.Get. fold (dl_uri srv size). rewrite H.
  eexists. split; [reflexivity|]. split; [|reflexivity].
  apply new_events_app. reflexivity.
Qed.

Lemma download_request_error_witness :
  exists w',
    download "http://uk.testmy.net" 10240 false world_net_down = (Err no_route, w')
    /\ new_events world_net_down w' = [EvGet "http://uk.testmy.net/dl-10240"]
    /\ ticks w' = ticks world_net_down.
Proof.
  apply (download_request_error "http://uk.testmy.net" 10240 false
           world_net_down no_route).
  reflexivity.
Defined.




(** X4. When the reading of the body fails in a real run, [download]
    returns that error and no measurement, after one reading of the
    clock. *)
Theorem download_body_error (srv : string) (size : Z) (w : World)
    (res : Response) (e : error) :
  net w (srv ++ "/dl-" ++ fmt.itoa size) = inr res ->
  body_err res = Some e ->
  exists w',
    download srv size false w = (Err e, w')
    /\ ticks w' = S (ticks w).
Proof.
  intros Hn Hb. rewrite <- dl_uri_text in *.
  unfold download, bind, http.Get, http.Copy_Discard, time_Since, time_Now,
    ret, bind.
  fold (dl_uri srv size). rewrite Hn. simpl negb. cbv iota. rewrite Hb.
  eexists. split; reflexivity.
Qed.

Lemma download_body_error_witness :
  exists w',
    download "http://uk.testmy.net" 10240 false world_body_breaks
    = (Err broken_body, w')
    /\ ticks w' = 1%nat.
Proof.
  apply (download_body_error "http://uk.testmy.net" 10240 world_body_breaks
           {| body_copied := 4096; body_err := Some broken_body |});
    reflexivity.
Defined.

(** X5. [download] has no effect outside the network and the clock: for
    every outcome the files, the standard output and the standard error are
    as before (the diagnostic messages of the verbose mode apart), the only
    event is the one request, and the process is not ended. *)
Theorem download_touches_nothing_else (srv : string) (size : Z) (dry : bool)
    (w : World) (r : result (Z * time.Duration)) (w' : World) :
  download srv size dry w = (r, w') ->
  files w' = files w /\ stdout w' = stdout w /\ stderr w' = stderr w
  /\ new_events w w' = [EvGet (srv ++ "/dl-" ++ fmt.itoa size)]
  /\ touched_files w w' = false
  /\ forall c, r <> Exit c.
Proof.
  intros H.
  destruct (download_frame _ _ _ _ _ _ H)
    as (Hf & _ & _ & _ & _ & _ & _ & _ & _ & Hso & Hse & Htr & Hex & _).
  rewrite <- dl_uri_text.
  pose proof (new_events_app _ _ _ Htr) as Hev.
  repeat split; try assumption.
  unfold touched_files. rewrite Hev. reflexivity.
Qed.

Lemma download_touches_nothing_else_witness :
  files (snd (download "http://uk.testmy.net" 10240 false world_recent))
  = files world_recent
  /\ touched_files world_recent
       (snd (download "http://uk.testmy.net" 10240 false world_recent)) = false
  /\ forall c,
       fst (download "http://uk.testmy.net" 10240 false world_recent) <> Exit c.
Proof.
  pose proof (download_touches_nothing_else "http://uk.testmy.net" 10240 false
                world_recent _ _ (surjective_pairing _)) as H.
  split; [apply H|]. split; apply H.
Defined.

(** ** [homeDir] *)

Lemma resolved_home_eq (w : World) :
  resolved_home w
  = (if String.eqb (env_HOME w) "" then current_user w else inr (env_HOME w)).
Proof. reflexivity. Qed.

(** X6. [homeDir] succeeds exactly when the path it settles on (HOME, or
    the home of the current user when HOME is empty) can be examined and
    is there, and then it returns that path; nothing more is asked of the
    path. *)
Theorem homeDir_succeeds_iff (w : World) (home : string) :
  (exists w', homeDir w = (Ok home, w'))
  <-> resolved_home w = inr home
      /\ stat_fault w home = None
      /\ is_Some (files w !! home).
Proof.
  split.
  - intros [w' H].
    destruct (resolved_home w) as [err|h] eqn:Hh.
    + exfalso. rewrite resolved_home_eq in Hh.
      unfold homeDir, bind, try, os.Getenv_HOME, user.Current, ret, fail in H.
      destruct (String.eqb (env_HOME w) ""); [|discriminate].
      rewrite Hh in H. discriminate.
    + rewrite (homeDir_stat _ _ Hh) in H. simpl in H.
      destruct (stat_fault w h) as [[]|] eqn:Hs; try discriminate.
      destruct (files w !! h) eqn:Hf; [|discriminate].
      inversion H; subst. rewrite Hs, Hf. eauto.
  - intros (Hh & Hs & [n Hf]).
    rewrite (homeDir_stat _ _ Hh). simpl. rewrite Hs, Hf. eauto.
Qed.

(** X7. The errors of [homeDir] on the path it settles on: a path that is
    not there gives the message that the home directory must exist and be
    a directory, naming the path; any other failure to examine the path is
    returned as the system reports it. *)
Theorem homeDir_stat_errors (w : World) (home : string) :
  resolved_home w = inr home ->
  ((stat_fault w home = Some ENOENT
    \/ (stat_fault w home = None /\ files w !! home = None)) ->
   fst (homeDir w) = Err (home_error home))
  /\ (forall e, stat_fault w home = Some e -> e <> ENOENT ->
      fst (homeDir w) = Err (PathError "stat" home e)).
Proof.
  intros Hh. rewrite (homeDir_stat _ _ Hh). simpl. split.
  - intros [Hs|[Hs Hf]]; rewrite Hs; [reflexivity|]. rewrite Hf. reflexivity.
  - intros e Hs He. rewrite Hs. destruct e; try reflexivity. congruence.
Qed.

Lemma homeDir_stat_errors_witness :
  fst (homeDir world_no_home) = Err (home_error "/nonexistent")
  /\ fst (homeDir world_home_denied) = Err (PathError "stat" "/home/u" EACCES).
Proof.
  split.
  - apply (homeDir_stat_errors world_no_home "/nonexistent"); [reflexivity|].
    right. split; reflexivity.
  - apply (homeDir_stat_errors world_home_denied "/home/u" eq_refl);
      [reflexivity | discriminate].
Defined.

(** X8. With HOME empty or unset and no record of the current user,
    [homeDir] returns the error of [user.Current] wrapped in its message,
    and examines no path. *)
Theorem homeDir_no_user (w : World) (err : error) :
  env_HOME w = "" ->
  current_user w = inl err ->
  homeDir w = (Err (no_user_error err), w).
Proof.
  intros He Hu.
  unfold homeDir, bind, try, os.Getenv_HOME, user.Current, ret, fail.
  rewrite He. simpl. rewrite Hu. reflexivity.
Qed.

Lemma homeDir_no_user_witness :
  homeDir world_no_user = (Err (no_user_error no_user), world_no_user).
Proof.
  apply (homeDir_no_user world_no_user no_user); reflexivity.
Defined.

(** X9. A non-empty HOME takes precedence: the result of [homeDir] and the
    path it examines do not depend on the record of the current user, which
    is not consulted. *)
Theorem homeDir_HOME_precedence (w : World) (u : error + string) :
  env_HOME w <> "" ->
  fst (homeDir (with_user u w)) = fst (homeDir w)
  /\ new_events (with_user u w) (snd (homeDir (with_user u w)))
     = new_events w (snd (homeDir w))
  /\ new_events w (snd (homeDir w)) = [EvStat (env_HOME w)].
Proof.
  intros He.
  assert (H1 : resolved_home w = inr (env_HOME w)).
  { rewrite resolved_home_eq. apply String.eqb_neq in He. rewrite He. reflexivity. }
  assert (H2 : resolved_home (with_user u w) = inr (env_HOME w)).
  { rewrite resolved_home_eq. simpl. apply String.eqb_neq in He. rewrite He.
    reflexivity. }
  rewrite (homeDir_stat _ _ H1), (homeDir_stat _ _ H2). simpl.
  destruct (stat_fault w (env_HOME w)) as [[]|];
    try (repeat split; apply new_events_app; reflexivity).
  destruct (files w !! env_HOME w);
    repeat split; apply new_events_app; reflexivity.
Qed.

Lemma homeDir_HOME_precedence_witness :
  fst (homeDir (with_user (inl no_user) sample_world)) = fst (homeDir sample_world)
  /\ new_events (with_user (inl no_user) sample_world)
       (snd (homeDir (with_user (inl no_user) sample_world)))
     = new_events sample_world (snd (homeDir sample_world))
  /\ new_events sample_world (snd (homeDir sample_world)) = [EvStat "/home/u"].
Proof.
  apply (homeDir_HOME_precedence sample_world (inl no_user)). discriminate.
Defined.

(** X10. [homeDir] only looks: whatever it returns, the files, the
    standard output, the standard error and the clock are as before, it
    has examined one path at most, and it does not end the process. *)
Theorem homeDir_only_looks (w : World) (r : result string) (w' : World) :
  homeDir w = (r, w') ->
  files w' = files w /\ stdout w' = stdout w /\ stderr w' = stderr w
  /\ ticks w' = ticks w
  /\ (new_events w w' = [] \/ exists p, new_events w w' = [EvStat p])
  /\ wrote w w' = false
  /\ forall c, r <> Exit c.
Proof.
  intros H.
  assert (Hx : forall c, r <> Exit c).
  { intros c ->. exact (homeDir_no_exit _ _ _ H). }
  destruct (homeDir_frame _ _ _ H) as [->|[p ->]].
  - assert (Hev : new_events w w = []).
    { apply new_events_app. symmetry. apply app_nil_r. }
    repeat split; try assumption; [left; exact Hev|].
    unfold wrote. rewrite Hev. reflexivity.
  - assert (Hev : new_events w (log_event (EvStat p) w) = [EvStat p]).
    { apply new_events_app. reflexivity. }
    repeat split; try assumption; [right; exists p; exact Hev|].
    unfold wrote. rewrite Hev. reflexivity.
Qed.

Lemma homeDir_only_looks_witness :
  files (snd (homeDir world_home_is_file)) = files world_home_is_file
  /\ wrote world_home_is_file (snd (homeDir world_home_is_file)) = false
  /\ forall c, fst (homeDir world_home_is_file) <> Exit c.
Proof.
  pose proof (homeDir_only_looks world_home_is_file _ _ (surjective_pairing _)) as H.
  split; [apply H|]. split; apply H.
Defined.

(** ** [flags.go]: the flag type [multiLevelInt] *)

Lemma wrap64_add_l (a b : Z) : wrap64 (wrap64 a + b) = wrap64 (a + b).
Proof.
  unfold wrap64. f_equal.
  replace ((a + 2 ^ 63) mod 2 ^ 64 - 2 ^ 63 + b + 2 ^ 63)
    with ((a + 2 ^ 63) mod 2 ^ 64 + b) by lia.
  rewrite Zplus_mod_idemp_l. f_equal. lia.
Qed.

(** X11. The flag type [multiLevelInt] counts its occurrences: after the
    flag package has called [Set] for each occurrence of the flag, the level
    has grown by the number of occurrences (in 64-bit arithmetic), whatever
    the values given, and no call has returned an error. *)
Theorem multiLevelInt_counts_occurrences (m : multiLevelInt) (vals : list string) :
  MinInt64 <= m <= MaxInt64 ->
  multiLevelInt_Set_each m vals = (wrap64 (m + Z.of_nat (length vals)), None).
Proof.
  intros Hm.
  assert (H : forall vals m,
             multiLevelInt_Set_each (wrap64 m) vals
             = (wrap64 (m + Z.of_nat (length vals)), None)).
  { clear. induction vals as [|v vals IH]; intros m.
    - simpl. rewrite Z.add_0_r. reflexivity.
    - cbn [multiLevelInt_Set_each multiLevelInt_Set length].
      rewrite wrap64_add_l, IH. do 2 f_equal. lia. }
  rewrite <- (wrap64_small m) at 1 by exact Hm. apply H.
Qed.

Lemma multiLevelInt_counts_occurrences_witness :
  multiLevelInt_Set_each 0 ["true"; "false"; "true"] = (3, None).
Proof.
  apply (multiLevelInt_counts_occurrences 0 ["true"; "false"; "true"]).
  unfold MinInt64, MaxInt64. lia.
Defined.

(** ** [flags.go]: [sort.Strings] and [locationList] *)

Lemma ascii_compare_N (a b : ascii) :
  Ascii.compare a b = N.compare (N_of_ascii a) (N_of_ascii b).
Proof. reflexivity. Qed.

Lemma ascii_compare_eq (a b : ascii) : Ascii.compare a b = Eq -> a = b.
Proof.
  rewrite ascii_compare_N. intros H. apply N.compare_eq in H.
  rewrite <- (ascii_N_embedding a), <- (ascii_N_embedding b), H. reflexivity.
Qed.

Lemma ascii_compare_refl (a : ascii) : Ascii.compare a a = Eq.
Proof. rewrite ascii_compare_N. apply N.compare_refl. Qed.

Lemma str_le_trans (a b c : string) : str_le a b -> str_le b c -> str_le a c.
Proof.
  unfold str_le, String.leb. revert b c.
  induction a as [|x a IH]; intros [|y b] [|z c]; simpl; try congruence.
  rewrite !ascii_compare_N.
  destruct (N.compare_spec (N_of_ascii x) (N_of_ascii y)) as [E1|L1|G1];
    destruct (N.compare_spec (N_of_ascii y) (N_of_ascii z)) as [E2|L2|G2];
    try congruence.
  - rewrite E1, E2, N.compare_refl. apply IH.
  - intros _ _. rewrite E1. apply N.compare_lt_iff in L2. rewrite L2. reflexivity.
  - intros _ _. rewrite <- E2. apply N.compare_lt_iff in L1. rewrite L1. reflexivity.
  - intros _ _.
    assert (L : (N_of_ascii x < N_of_ascii z)%N) by lia.
    apply N.compare_lt_iff in L. rewrite L. reflexivity.
Qed.

Lemma insert_sorted_perm (k : string) (l : list string) :
  Permutation (insert_sorted k l) (k :: l).
Proof.
  induction l as [|x l IH]; simpl; [reflexivity|].
  destruct (String.leb k x); [reflexivity|].
  rewrite IH. apply perm_swap.
Qed.

Lemma sort_Strings_perm (l : list string) : Permutation (sort_Strings l) l.
Proof.
  induction l as [|k l IH]; simpl; [reflexivity|].
  fold (sort_Strings l). rewrite insert_sorted_perm, IH. reflexivity.
Qed.

Lemma insert_sorted_sorted (k : string) (l : list string) :
  StronglySorted str_le l -> StronglySorted str_le (insert_sorted k l).
Proof.
  induction 1 as [|x l Hs IH Hx]; simpl.
  - constructor; constructor.
  - destruct (String.leb k x) eqn:E.
    + constructor; [constructor; assumption|].
      constructor; [exact E|].
      eapply Forall_impl; [exact Hx|].
      intros y Hy. exact (str_le_trans _ _ _ E Hy).
    + constructor; [exact IH|].
      assert (Hxk : str_le x k).
      { destruct (String.leb_total k x) as [H|H]; [congruence|exact H]. }
      rewrite insert_sorted_perm. constructor; assumption.
Qed.

Lemma sort_Strings_sorted (l : list string) : StronglySorted str_le (sort_Strings l).
Proof.
  induction l as [|k l IH]; simpl; [constructor|].
  apply insert_sorted_sorted. exact IH.
Qed.

Lemma str_le_refl (a : string) : str_le a a.
Proof. destruct (String.leb_total a a); assumption. Qed.

Lemma sorted_perm_unique (l1 l2 : list string) :
  StronglySorted str_le l1 -> StronglySorted str_le l2 ->
  Permutation l1 l2 -> l1 = l2.
Proof.
  intros H1. revert l2.
  induction H1 as [|a l1 Hs1 IH Ha]; intros l2 H2 Hp.
  - apply Permutation_nil in Hp. congruence.
  - destruct H2 as [|b l2 Hs2 Hb].
    + symmetry in Hp. apply Permutation_nil in Hp. discriminate.
    + assert (Hab : str_le a b).
      { assert (Hin : In b (a :: l1)).
        { apply (Permutation_in (l:=b :: l2)); [symmetry; exact Hp|left; reflexivity]. }
        destruct Hin as [->|Hin]; [apply str_le_refl|].
        rewrite List.Forall_forall in Ha. apply Ha. exact Hin. }
      assert (Hba : str_le b a).
      { assert (Hin : In a (b :: l2)).
        { apply (Permutation_in (l:=a :: l1)); [exact Hp|left; reflexivity]. }
        destruct Hin as [->|Hin]; [apply str_le_refl|].
        rewrite List.Forall_forall in Hb. apply Hb. exact Hin. }
      pose proof (String.leb_antisym _ _ Hab Hba) as ->.
      f_equal. apply IH; [exact Hs2|].
      exact (Permutation_cons_inv Hp).
Qed.

(** X12. [sort.Strings] as the listing uses it: the result holds the
    strings of its argument, each as often as the argument does, in
    ascending byte order; so it is the same for every order in which the
    argument lists them, and the listing does not depend on the order in
    which the map of the locations is traversed. *)
Theorem sort_Strings_sorts (l : list string) :
  Permutation (sort_Strings l) l
  /\ StronglySorted (fun a b => String.leb a b = true) (sort_Strings l)
  /\ forall l', Permutation l l' -> sort_Strings l' = sort_Strings l.
Proof.
  split; [apply sort_Strings_perm|]. split; [apply sort_Strings_sorted|].
  intros l' Hp. apply sorted_perm_unique; try apply sort_Strings_sorted.
  rewrite !sort_Strings_perm. symmetry. exact Hp.
Qed.

Lemma fold_left_lines (f : string -> string) (keys : list string) (s : string) :
  fold_left (fun s k => s ++ f k) keys s = s ++ String.concat "" (map f keys).
Proof.
  revert s. induction keys as [|k keys IH]; intros s.
  - simpl. rewrite append_nil_r. reflexivity.
  - cbn [fold_left]. rewrite IH. cbn [map].
    destruct keys as [|k' keys'].
    + simpl. rewrite append_nil_r. reflexivity.
    + cbn [String.concat map].
      rewrite append_nil_l, append_assoc. reflexivity.
Qed.

(** X13. The listing of [locationList], for every table it is given: the
    heading, then one line for each of the thirteen codes of the program's
    own table in ascending order, with the description the given table has
    for the code, or none; a code of the given table that the program's
    table lacks is not listed. *)
Theorem locationList_lines (sloc : gmap string string) :
  locationList sloc
  = "Available Locations:" ++ nl
    ++ String.concat ""
         (map (fun k => location_line k (default "" (sloc !! k)))
              ["au2"; "ca"; "co"; "de"; "fl"; "in"; "jp"; "lax"; "ny"; "sf";
               "sg"; "tx"; "uk"]).
Proof.
  unfold locationList. rewrite serverLocation_codes.
  rewrite (fold_left_lines
             (fun k => fmt.Sprintf ("%-4.4s %s" ++ nl)
                         [AString k; AString (default "" (sloc !! k))])).
  rewrite append_assoc. reflexivity.
Qed.

(** ** [parseFlags] and [main] *)

Lemma help_not_a_location : serverLocation !! "help" = None.
Proof. vm_compute. reflexivity. Qed.

Lemma append_not_nil (a b : string) : a <> "" -> a ++ b <> "".
Proof. destruct a; [congruence|]. rewrite append_cons. discriminate. Qed.

(** X14. For every location code of the table [parseFlags] succeeds and
    leaves the world as it is; the options it returns are the flag values
    with a server that is not empty, every other option unchanged; resolved
    options resolve to themselves. *)
Theorem parseFlags_accepts_table_codes (x : cmdLineOpts) (w : World) :
  is_Some (serverLocation !! location x) ->
  exists x',
    parseFlags x w = (Ok x', w)
    /\ server x' <> ""
    /\ csv x' = csv x /\ datasize x' = datasize x /\ dryrun x' = dryrun x
    /\ force x' = force x /\ location x' = location x /\ verbose x' = verbose x
    /\ parseFlags x' w = (Ok x', w).
Proof.
  intros Hl.
  assert (Hh : location x <> "help").
  { intros E. rewrite E, help_not_a_location in Hl. destruct Hl; discriminate. }
  rewrite (parseFlags_not_help _ _ Hh).
  destruct Hl as [d Hd]. rewrite Hd.
  destruct (String.eqb_spec (server x) "") as [Hs|Hs].
  - eexists. split; [reflexivity|].
    assert (Hne : server (set_server ("http://" ++ location x ++ ".testmy.net") x) <> "").
    { simpl. apply append_not_nil. discriminate. }
    split; [exact Hne|]. repeat split.
    rewrite parseFlags_not_help by exact Hh. simpl location. rewrite Hd.
    apply String.eqb_neq in Hne. rewrite Hne. reflexivity.
  - exists x. split; [reflexivity|]. split; [exact Hs|]. repeat split.
    rewrite (parseFlags_not_help _ _ Hh), Hd.
    apply String.eqb_neq in Hs. rewrite Hs. reflexivity.
Qed.

Lemma parseFlags_accepts_table_codes_witness :
  exists x',
    parseFlags cmd_csv sample_world = (Ok x', sample_world)
    /\ server x' <> ""
    /\ csv x' = true /\ datasize x' = 10240 /\ dryrun x' = false
    /\ force x' = false /\ location x' = "uk" /\ verbose x' = 0
    /\ parseFlags x' sample_world = (Ok x', sample_world).
Proof.
  apply (parseFlags_accepts_table_codes cmd_csv sample_world).
  vm_compute. eauto.
Defined.

Lemma parseFlags_Err_inv (x : cmdLineOpts) (w w1 : World) (e : error) :
  parseFlags x w = (Err e, w1) -> w1 = w.
Proof.
  intros Hp.
  destruct (String.eqb_spec (location x) "help") as [Hh|Hh].
  - rewrite (parseFlags_help _ _ Hh) in Hp. discriminate.
  - rewrite (parseFlags_not_help _ _ Hh) in Hp.
    destruct (serverLocation !! location x);
      [destruct (String.eqb (server x) ""); discriminate|].
    inversion Hp. reflexivity.
Qed.

(** [main] at each of the points where it stops early. *)
Lemma main_at_help (cmdline : cmdLineOpts) (w : World) :
  location cmdline = "help" ->
  main cmdline w = (Exit 2, put_stdout (locationList serverLocation) w).
Proof.
  intros Hh. unfold main.
  apply bind_Exit. unfold try. rewrite (parseFlags_help _ _ Hh). reflexivity.
Qed.

Lemma main_at_flag_error (cmdline : cmdLineOpts) (w w1 : World) (e : error) :
  parseFlags cmdline w = (Err e, w1) ->
  main cmdline w = (Exit 1, put_stderr ("Error: %s" ++ nl) [AError e] w1).
Proof.
  intros Hp. unfold main.
  rewrite (bind_Ok _ _ _ _ _ (try_Err _ _ _ _ Hp)). reflexivity.
Qed.

Lemma main_at_download_error (cmdline opt : cmdLineOpts) (w w1 w2 : World)
    (e : error) :
  parseFlags cmdline w = (Ok opt, w1) ->
  download (server opt) (datasize opt) (dryrun opt) w1 = (Err e, w2) ->
  main cmdline w
  = (Exit 1, put_stderr ("Error downloading data from %s: %v" ++ nl)
               [AString (server opt); AError e] w2).
Proof.
  intros Hp Hd. unfold main.
  rewrite (bind_Ok _ _ _ _ _ (try_Ok _ _ _ _ Hp)).
  unfold bind at 1. unfold ret at 1.
  rewrite (bind_Ok _ _ _ _ _ (try_Err _ _ _ _ Hd)). reflexivity.
Qed.

(** X15. With the location [help] the program prints the listing of the
    locations on the standard output and exits with status 2, whatever the
    other flags are: no request is made, no file is examined, read or
    written, and nothing goes to the standard error. *)
Theorem main_help (cmdline : cmdLineOpts) (w : World) :
  location cmdline = "help" ->
  exists w',
    main cmdline w = (Exit 2, w')
    /\ stdout w' = stdout w ++ locationList serverLocation
    /\ stderr w' = stderr w
    /\ files w' = files w
    /\ new_events w w' = [].
Proof.
  intros Hh. rewrite (main_at_help _ w Hh).
  eexists. split; [reflexivity|]. repeat split.
  apply new_events_app. symmetry. apply app_nil_r.
Qed.

Lemma main_help_witness :
  exists w',
    main cmd_help world_net_down = (Exit 2, w')
    /\ stdout w' = stdout world_net_down ++ locationList serverLocation
    /\ stderr w' = stderr world_net_down
    /\ files w' = files world_net_down
    /\ new_events world_net_down w' = [].
Proof.
  apply (main_help cmd_help world_net_down). reflexivity.
Defined.

(** X16. When the flags do not resolve, the program reports the error on
    the standard error as [Error: <error>] and exits with status 1; it has
    made no request, has examined, read or written no file, and has
    printed nothing on the standard output. *)
Theorem main_flag_error (cmdline : cmdLineOpts) (w w1 : World) (e : error) :
  parseFlags cmdline w = (Err e, w1) ->
  exists w',
    main cmdline w = (Exit 1, w')
    /\ stderr w' = (stderr w ++ [fatal_error e])%list
    /\ stdout w' = stdout w
    /\ files w' = files w
    /\ new_events w w' = [].
Proof.
  intros Hp. rewrite (main_at_flag_error _ _ _ _ Hp).
  apply parseFlags_Err_inv in Hp as ->.
  eexists. split; [reflexivity|]. repeat split.
  apply new_events_app. symmetry. apply app_nil_r.
Qed.

Lemma main_flag_error_witness :
  exists w',
    main cmd_bad_location sample_world = (Exit 1, w')
    /\ stderr w'
       = (stderr sample_world
          ++ [fatal_error (Errorf unknown_location_format [AString "zz"])])%list
    /\ stdout w' = stdout sample_world
    /\ files w' = files sample_world
    /\ new_events sample_world w' = [].
Proof.
  apply (main_flag_error cmd_bad_location sample_world sample_world
           (Errorf unknown_location_format [AString "zz"])).
  reflexivity.
Defined.

(** X17. When the download fails, the program reports
    [Error downloading data from <server>: <error>] on the standard error
    and exits with status 1 without consulting the rate limiter: the one
    request is all it has done (the diagnostic messages of the verbose mode
    apart), and the state file is as before, so that a failed download does
    not count as a run. *)
Theorem main_download_failure (cmdline opt : cmdLineOpts) (w w1 w2 : World)
    (e : error) :
  parseFlags cmdline w = (Ok opt, w1) ->
  download (server opt) (datasize opt) (dryrun opt) w1 = (Err e, w2) ->
  exists w',
    main cmdline w = (Exit 1, w')
    /\ stderr w' = (stderr w ++ [fatal_download (server opt) e])%list
    /\ stdout w' = stdout w
    /\ files w' = files w
    /\ new_events w w' = [EvGet (server opt ++ "/dl-" ++ fmt.itoa (datasize opt))]
    /\ touched_files w w' = false.
Proof.
  intros Hp Hd. rewrite (main_at_download_error _ _ _ _ _ _ Hp Hd).
  apply parseFlags_Ok_inv in Hp as [-> _].
  destruct (download_frame _ _ _ _ _ _ Hd)
    as (Hfs & _ & _ & _ & _ & _ & _ & _ & _ & Hso & Hse & Htr & _).
  eexists. split; [reflexivity|]. simpl.
  rewrite <- dl_uri_text.
  assert (Hev : new_events w
                  (put_stderr ("Error downloading data from %s: %v" ++ nl)
                     [AString (server opt); AError e] w2)
                = [EvGet (dl_uri (server opt) (datasize opt))]).
  { apply new_events_app. exact Htr. }
  rewrite Hse. repeat split; try assumption.
  unfold touched_files. rewrite Hev. reflexivity.
Qed.

Lemma main_download_failure_witness :
  exists w',
    main cmd_csv world_net_down = (Exit 1, w')
    /\ stderr w'
       = (stderr world_net_down
          ++ [fatal_download "http://uk.testmy.net" no_route])%list
    /\ stdout w' = stdout world_net_down
    /\ files w' = files world_net_down
    /\ new_events world_net_down w' = [EvGet "http://uk.testmy.net/dl-10240"]
    /\ touched_files world_net_down w' = false.
Proof.
  apply (main_download_failure cmd_csv
           (set_server "http://uk.testmy.net" cmd_csv)
           world_net_down world_net_down
           (log_event (EvGet "http://uk.testmy.net/dl-10240") world_net_down)
           no_route); reflexivity.
Defined.



(** X18. The request precedes the rate limiter: when an unforced run is
    refused by the limiter, the download has already been carried out, its
    request is the first event of the run, its result is not printed, and
    the program exits with status 1 and [Error: <error>] on the standard
    error (the diagnostic messages of the verbose mode apart). *)
Theorem main_request_precedes_limiter (cmdline opt : cmdLineOpts)
    (w w1 : World) (bd : Z * time.Duration) (w2 w3 : World) (e : error) :
  parseFlags cmdline w = (Ok opt, w1) ->
  force opt = false ->
  download (server opt) (datasize opt) (dryrun opt) w1 = (Ok bd, w2) ->
  overloadProtection stateFile (minDurationMinutes * time.Minute) w2 = (Err e, w3) ->
  exists w',
    main cmdline w = (Exit 1, w')
    /\ stderr w' = (stderr w ++ [fatal_error e])%list
    /\ stdout w' = stdout w
    /\ exists evs,
         new_events w w'
         = EvGet (server opt ++ "/dl-" ++ fmt.itoa (datasize opt)) :: evs.
Proof.
  intros Hp Hf Hd Hl.
  rewrite (main_steps _ _ _ _ _ _ Hp Hd), Hf.
  fold quarter_hour in Hl. rewrite Hl.
  apply parseFlags_Ok_inv in Hp as [-> _].
  destruct (download_frame _ _ _ _ _ _ Hd)
    as (_ & _ & _ & _ & _ & _ & _ & _ & _ & Hso & Hse & Htr & _).
  destruct (overloadProtection_effect _ _ _ _ _ Hl)
    as ((evs & Htr3 & _) & _ & Hso3 & Hse3).
  eexists. split; [reflexivity|]. simpl.
  rewrite Hse3, Hse, Hso3, Hso. repeat split.
  exists evs. rewrite <- dl_uri_text. apply new_events_app.
  cbn [trace put_stderr]. rewrite Htr3, Htr, <- app_assoc. reflexivity.
Qed.

Lemma main_request_precedes_limiter_witness :
  exists w',
    main cmd_csv world_recent = (Exit 1, w')
    /\ stderr w'
       = (stderr world_recent
          ++ [fatal_error (too_soon (minDurationMinutes * time.Minute) 2000000000)])%list
    /\ stdout w' = stdout world_recent
    /\ exists evs,
         new_events world_recent w' = EvGet "http://uk.testmy.net/dl-10240" :: evs.
Proof.
  exact (main_request_precedes_limiter cmd_csv
           (set_server "http://uk.testmy.net" cmd_csv)
           world_recent world_recent
           (10485760, 1000000000)
           (set_ticks 2 (log_event (EvGet "http://uk.testmy.net/dl-10240") world_recent))
           (set_ticks 3
              (log_event (EvReadFile sample_state_path)
                 (log_event (EvStat "/home/u")
                    (set_ticks 2
                       (log_event (EvGet "http://uk.testmy.net/dl-10240")
                          world_recent)))))
           (too_soon (minDurationMinutes * time.Minute) 2000000000)
           eq_refl eq_refl eq_refl eq_refl).
Defined.



Lemma main_Ok_stdout (cmdline opt : cmdLineOpts) (w w1 : World)
    (bd : Z * time.Duration) (w2 w' : World) :
  parseFlags cmdline w = (Ok opt, w1) ->
  download (server opt) (datasize opt) (dryrun opt) w1 = (Ok bd, w2) ->
  main cmdline w = (Ok tt, w') ->
  stdout w' = stdout w ++ result_line opt (fst bd) (snd bd).
Proof.
  intros Hp Hd Hmain.
  rewrite (main_steps _ _ _ _ _ _ Hp Hd) in Hmain.
  apply parseFlags_Ok_inv in Hp as [-> _].
  destruct (download_frame _ _ _ _ _ _ Hd)
    as (_ & _ & _ & _ & _ & _ & _ & _ & _ & Hso & _).
  destruct (force opt).
  - inversion Hmain; subst w'. simpl. rewrite Hso. reflexivity.
  - destruct (overloadProtection stateFile quarter_hour w2) as [[[]|e|n] w3] eqn:Hlim;
      try discriminate.
    inversion Hmain; subst w'. simpl.
    destruct (overloadProtection_effect _ _ _ _ _ Hlim) as (_ & _ & Hso3 & _).
    rewrite Hso3, Hso. reflexivity.
Qed.

Lemma Sprintf_prose (s : string) (b : Z) (d : time.Duration) (y : float64.t) :
  fmt.Sprintf ("Downloaded %d bytes from %s in %s. Bandwidth = %.3fMbps" ++ nl)
              [AInt b; AString s; ADuration d; AFloat y]
  = "Downloaded " ++ fmt.itoa b ++ " bytes from " ++ s ++ " in "
    ++ time.Duration_String d ++ ". Bandwidth = " ++ float64.format_f 3 y
    ++ "Mbps" ++ nl.
Proof. reflexivity. Qed.

(** X20. For every successful run that is not in CSV mode the program
    prints one line (the diagnostic messages of the verbose mode apart),
    [Downloaded <bytes> bytes from <server> in <duration>. Bandwidth = <mbps>Mbps],
    with the duration as [Duration.String] renders it and the bandwidth by
    [%.3f]; for 1,000,000 bytes in 8 seconds the line ends in
    [in 8s. Bandwidth = 1.000Mbps]. *)
Theorem main_prose_line (cmdline opt : cmdLineOpts) (w w1 : World)
    (bytes : Z) (duration : time.Duration) (w2 w' : World) :
  parseFlags cmdline w = (Ok opt, w1) ->
  csv opt = false ->
  download (server opt) (datasize opt) (dryrun opt) w1 = (Ok (bytes, duration), w2) ->
  main cmdline w = (Ok tt, w') ->
  stdout w' = stdout w ++ prose_line (server opt) bytes duration
  /\ (bytes = 1000000 -> duration = 8 * time.Second ->
      stdout w' = stdout w ++ "Downloaded 1000000 bytes from " ++ server opt
                    ++ " in 8s. Bandwidth = 1.000Mbps" ++ nl).
Proof.
  intros Hp Hcsv Hd Hmain.
  pose proof (main_Ok_stdout _ _ _ _ _ _ _ Hp Hd Hmain) as Hout.
  unfold result_line in Hout. rewrite Hcsv, Sprintf_prose in Hout.
  simpl fst in Hout. simpl snd in Hout.
  split; [exact Hout|].
  intros -> ->. rewrite Hout. reflexivity.
Qed.

Lemma main_prose_line_witness :
  stdout (snd (main cmd_dry sample_world))
  = "Downloaded 1000000 bytes from http://uk.testmy.net in 8s. Bandwidth = 1.000Mbps"
    ++ nl.
Proof.
  destruct (main cmd_dry sample_world) as [r w'] eqn:Hmain.
  assert (Hr : r = Ok tt).
  { change r with (fst (r, w')). rewrite <- Hmain. vm_compute. reflexivity. }
  subst r.
  destruct (main_prose_line cmd_dry (set_server "http://uk.testmy.net" cmd_dry)
              sample_world sample_world 1000000 (8 * time.Second)
              (log_event (EvGet "http://uk.testmy.net/dl-10240") sample_world)
              w' eq_refl eq_refl eq_refl Hmain) as [_ H].
  exact (H eq_refl eq_refl).
Defined.

(** ** [overloadProtection]: the state file *)

Lemma homeDir_Ok_inv (w w1 : World) (home : string) :
  homeDir w = (Ok home, w1) ->
  resolved_home w = inr home /\ stat_fault w home = None
  /\ is_Some (files w !! home) /\ w1 = log_event (EvStat home) w.
Proof.
  intros H.
  destruct (resolved_home w) as [err|h] eqn:Hh.
  - exfalso. rewrite resolved_home_eq in Hh.
    unfold homeDir, bind, try, os.Getenv_HOME, user.Current, ret, fail in H.
    destruct (String.eqb (env_HOME w) ""); [|discriminate].
    rewrite Hh in H. discriminate.
  - rewrite (homeDir_stat _ _ Hh) in H. simpl in H.
    destruct (stat_fault w h) as [[]|] eqn:Hs; try discriminate.
    destruct (files w !! h) eqn:Hf; [|discriminate].
    inversion H; subst. rewrite Hs, Hf. eauto.
Qed.

(** X21. A state file stamped later than the clock shows refuses the run:
    the time since the stamp is negative, so below every positive minimum
    interval, and the file is left as it is; the refusal lasts until the
    clock has passed the stamp by the minimum interval. *)
Theorem overloadProtection_future_stamp (sf : string) (minD : time.Duration)
    (w w1 : World) (home : string) (mode : Z) (buf : string) (t : time.Time) :
  homeDir w = (Ok home, w1) ->
  read_fault w (filepath.Join home sf) = None ->
  files w !! filepath.Join home sf = Some (File mode buf) ->
  time.Parse (Local w) time.UnixDate buf = inr t ->
  0 <= wall_nsec (clock w (ticks w)) < 1000000000 ->
  wall_sec (clock w (ticks w)) < time.unixSec t ->
  0 < minD <= MaxInt64 ->
  exists since w',
    overloadProtection sf minD w = (Err (too_soon minD since), w')
    /\ since < 0
    /\ files w' = files w
    /\ wrote w w' = false.
Proof.
  intros Hh Hrf Hfile Hparse Hns Hfut HminD.
  destruct (homeDir_Ok_inv _ _ _ Hh) as (_ & _ & _ & ->).
  pose proof (Parse_wall_only _ _ _ _ Hparse) as [Hmono Hnt].
  set (since := time.Sub (now_of w) t).
  assert (Hneg : since < 0).
  { unfold since.
    rewrite (Sub_saturates (now_of w) t Hmono Hns Hnt). cbv zeta.
    unfold now_of. cbn [time.unixSec time.nsec].
    unfold MinInt64, MaxInt64. lia. }
  pose proof (overloadProtection_steps sf minD w _ home Hh) as Hsteps.
  cbv zeta in Hsteps. unfold ioutil.ReadFile in Hsteps.
  cbn [read_fault files log_event] in Hsteps.
  rewrite Hrf, Hfile, Hparse in Hsteps. fold since in Hsteps.
  destruct (Z.ltb_spec since minD) as [_|Hge]; [|lia].
  exists since. eexists. split; [exact Hsteps|].
  split; [exact Hneg|]. split; [reflexivity|].
  unfold wrote.
  rewrite (new_events_app w _
             [EvStat home; EvReadFile (filepath.Join home sf)]).
  - reflexivity.
  - cbn [trace set_ticks log_event]. rewrite <- app_assoc. reflexivity.
Qed.

Lemma overloadProtection_future_stamp_witness :
  exists since w',
    overloadProtection stateFile quarter_hour world_future
    = (Err (too_soon quarter_hour since), w')
    /\ since < 0
    /\ files w' = files world_future
    /\ wrote world_future w' = false.
Proof.
  apply (overloadProtection_future_stamp stateFile quarter_hour world_future
           (log_event (EvStat "/home/u") world_future) "/home/u" 420
           "Sat Nov  1 00:00:00 PST 2025"
           {| time.unixSec := 1761984000; time.nsec := 0; time.mono := None;
              time.loc := time.FixedZone "PST" (-28800) |}).
  - reflexivity.
  - reflexivity.
  - reflexivity.
  - vm_compute. reflexivity.
  - simpl. lia.
  - simpl. lia.
  - unfold quarter_hour, MaxInt64. vm_compute. split; [reflexivity|discriminate].
Defined.

(** X22. [overloadProtection] keeps to its state file: once the home
    directory is resolved, the path [<home>/<stateFile>] is the only one it
    reads and the only one it writes, every other path of the file system
    is as before, and the first thing it has done is to examine the home
    directory. *)
Theorem overloadProtection_only_state_file (sf : string) (minD : time.Duration)
    (w w1 : World) (home : string) (r : result unit) (w' : World) :
  homeDir w = (Ok home, w1) ->
  overloadProtection sf minD w = (r, w') ->
  (forall p, p <> filepath.Join home sf -> files w' !! p = files w !! p)
  /\ (forall p d perm, In (EvWriteFile p d perm) (new_events w w') ->
      p = filepath.Join home sf)
  /\ (forall p, In (EvReadFile p) (new_events w w') -> p = filepath.Join home sf)
  /\ exists evs, new_events w w'
                 = EvStat home :: EvReadFile (filepath.Join home sf) :: evs.
Proof.
  intros Hh Hrun.
  destruct (homeDir_Ok_inv _ _ _ Hh) as (_ & _ & _ & Hw1). subst w1.
  set (fname := filepath.Join home sf) in *.
  assert (Hquiet : forall w0,
            files w0 = files w ->
            trace w0 = (trace w ++ [EvStat home; EvReadFile fname])%list ->
            (forall p, p <> fname -> files w0 !! p = files w !! p)
            /\ (forall p d perm, In (EvWriteFile p d perm) (new_events w w0) ->
                p = fname)
            /\ (forall p, In (EvReadFile p) (new_events w w0) -> p = fname)
            /\ exists evs, new_events w w0 = EvStat home :: EvReadFile fname :: evs).
  { intros w0 Hf Ht. rewrite (new_events_app _ _ _ Ht). split; [|split; [|split]].
    - intros p _. rewrite Hf. reflexivity.
    - intros p d perm [Hin|[Hin|[]]]; discriminate.
    - intros p [Hin|[Hin|[]]]; [discriminate|]. inversion Hin. reflexivity.
    - exists []. reflexivity. }
  assert (Hwrite : forall w0 r0 w0',
            files w0 = files w ->
            trace w0 = (trace w ++ [EvStat home; EvReadFile fname])%list ->
            write_step fname w0 = (r0, w0') ->
            (forall p, p <> fname -> files w0' !! p = files w !! p)
            /\ (forall p d perm, In (EvWriteFile p d perm) (new_events w w0') ->
                p = fname)
            /\ (forall p, In (EvReadFile p) (new_events w w0') -> p = fname)
            /\ exists evs, new_events w w0' = EvStat home :: EvReadFile fname :: evs).
  { intros w0 r0 w0' Hf Ht Hw. rewrite write_step_unfold in Hw.
    pose proof (WriteFile_trace _ _ _ _ _ _ Hw) as Ht'.
    pose proof (WriteFile_files _ _ _ _ _ _ Hw) as [_ Hf'].
    cbn [trace files set_ticks] in Ht', Hf'.
    rewrite Ht, <- app_assoc in Ht'. rewrite (new_events_app _ _ _ Ht').
    split; [|split; [|split]].
    - intros p Hp. destruct Hf' as [Hf'|[d' Hf']]; rewrite Hf'.
      + rewrite Hf. reflexivity.
      + rewrite lookup_insert_ne by congruence. rewrite Hf. reflexivity.
    - intros p d perm [Hin|[Hin|[Hin|[]]]]; try discriminate.
      inversion Hin. reflexivity.
    - intros p [Hin|[Hin|[Hin|[]]]]; try discriminate.
      inversion Hin. reflexivity.
    - eexists. reflexivity. }
  rewrite (overloadProtection_steps sf minD w _ home Hh) in Hrun.
  cbv zeta in Hrun. fold fname in Hrun.
  destruct (ioutil.ReadFile fname (log_event (EvStat home) w))
    as [[buf|e|n] w2] eqn:Hr;
    pose proof (ReadFile_frame _ _ _ _ Hr) as Hw2; subst w2.
  - destruct (time.Parse (Local w) time.UnixDate buf) as [pe|t].
    + inversion Hrun; subst r w'. apply Hquiet; [reflexivity|].
      cbn [trace log_event]. rewrite <- app_assoc. reflexivity.
    + destruct (time.Sub (now_of w) t <? minD).
      * inversion Hrun; subst r w'. apply Hquiet; [reflexivity|].
        cbn [trace log_event set_ticks]. rewrite <- app_assoc. reflexivity.
      * eapply Hwrite; [| |exact Hrun]; [reflexivity|].
        cbn [trace log_event set_ticks]. rewrite <- app_assoc. reflexivity.
  - destruct (os.IsNotExist (Some e)).
    + eapply Hwrite; [| |exact Hrun]; [reflexivity|].
      cbn [trace log_event]. rewrite <- app_assoc. reflexivity.
    + inversion Hrun; subst r w'. apply Hquiet; [reflexivity|].
      cbn [trace log_event]. rewrite <- app_assoc. reflexivity.
  - inversion Hrun; subst r w'. apply Hquiet; [reflexivity|].
    cbn [trace log_event]. rewrite <- app_assoc. reflexivity.
Qed.

Lemma overloadProtection_only_state_file_witness :
  (forall p, p <> sample_state_path ->
     files (snd (overloadProtection stateFile quarter_hour world_old)) !! p
     = files world_old !! p)
  /\ exists evs,
       new_events world_old (snd (overloadProtection stateFile quarter_hour world_old))
       = EvStat "/home/u" :: EvReadFile sample_state_path :: evs.
Proof.
  destruct (overloadProtection_only_state_file stateFile quarter_hour world_old
              (log_event (EvStat "/home/u") world_old) "/home/u"
              (fst (overloadProtection stateFile quarter_hour world_old))
              (snd (overloadProtection stateFile quarter_hour world_old))
              eq_refl (surjective_pairing _)) as (H1 & _ & _ & H4).
  split; [exact H1|exact H4].
Defined.

(** ** [Parse] after [Format]: the instant *)

Lemma cycle_days_invert : check_below (Z.to_nat 146097) cycle_day_inverts = true.
Proof. vm_compute. reflexivity. Qed.

Lemma norm_in_range (hi lo base : Z) :
  0 <= lo < base -> time.norm hi lo base = (hi, lo).
Proof.
  intros H. unfold time.norm.
  destruct (Z.ltb_spec lo 0); [lia|].
  rewrite Z.geb_leb. destruct (Z.leb_spec base lo); [lia|reflexivity].
Qed.

Lemma wrapU64_small (z : Z) : 0 <= z < 2 ^ 64 -> wrapU64 z = z.
Proof. intros H. unfold wrapU64. apply Z.mod_small. exact H. Qed.

Lemma daysSinceEpoch_cut (n y : Z) :
  0 <= n -> 0 <= y < 400 -> 400 * n + y < 2 ^ 64 ->
  time.daysSinceEpoch (400 * n + y + time.absoluteZeroYear)
  = time.daysPer400Years * n + cycle_days_before y.
Proof.
  intros Hn Hy Hb. unfold time.daysSinceEpoch, cycle_days_before. cbv zeta.
  replace (400 * n + y + time.absoluteZeroYear - time.absoluteZeroYear)
    with (400 * n + y) by lia.
  rewrite wrapU64_small by lia.
  assert (Hq : (400 * n + y) / 400 = n).
  { symmetry. apply (Z.div_unique (400 * n + y) 400 n y); lia. }
  rewrite Hq.
  replace (400 * n + y - 400 * n) with y by lia.
  lia.
Qed.

Lemma absClock_sum (abs : Z) :
  let '(hour, min, sec) := time.absClock abs in
  hour * time.secondsPerHour + min * time.secondsPerMinute + sec
  = abs mod time.secondsPerDay.
Proof. unfold time.absClock. cbv zeta. lia. Qed.

(** [Date] undoes [absDate] and [absClock]. *)
Lemma Date_after_absDate (abs : Z) :
  0 <= abs < 2 ^ 64 ->
  let '(year, month, day, _) := time.absDate abs in
  let '(hour, min, sec) := time.absClock abs in
  time.Date_UTC year month day hour min sec 0
  = {| time.unixSec :=
         wrap64 (abs + (time.absoluteToInternal + time.internalToUnix));
       time.nsec := 0; time.mono := None; time.loc := time.UTC |}.
Proof.
  intros Habs.
  pose proof (absClock_bounds abs) as Hclock.
  pose proof (absClock_sum abs) as Hsum.
  destruct (time.absClock abs) as [[hour min] sec].
  destruct Hclock as (Hh & Hm & Hs).
  rewrite absDate_cut. cbv zeta.
  set (D := abs / time.secondsPerDay) in *.
  set (n := D / time.daysPer400Years).
  set (r := D - time.daysPer400Years * n).
  assert (HD : 0 <= D) by (apply Z.div_pos; [lia|reflexivity]).
  assert (HDabs : D * 86400 <= abs).
  { unfold D. change time.secondsPerDay with 86400.
    pose proof (Z.mul_div_le abs 86400 ltac:(lia)). lia. }
  assert (Hn : 0 <= n) by (apply Z.div_pos; [exact HD|reflexivity]).
  assert (Hr : 0 <= r < 146097).
  { unfold r, n. change time.daysPer400Years with 146097.
    pose proof (Z.mod_pos_bound D 146097 ltac:(lia)) as Hmod.
    rewrite Z.mod_eq in Hmod by lia. lia. }
  assert (Hrn : 0 <= r < Z.of_nat (Z.to_nat 146097)) by (rewrite Z2Nat.id; lia).
  pose proof (check_below_spec _ _ cycle_days_valid r Hrn) as Hv.
  pose proof (check_below_spec _ _ cycle_days_invert r Hrn) as Hi.
  unfold cycle_day_valid in Hv. unfold cycle_day_inverts in Hi.
  rewrite cycle_years_shift.
  destruct (cycle_years 0 r) as [y yd]. simpl fst. simpl snd.
  replace (400 * n + y + time.absoluteZeroYear)
    with (400 * n + (y + time.absoluteZeroYear)) by lia.
  rewrite month_day_shift.
  destruct (month_day (y + time.absoluteZeroYear) yd) as [m dd].
  unfold valid_date in Hv.
  repeat (apply andb_prop in Hv as [Hv ?]).
  repeat (apply andb_prop in Hi as [Hi ?]).
  repeat match goal with
         | H : (_ <=? _) = true |- _ => apply Z.leb_le in H
         | H : (_ <? _) = true |- _ => apply Z.ltb_lt in H
         | H : (_ =? _) = true |- _ => apply Z.eqb_eq in H
         end.
  unfold time.Date_UTC.
  rewrite (norm_in_range _ (m - 1) 12) by lia.
  rewrite (norm_in_range sec 0 1000000000) by lia.
  rewrite (norm_in_range min sec 60) by lia.
  rewrite (norm_in_range hour min 60) by lia.
  rewrite (norm_in_range dd hour 24) by lia.
  cbv zeta.
  replace (m - 1 + 1) with m by lia.
  rewrite isLeap_shift.
  replace (400 * n + (y + time.absoluteZeroYear))
    with (400 * n + y + time.absoluteZeroYear) by lia.
  assert (Hy64 : 400 * n + y < 2 ^ 64).
  { assert (146097 * n <= D) by (unfold r in Hr; change time.daysPer400Years with 146097 in Hr; lia).
    lia. }
  rewrite daysSinceEpoch_cut by lia.
  set (leap := time.isLeap (y + time.absoluteZeroYear) && (m >=? time.March)) in *.
  assert (Hday : (if leap
                  then time.daysPer400Years * n + cycle_days_before y
                       + time.daysBefore_at (m - 1) + 1
                  else time.daysPer400Years * n + cycle_days_before y
                       + time.daysBefore_at (m - 1)) + (dd - 1) = D).
  { unfold r in *. destruct leap; lia. }
  rewrite Hday.
  rewrite (wrapU64_small D) by lia.
  change time.secondsPerDay with 86400 in *.
  rewrite (wrapU64_small (D * 86400)) by lia.
  rewrite Hsum.
  assert (Habs' : D * 86400 + abs mod 86400 = abs).
  { unfold D. rewrite (Z.div_mod abs 86400) at 3 by lia. lia. }
  rewrite Habs', (wrapU64_small abs) by lia.
  reflexivity.
Qed.

(** A zone abbreviation of three capital letters other than [UTC] is read
    back as the zone name, whatever the variables hold. *)
Lemma three_capitals_zone_step (a b c : ascii) (rest : string) (f : time.fields) :
  is_upper a = true -> is_upper b = true -> is_upper c = true ->
  String a (String b (String c "")) <> "UTC" ->
  chunk_step " " time.stdTZ
    (" " ++ String a (String b (String c "")) ++ " " ++ rest) f
  = time.StepOk (" " ++ rest)
      (time.set_zoneName (String a (String b (String c ""))) f).
Proof.
  intros Ha Hb Hc Hutc. unfold chunk_step.
  rewrite !append_cons, !append_nil_l, skip_space_cut.
  rewrite cutspace_nonspace by (apply upper_not_space; exact Ha).
  set (v := String a (String b (String c (String " " rest)))).
  assert (Hlen : len v = 4 + len rest) by (unfold v; rewrite !len_cons; lia).
  pose proof (len_nonneg rest) as Hr.
  assert (Htake : take_str 3 v = String a (String b (String c ""))) by reflexivity.
  assert (Hdrop : drop_str 3 v = String " " rest) by reflexivity.
  unfold time.parse_std. rewrite Htake.
  apply String.eqb_neq in Hutc. rewrite Hutc, andb_false_r.
  unfold time.parseTimeZone.
  destruct (Z.ltb_spec (len v) 3); [lia|].
  assert (Hch : (String.eqb (take_str 4 v) "ChST"
                 || String.eqb (take_str 4 v) "MeST") = false).
  { unfold v. cbn [take_str String.eqb].
    rewrite (upper_not_char b "h" Hb eq_refl), (upper_not_char b "e" Hb eq_refl).
    destruct (Ascii.eqb a "C"), (Ascii.eqb a "M"); reflexivity. }
  rewrite Hch, andb_false_r, Htake.
  destruct (String.eqb (String a (String b (String c ""))) "GMT").
  - unfold time.parseGMT. rewrite Hdrop, len_cons.
    destruct (Z.eqb_spec (1 + len rest) 0); [lia|].
    change (time.parseSignedOffset (String " " rest)) with 0.
    change (Z.to_nat (3 + 0)) with 3%nat. rewrite Htake, Hdrop. reflexivity.
  - change (time.byte_at v 0) with a.
    rewrite (upper_not_char a "+" Ha eq_refl), (upper_not_char a "-" Ha eq_refl).
    cbv [orb].
    assert (Hup : time.count_upper 6 v = 3).
    { unfold v. cbn [time.count_upper]. rewrite Ha, Hb, Hc. reflexivity. }
    rewrite Hup. cbv [Z.eqb Pos.eqb].
    change (Z.to_nat 3) with 3%nat. rewrite Htake, Hdrop. reflexivity.
Qed.

Lemma wrap64_unshift (u k : Z) :
  MinInt64 <= u <= MaxInt64 -> wrap64 (wrapU64 (u + k) - k) = u.
Proof.
  intros Hu. unfold wrap64, wrapU64.
  replace ((u + k) mod 2 ^ 64 - k + 2 ^ 63)
    with ((u + k) mod 2 ^ 64 + (2 ^ 63 - k)) by lia.
  rewrite Zplus_mod_idemp_l.
  replace (u + k + (2 ^ 63 - k)) with (u + 2 ^ 63) by lia.
  rewrite Z.mod_small by (unfold MinInt64, MaxInt64 in Hu; lia). lia.
Qed.

(** The zone abbreviation [UTC] is read back as the location [UTC]. *)
Lemma UTC_zone_step (rest : string) (f : time.fields) :
  chunk_step " " time.stdTZ (" " ++ "UTC" ++ " " ++ rest) f
  = time.StepOk (" " ++ rest) (time.set_z time.UTC f).
Proof.
  unfold chunk_step.
  rewrite !append_cons, !append_nil_l, skip_space_cut.
  rewrite cutspace_nonspace by reflexivity.
  set (v := String "U" (String "T" (String "C" (String " " rest)))).
  assert (Hlen : len v = 4 + len rest) by (unfold v; rewrite !len_cons; lia).
  pose proof (len_nonneg rest) as Hr.
  unfold time.parse_std.
  rewrite Z.geb_leb. destruct (Z.leb_spec 3 (len v)); [|lia].
  reflexivity.
Qed.

(** [Parse] after [Format] in the [UnixDate] layout, for a zone element
    that is read back by [zset]: the date and the clock come back as the
    seconds of the instant shifted by the offset of its zone. *)
Lemma Parse_Format_with_zone (local : time.Location) (t : time.Time)
    (name : string) (offset : Z) (zset : time.fields -> time.fields)
    (z : option time.Location) (zoneName : string) :
  time.lookup (time.loc t) (time.unixSec t) = (name, offset) ->
  (forall rest f,
     chunk_step " " time.stdTZ (" " ++ zone_text t ++ " " ++ rest) f
     = time.StepOk (" " ++ rest) (zset f)) ->
  (forall f,
     time.f_year (zset f) = time.f_year f /\ time.f_month (zset f) = time.f_month f
     /\ time.f_day (zset f) = time.f_day f /\ time.f_hour (zset f) = time.f_hour f
     /\ time.f_min (zset f) = time.f_min f /\ time.f_sec (zset f) = time.f_sec f
     /\ time.f_nsec (zset f) = time.f_nsec f
     /\ (time.f_z f = None -> time.f_zoneName f = "" ->
         time.f_z (zset f) = z /\ time.f_zoneName (zset f) = zoneName)) ->
  0 <= t_year t <= 9999 ->
  MinInt64 <= time.unixSec t + offset <= MaxInt64 ->
  time.Parse local time.UnixDate (time.Format t time.UnixDate)
  = parsed_instant local z zoneName (time.unixSec t + offset).
Proof.
  intros Hlk Hstep Hzset Hyear Hrange.
  destruct (time.locabs t) as [[name' off'] abs] eqn:Hl.
  assert (Hname : name' = name /\ off' = offset
                  /\ abs = wrapU64 (time.unixSec t + offset
                                    + (time.unixToInternal + time.internalToAbsolute))).
  { unfold time.locabs in Hl. rewrite Hlk in Hl. inversion Hl. auto. }
  destruct Hname as (-> & -> & Habs_eq).
  destruct (time.absDate abs) as [[[year month] day] yday] eqn:Hd.
  destruct (time.absClock abs) as [[hour min] sec] eqn:Hc'.
  pose proof (locabs_abs_nonneg _ _ _ _ Hl) as Habs.
  assert (Habs64 : 0 <= abs < 2 ^ 64).
  { rewrite Habs_eq. unfold wrapU64. apply Z.mod_pos_bound. lia. }
  pose proof (absDate_valid abs Habs) as Hvalid. rewrite Hd in Hvalid.
  pose proof (absClock_bounds abs) as Hclock. rewrite Hc' in Hclock.
  pose proof (absWeekday_bounds abs) as Hwd.
  pose proof (Date_after_absDate abs Habs64) as Hdate. rewrite Hd, Hc' in Hdate.
  assert (Hty : t_year t = year) by (unfold t_year; rewrite Hl, Hd; reflexivity).
  rewrite Hty in Hyear.
  assert (Hzt : time.appendStd "" time.stdTZ name offset abs year month day hour min sec
                = zone_text t).
  { unfold zone_text. rewrite Hl. reflexivity. }
  unfold valid_date in Hvalid.
  repeat (apply andb_prop in Hvalid as [Hvalid ?]).
  repeat match goal with
         | H : (_ <=? _) = true |- _ => apply Z.leb_le in H
         end.
  rewrite (Format_UnixDate_elements t name offset abs year month day yday
             hour min sec Hl Hd Hc'). cbv zeta.
  rewrite Hzt.
  set (dt := time.appendStd "" time.stdUnderDay name offset abs year month day hour min sec) in *.
  unfold time.appendStd. rewrite !append_nil_l.
  unfold time.Parse, time.UnixDate.
  destruct Hclock as (Hh & Hm & Hs).
  rewrite (parse_chunks_cons _ _ _ _ _ _ _ (weekday_step _ _ _ Hwd)).
  rewrite (parse_chunks_cons _ _ _ _ _ _ _
             (month_step month _ _ (conj Hvalid H2))).
  unfold dt.
  rewrite (parse_chunks_cons _ _ _ _ _ _ _
             (day_step day _ _ name offset abs year month hour min sec
                (conj H1 H))).
  rewrite (parse_chunks_cons _ _ _ _ _ _ _ (hour_step hour _ _ Hh)).
  rewrite (parse_chunks_cons _ _ _ _ _ _ _ (minute_step min _ _ Hm)).
  rewrite (parse_chunks_cons _ _ _ _ _ _ _ (second_step sec _ _ Hs)).
  rewrite (parse_chunks_cons _ _ _ _ _ _ _ (Hstep _ _)).
  rewrite (parse_chunks_cons _ _ _ _ _ _ _ (year_step year _ Hyear)).
  cbn [time.parse_chunks]. change (negb (len "" =? 0)) with false. cbv iota.
  set (f6 := time.set_sec sec _).
  destruct (Hzset f6) as (Hzy & Hzm & Hzd & Hzh & Hzmi & Hzs & Hzn & Hzone).
  destruct (Hzone eq_refl eq_refl) as [Hzz Hzname].
  cbn [time.f_year time.f_month time.f_day time.f_hour time.f_min time.f_sec
       time.f_nsec time.f_zoneName time.f_z time.set_year].
  rewrite Hzm, Hzd, Hzh, Hzmi, Hzs, Hzn, Hzz, Hzname.
  unfold f6.
  cbn [time.f_year time.f_month time.f_day time.f_hour time.f_min time.f_sec
       time.f_nsec time.f_zoneName time.f_z time.set_sec time.set_min
       time.set_hour time.set_day time.set_month time.fields_init].
  cbv zeta.
  destruct (Z.ltb_spec month 0); [lia|].
  destruct (Z.ltb_spec day 0); [lia|].
  destruct (Z.ltb_spec day 1); [lia|].
  destruct (Z.gtb_spec day (time.daysIn month year)); [lia|].
  cbv [orb]. rewrite Hdate.
  cbn [time.unixSec time.nsec].
  assert (Hu : wrap64 (abs + (time.absoluteToInternal + time.internalToUnix))
               = time.unixSec t + offset).
  { rewrite Habs_eq.
    replace (time.absoluteToInternal + time.internalToUnix)
      with (- (time.unixToInternal + time.internalToAbsolute))
      by (unfold time.internalToUnix, time.internalToAbsolute; lia).
    rewrite Z.add_opp_r. apply wrap64_unshift. exact Hrange. }
  rewrite Hu. unfold parsed_instant.
  destruct z; [reflexivity|].
  destruct (negb (String.eqb zoneName "")); [|reflexivity].
  reflexivity.
Qed.

(** The two zones [Parse] reads back: an abbreviation of three capital
    letters, and [UTC]. *)
Lemma Parse_Format_instant (local : time.Location) (t : time.Time)
    (a b c : ascii) (offset : Z) :
  time.lookup (time.loc t) (time.unixSec t)
  = (String a (String b (String c "")), offset) ->
  is_upper a = true -> is_upper b = true -> is_upper c = true ->
  String a (String b (String c "")) <> "UTC" ->
  0 <= t_year t <= 9999 ->
  MinInt64 <= time.unixSec t + offset <= MaxInt64 ->
  time.Parse local time.UnixDate (time.Format t time.UnixDate)
  = match time.lookupName local (String a (String b (String c "")))
            (time.unixSec t + offset) with
    | Some off =>
        inr {| time.unixSec := time.unixSec t + offset - off; time.nsec := 0;
               time.mono := None; time.loc := local |}
    | None =>
        inr {| time.unixSec := time.unixSec t + offset; time.nsec := 0;
               time.mono := None;
               time.loc := time.FixedZone (String a (String b (String c ""))) 0 |}
    end.
Proof.
  intros Hlk Ha Hb Hc Hutc Hyear Hrange.
  assert (Hzt : zone_text t = String a (String b (String c ""))).
  { unfold zone_text, time.locabs. rewrite Hlk. reflexivity. }
  rewrite (Parse_Format_with_zone local t _ offset
             (time.set_zoneName (String a (String b (String c ""))))
             None (String a (String b (String c ""))) Hlk).
  - unfold parsed_instant.
    change (negb (String.eqb (String a (String b (String c ""))) "")) with true.
    cbv iota.
    destruct (time.lookupName local _ _); reflexivity.
  - intros rest f. rewrite Hzt.
    apply three_capitals_zone_step; assumption.
  - intros f. repeat split; assumption.
  - exact Hyear.
  - exact Hrange.
Qed.

Lemma Parse_Format_instant_UTC (local : time.Location) (t : time.Time)
    (offset : Z) :
  time.lookup (time.loc t) (time.unixSec t) = ("UTC", offset) ->
  0 <= t_year t <= 9999 ->
  MinInt64 <= time.unixSec t + offset <= MaxInt64 ->
  time.Parse local time.UnixDate (time.Format t time.UnixDate)
  = inr {| time.unixSec := time.unixSec t + offset; time.nsec := 0;
           time.mono := None; time.loc := time.UTC |}.
Proof.
  intros Hlk Hyear Hrange.
  assert (Hzt : zone_text t = "UTC").
  { unfold zone_text, time.locabs. rewrite Hlk. reflexivity. }
  rewrite (Parse_Format_with_zone local t _ offset (time.set_z time.UTC)
             (Some time.UTC) "" Hlk).
  - reflexivity.
  - intros rest f. rewrite Hzt. apply UTC_zone_step.
  - intros f. repeat split; assumption.
  - exact Hyear.
  - exact Hrange.
Qed.

(** X23. The timestamp of the state file comes back as it was written:
    for an instant in a zone with an abbreviation of three capital letters
    for which the local zone gives the same offset back, and a year of four
    digits, [Parse] of what [Format] writes in the [UnixDate] layout is the
    same instant to the second, in the local zone, with no monotonic clock
    reading. *)
Theorem Format_Parse_round_trip (local : time.Location) (t : time.Time)
    (a b c : ascii) (offset : Z) :
  time.lookup (time.loc t) (time.unixSec t)
  = (String a (String b (String c "")), offset) ->
  is_upper a = true -> is_upper b = true -> is_upper c = true ->
  String a (String b (String c "")) <> "UTC" ->
  time.lookupName local (String a (String b (String c "")))
    (time.unixSec t + offset) = Some offset ->
  0 <= t_year t <= 9999 ->
  MinInt64 <= time.unixSec t + offset <= MaxInt64 ->
  time.Parse local time.UnixDate (time.Format t time.UnixDate)
  = inr (to_the_second local t).
Proof.
  intros Hlk Ha Hb Hc Hutc Hname Hyear Hrange.
  rewrite (Parse_Format_instant local t a b c offset Hlk Ha Hb Hc Hutc Hyear Hrange).
  rewrite Hname. unfold to_the_second. do 2 f_equal. lia.
Qed.

Lemma Format_Parse_round_trip_witness :
  time.Parse (Local sample_world) time.UnixDate
    (time.Format (now_of sample_world) time.UnixDate)
  = inr (to_the_second (Local sample_world) (now_of sample_world)).
Proof.
  apply (Format_Parse_round_trip (Local sample_world) (now_of sample_world)
           "P" "S" "T" (-28800)); try reflexivity.
  - discriminate.
  - vm_compute. split; discriminate.
  - vm_compute. split; discriminate.
Defined.

(** X24. In the zone [UTC] the timestamp comes back as it was written,
    whatever the local zone of the reader is: the same instant to the
    second, in the location [UTC]. *)
Theorem Format_Parse_round_trip_UTC (local : time.Location) (t : time.Time) :
  time.lookup (time.loc t) (time.unixSec t) = ("UTC", 0) ->
  0 <= t_year t <= 9999 ->
  MinInt64 <= time.unixSec t <= MaxInt64 ->
  time.Parse local time.UnixDate (time.Format t time.UnixDate)
  = inr (to_the_second time.UTC t).
Proof.
  intros Hlk Hyear Hrange.
  rewrite (Parse_Format_instant_UTC local t 0 Hlk Hyear) by lia.
  unfold to_the_second. do 2 f_equal. lia.
Qed.

Lemma Format_Parse_round_trip_UTC_witness :
  time.Parse (time.FixedZone "PST" (-28800)) time.UnixDate
    (time.Format {| time.unixSec := 1761897600; time.nsec := 999999999;
                    time.mono := Some 17; time.loc := time.UTC |}
                 time.UnixDate)
  = inr {| time.unixSec := 1761897600; time.nsec := 0; time.mono := None;
           time.loc := time.UTC |}.
Proof.
  apply (Format_Parse_round_trip_UTC (time.FixedZone "PST" (-28800))
           {| time.unixSec := 1761897600; time.nsec := 999999999;
              time.mono := Some 17; time.loc := time.UTC |}).
  - reflexivity.
  - vm_compute. split; discriminate.
  - vm_compute. split; discriminate.
Defined.

(** X25. A timestamp whose zone abbreviation the local zone does not know
    comes back shifted: [Parse] takes the date and the clock as they are
    written for UTC, in a fabricated zone of offset 0, so the instant read
    is later than the instant written by the offset of the zone it was
    written in. *)
Theorem Format_Parse_unknown_abbreviation (local : time.Location) (t : time.Time)
    (a b c : ascii) (offset : Z) :
  time.lookup (time.loc t) (time.unixSec t)
  = (String a (String b (String c "")), offset) ->
  is_upper a = true -> is_upper b = true -> is_upper c = true ->
  String a (String b (String c "")) <> "UTC" ->
  time.lookupName local (String a (String b (String c "")))
    (time.unixSec t + offset) = None ->
  0 <= t_year t <= 9999 ->
  MinInt64 <= time.unixSec t + offset <= MaxInt64 ->
  time.Parse local time.UnixDate (time.Format t time.UnixDate)
  = inr {| time.unixSec := time.unixSec t + offset; time.nsec := 0;
           time.mono := None;
           time.loc := time.FixedZone (String a (String b (String c ""))) 0 |}.
Proof.
  intros Hlk Ha Hb Hc Hutc Hname Hyear Hrange.
  rewrite (Parse_Format_instant local t a b c offset Hlk Ha Hb Hc Hutc Hyear Hrange).
  rewrite Hname. reflexivity.
Qed.

Lemma Format_Parse_unknown_abbreviation_witness :
  time.Parse time.UTC time.UnixDate
    (time.Format (now_of sample_world) time.UnixDate)
  = inr {| time.unixSec := 1761897600 + -28800; time.nsec := 0;
           time.mono := None; time.loc := time.FixedZone "PST" 0 |}.
Proof.
  apply (Format_Parse_unknown_abbreviation time.UTC (now_of sample_world)
           "P" "S" "T" (-28800)); try reflexivity.
  - discriminate.
  - vm_compute. split; discriminate.
  - vm_compute. split; discriminate.
Defined.

(** The first run in a home directory with no state file. *)
Lemma overloadProtection_first_run (sf : string) (minD : time.Duration)
    (w w1 : World) (home : string) :
  homeDir w = (Ok home, w1) ->
  read_fault w (filepath.Join home sf) = None ->
  write_faults w (filepath.Join home sf) = None ->
  files w !! filepath.Join home sf = None ->
  overloadProtection sf minD w
  = (Ok tt,
     set_files
       (<[filepath.Join home sf :=
            File (Z.land 420 (Z.lnot (umask w)))
                 (time.Format (now_of w) time.UnixDate)]> (files w))
       (log_event
          (EvWriteFile (filepath.Join home sf)
                       (time.Format (now_of w) time.UnixDate) 420)
          (set_ticks (S (ticks w))
             (log_event (EvReadFile (filepath.Join home sf))
                (log_event (EvStat home) w))))).
Proof.
  intros Hh Hrf Hwf Hnone.
  destruct (homeDir_Ok_inv _ _ _ Hh) as (_ & _ & _ & ->).
  rewrite (overloadProtection_steps sf minD w _ home Hh). cbv zeta.
  unfold ioutil.ReadFile. world_simpl. rewrite Hrf, Hnone.
  change (os.IsNotExist (Some (PathError "open" (filepath.Join home sf) ENOENT)))
    with true.
  cbv iota. rewrite write_step_unfold.
  rewrite WriteFile_Ok.
  - unfold ioutil.written_node. world_simpl. rewrite Hnone. reflexivity.
  - world_simpl. exact Hwf.
  - world_simpl. rewrite Hnone. discriminate.
Qed.

(** X26. Two runs in a row: after a first run that finds no state file, a
    second run reads the stamp of the first back and is refused while the
    time on the wall clock since the second the first run was stamped in is
    below the minimum interval, and accepted from then on.  The zone of the
    clock has an abbreviation of three capital letters that the local zone
    resolves to the same offset. *)
Theorem overloadProtection_two_runs (sf : string) (minD : time.Duration)
    (w w1 : World) (home : string) (a b c : ascii) (offset : Z) :
  homeDir w = (Ok home, w1) ->
  read_fault w (filepath.Join home sf) = None ->
  write_faults w (filepath.Join home sf) = None ->
  files w !! filepath.Join home sf = None ->
  time.lookup (Local w) (wall_sec (clock w (ticks w)))
  = (String a (String b (String c "")), offset) ->
  is_upper a = true -> is_upper b = true -> is_upper c = true ->
  String a (String b (String c "")) <> "UTC" ->
  time.lookupName (Local w) (String a (String b (String c "")))
    (wall_sec (clock w (ticks w)) + offset) = Some offset ->
  0 <= t_year (now_of w) <= 9999 ->
  MinInt64 <= wall_sec (clock w (ticks w)) + offset <= MaxInt64 ->
  0 <= wall_nsec (clock w (S (ticks w))) < 1000000000 ->
  MinInt64 < minD <= MaxInt64 ->
  let elapsed :=
    (wall_sec (clock w (S (ticks w))) - wall_sec (clock w (ticks w))) * 1000000000
    + wall_nsec (clock w (S (ticks w))) in
  exists w',
    overloadProtection sf minD w = (Ok tt, w')
    /\ (elapsed < minD ->
        exists since w'',
          overloadProtection sf minD w' = (Err (too_soon minD since), w'')
          /\ since < minD /\ files w'' = files w')
    /\ (minD <= elapsed ->
        exists w'', overloadProtection sf minD w' = (Ok tt, w'')).
Proof.
  intros Hh Hrf Hwf Hnone Hlk Ha Hb Hc Hutc Hname Hyear Hrange Hns HminD elapsed.
  set (fname := filepath.Join home sf) in *.
  eexists. split; [exact (overloadProtection_first_run sf minD w w1 home Hh Hrf Hwf Hnone)|].
  fold fname.
  set (stamp := time.Format (now_of w) time.UnixDate).
  set (F := <[fname := File (Z.land 420 (Z.lnot (umask w))) stamp]> (files w)).
  set (w' := set_files F _).
  destruct (homeDir_Ok_inv _ _ _ Hh) as (Hres & Hsf & Hhome & _).
  assert (Hh' : homeDir w' = (Ok home, log_event (EvStat home) w')).
  { rewrite (homeDir_stat w' home) by exact Hres.
    cbv zeta. unfold w'. world_simpl. rewrite Hsf.
    destruct (F !! home) eqn:HF; [reflexivity|].
    exfalso. unfold F in HF.
    destruct (decide (fname = home)) as [E|E].
    - rewrite E, lookup_insert_eq in HF. discriminate.
    - rewrite lookup_insert_ne in HF by exact E.
      destruct Hhome as [x Hx]. congruence. }
  assert (Hparse : time.Parse (Local w) time.UnixDate stamp
                   = inr (to_the_second (Local w) (now_of w))).
  { unfold stamp.
    rewrite (Parse_Format_instant (Local w) (now_of w) a b c offset Hlk Ha Hb Hc
               Hutc Hyear Hrange).
    cbn [time.unixSec now_of]. rewrite Hname.
    unfold to_the_second. cbn [time.unixSec now_of]. do 2 f_equal. lia. }
  pose proof (overloadProtection_steps sf minD w' _ home Hh') as Hsteps.
  cbv zeta in Hsteps. fold fname in Hsteps.
  unfold ioutil.ReadFile in Hsteps.
  assert (Hrf' : read_fault (log_event (EvStat home) w') fname = None) by exact Hrf.
  assert (Hfile' : files (log_event (EvStat home) w') !! fname
                   = Some (File (Z.land 420 (Z.lnot (umask w))) stamp)).
  { unfold w'. world_simpl. unfold F. apply lookup_insert_eq. }
  assert (Hloc' : Local w' = Local w) by reflexivity.
  rewrite Hrf', Hfile', Hloc', Hparse in Hsteps.
  set (t0 := to_the_second (Local w) (now_of w)) in *.
  assert (Hlt : time.Sub (now_of w') t0 < minD <-> elapsed < minD).
  { rewrite (Since_lt_exact (now_of w') t0 minD); [| reflexivity | exact Hns
      | unfold t0, to_the_second; cbn [time.nsec]; lia | exact HminD].
    unfold elapsed, t0, to_the_second, now_of, w'. world_simpl.
    cbn [time.unixSec time.nsec]. lia. }
  split.
  - intros Hel. apply Hlt in Hel.
    destruct (Z.ltb_spec (time.Sub (now_of w') t0) minD) as [_|]; [|lia].
    eexists. eexists. split; [exact Hsteps|]. split; [exact Hel|reflexivity].
  - intros Hel.
    destruct (Z.ltb_spec (time.Sub (now_of w') t0) minD) as [Hlt'|_];
      [apply Hlt in Hlt'; lia|].
    rewrite write_step_unfold in Hsteps.
    rewrite WriteFile_Ok in Hsteps.
    + eexists. exact Hsteps.
    + exact Hwf.
    + intros m. unfold w'. world_simpl. unfold F.
      rewrite lookup_insert_eq. discriminate.
Qed.

Lemma overloadProtection_two_runs_witness :
  exists w',
    overloadProtection stateFile quarter_hour sample_world = (Ok tt, w')
    /\ exists since w'',
         overloadProtection stateFile quarter_hour w'
         = (Err (too_soon quarter_hour since), w'')
         /\ since < quarter_hour /\ files w'' = files w'.
Proof.
  destruct (overloadProtection_two_runs stateFile quarter_hour sample_world
              (log_event (EvStat "/home/u") sample_world) "/home/u"
              "P" "S" "T" (-28800)) as (w' & H1 & H2 & _);
    try reflexivity.
  - discriminate.
  - vm_compute. split; discriminate.
  - vm_compute. split; discriminate.
  - vm_compute. split; [discriminate|reflexivity].
  - vm_compute. split; [reflexivity|discriminate].
  - exists w'. split; [exact H1|]. apply H2. vm_compute. reflexivity.
Defined.
